(** * Savings app: the transaction store and its CSV codec

    A shallow embedding of [src/app/transaction.service.ts] (the
    [TransactionService] class) and of the methods of
    [src/app/app.component.ts] that call into it or that page through
    the list and keep the theme, followed by the properties of the
    store, of the CSV import and export, and of the list view.  The
    chart and the totals, which add amounts in binary floating point,
    are not part of the embedding.

    Conventions of the embedding.
    - A JavaScript string is a [string] whose characters are code units
      below 256 (the Latin-1 range).
    - A JavaScript number is a [JSNumber]: NaN, the two infinities, or a
      finite value kept as its exact decimal expansion.  Overflow of a
      decimal literal to an infinity is modelled; rounding of a finite
      literal to the nearest binary64 value is not.
    - A [Date] object is its time value: [Some t] for [t] milliseconds
      since the epoch, [None] for an invalid date.
    - [localStorage] is one slot; the text it holds is identified with
      what [JSON.parse] makes of it.
    - Code that reads or writes the slot, or that can throw, lives in a
      state-and-exception monad [M].
    - What the language leaves to the host is a parameter of the
      service: the date formats beyond the ISO ones ([hostDateParse])
      and the storage quota ([storageAccepts]). *)

From Stdlib Require Import ZArith Lia Ascii String.
From stdpp Require Import base list strings gmap sorting.

Local Open Scope string_scope.
Local Open Scope list_scope.
Local Open Scope Z_scope.

(** ** Characters and the string primitives of the host *)

Definition dquote : ascii := "034"%char.
Definition comma : ascii := ","%char.
Definition newline : ascii := "010"%char.

(** White space and line terminators, as [String.prototype.trim] sees
    them in the Latin-1 range: TAB, LF, VT, FF, CR, SP, NBSP. *)
Definition is_ws (c : ascii) : bool :=
  match c with
  | "009" | "010" | "011" | "012" | "013" | " " | "160" => true
  | _ => false
  end%char.

Definition is_digit (c : ascii) : bool :=
  match c with
  | "0" | "1" | "2" | "3" | "4" | "5" | "6" | "7" | "8" | "9" => true
  | _ => false
  end%char.

Definition ascii_eqb (a b : ascii) : bool := bool_decide (a = b).

Fixpoint trimStart (s : string) : string :=
  match s with
  | String c r => if is_ws c then trimStart r else s
  | "" => ""
  end.

Fixpoint trimEnd (s : string) : string :=
  match s with
  | "" => ""
  | String c r =>
      match trimEnd r with
      | "" => if is_ws c then "" else String c ""
      | r' => String c r'
      end
  end.

(** [s.trim()] *)
Definition trim (s : string) : string := trimStart (trimEnd s).

(** A string is truthy when it is not empty. *)
Definition truthy_string (s : string) : bool :=
  match s with "" => false | _ => true end.

Definition lower_char (c : ascii) : ascii :=
  let n := N_of_ascii c in
  if ((65 <=? n) && (n <=? 90))%N then ascii_of_N (n + 32)
  else if ((192 <=? n) && (n <=? 222) && negb (n =? 215))%N
       then ascii_of_N (n + 32)
  else c.

(** [s.toLowerCase()] *)
Fixpoint toLowerCase (s : string) : string :=
  match s with
  | "" => ""
  | String c r => String (lower_char c) (toLowerCase r)
  end.

(** [s.includes(c)] for a one-character needle. *)
Fixpoint includes (c : ascii) (s : string) : bool :=
  match s with
  | "" => false
  | String x r => ascii_eqb x c || includes c r
  end.

(** [s.split(c)] for a one-character separator: never empty. *)
Fixpoint split (c : ascii) (s : string) : list string :=
  match s with
  | "" => [""]
  | String x r =>
      if ascii_eqb x c then "" :: split c r
      else match split c r with
           | h :: t => String x h :: t
           | [] => [String x ""]
           end
  end.

(** [l.join(sep)] *)
Fixpoint join (sep : string) (l : list string) : string :=
  match l with
  | [] => ""
  | [x] => x
  | x :: r => x +:+ sep +:+ join sep r
  end.

(** The global replacement of exportToCSV: every double quote of the
    cell is written twice. *)
Fixpoint double_quotes (s : string) : string :=
  match s with
  | "" => ""
  | String c r =>
      if ascii_eqb c dquote then String dquote (String dquote (double_quotes r))
      else String c (double_quotes r)
  end.

(** ** parseCSVLine (transaction.service.ts, lines 141-161) *)

Fixpoint parseCSVLine_from (line : string) (result : list string)
    (current : string) (inQuotes : bool) : list string :=
  match line with
  | "" => result ++ [trim current]
  | String char rest =>
      if ascii_eqb char dquote then
        parseCSVLine_from rest result current (negb inQuotes)
      else if ascii_eqb char comma && negb inQuotes then
        parseCSVLine_from rest (result ++ [trim current]) "" inQuotes
      else
        parseCSVLine_from rest result (current +:+ String char "") inQuotes
  end.

Definition parseCSVLine (line : string) : list string :=
  parseCSVLine_from line [] "" false.

(** The cell escaping of exportToCSV (lines 57-63). *)
Definition escapeCell (cell : string) : string :=
  if includes comma cell || includes dquote cell || includes newline cell
  then String dquote (double_quotes cell +:+ String dquote "")
  else cell.

(** ** Decimal numerals *)

Definition digit_char (n : N) : ascii := ascii_of_N (48 + n mod 10).
Definition digit_value (c : ascii) : N := N_of_ascii c - 48.

Fixpoint show_N_from (fuel : nat) (n : N) (acc : string) : string :=
  match fuel with
  | O => acc
  | S fuel' =>
      let acc' := String (digit_char n) acc in
      if (n / 10 =? 0)%N then acc' else show_N_from fuel' (n / 10) acc'
  end.

(** The decimal numeral of a natural number, without leading zeros.
    A number has no more decimal digits than binary ones. *)
Definition show_N (n : N) : string := show_N_from (S (N.size_nat n)) n "".

(** [z.toString()] for an integer [z] of magnitude below 10^21. *)
Definition show_Z (z : Z) : string :=
  if z <? 0 then String "-" (show_N (Z.to_N (- z))) else show_N (Z.to_N z).

Fixpoint digits_value_from (acc : N) (s : string) : N :=
  match s with
  | "" => acc
  | String c r => digits_value_from (10 * acc + digit_value c) r
  end.

Definition digits_value (s : string) : N := digits_value_from 0 s.

(** The longest prefix of decimal digits, and what follows it. *)
Fixpoint span_digits (s : string) : string * string :=
  match s with
  | String c r =>
      if is_digit c then let '(d, rest) := span_digits r in (String c d, rest)
      else ("", s)
  | "" => ("", "")
  end.

Fixpoint zeros (n : nat) : string :=
  match n with O => "" | S n' => String "0" (zeros n') end.

Fixpoint str_take (n : nat) (s : string) : string :=
  match n, s with
  | S n', String c r => String c (str_take n' r)
  | _, _ => ""
  end.

Fixpoint str_drop (n : nat) (s : string) : string :=
  match n, s with
  | S n', String _ r => str_drop n' r
  | _, _ => s
  end.

Fixpoint leading_zeros (s : string) : nat :=
  match s with
  | String "0" r => S (leading_zeros r)
  | _ => O
  end.

Definition strip_leading_zeros (s : string) : string :=
  str_drop (leading_zeros s) s.

Fixpoint strip_trailing_zeros (s : string) : string :=
  match s with
  | "" => ""
  | String c r =>
      match strip_trailing_zeros r with
      | "" => if ascii_eqb c "0" then "" else String c ""
      | r' => String c r'
      end
  end.

(** [s.startsWith(p)], returning what follows the prefix. *)
Fixpoint strip_prefix (p s : string) : option string :=
  match p, s with
  | "", _ => Some s
  | String a p', String b s' =>
      if ascii_eqb a b then strip_prefix p' s' else None
  | _, "" => None
  end.

(** ** Numbers *)

(** A finite non-zero number is a sign, its significant decimal digits
    [d1 ... dk] (no leading and no trailing zero) and the position [n]
    of the decimal point: its value is [0.d1...dk * 10^n].  These are
    the [s], [k] and [n] of Number::toString. *)
Inductive JSNumber :=
| NaN
| Infinity (negative : bool)
| Zero
| Finite (negative : bool) (digits : string) (point : Z).

Global Instance JSNumber_eq_dec : EqDecision JSNumber.
Proof. solve_decision. Defined.

Definition isNaN (x : JSNumber) : bool :=
  match x with NaN => true | _ => false end.

Definition is_finite (x : JSNumber) : bool :=
  match x with Zero | Finite _ _ _ => true | _ => false end.

(** The least magnitude that rounds to an infinity: halfway between the
    largest binary64 value and 2^1024. *)
Definition overflow_threshold : Z := 2 ^ 1024 - 2 ^ 970.

Definition overflows (digits : string) (point : Z) : bool :=
  if 309 <? point then true
  else if point <? 309 then false
  else
    let k := Z.of_nat (String.length digits) in
    let d := Z.of_N (digits_value digits) in
    if k <=? 309 then overflow_threshold <=? d * 10 ^ (309 - k)
    else overflow_threshold * 10 ^ (k - 309) <=? d.

(** The value of a decimal literal with integer digits [int], fraction
    digits [frac] and exponent [exp]. *)
Definition decimal_value (neg : bool) (int frac : string) (exp : Z)
  : JSNumber :=
  let all := int +:+ frac in
  match strip_trailing_zeros (strip_leading_zeros all) with
  | "" => Zero
  | core =>
      let point :=
        Z.of_nat (String.length int) - Z.of_nat (leading_zeros all) + exp in
      if overflows core point then Infinity neg else Finite neg core point
  end.

(** The optional exponent part at the head of [s]; 0 when there is none
    (an indicator that no digit follows is not an exponent). *)
Definition exponent_part (s : string) : Z :=
  match s with
  | String c r =>
      if ascii_eqb c "e" || ascii_eqb c "E" then
        let '(neg, r') :=
          match r with
          | String "+" r1 => (false, r1)
          | String "-" r1 => (true, r1)
          | _ => (false, r)
          end in
        match fst (span_digits r') with
        | "" => 0
        | ds => if neg : bool then - Z.of_N (digits_value ds)
                else Z.of_N (digits_value ds)
        end
      else 0
  | "" => 0
  end.

(** The value of the longest prefix of [s] that is an unsigned decimal
    literal of the string-to-number grammar, under the sign [neg]. *)
Definition parseUnsignedDecimal (neg : bool) (s : string) : JSNumber :=
  match strip_prefix "Infinity" s with
  | Some _ => Infinity neg
  | None =>
      let '(int, r) := span_digits s in
      let '(frac, r') :=
        match r with
        | String "." r1 => span_digits r1
        | _ => ("", r)
        end in
      match int, frac with
      | "", "" => NaN
      | _, _ => decimal_value neg int frac (exponent_part r')
      end
  end.

(** [parseFloat(s)]: leading white space is skipped, then the longest
    prefix that is a StrDecimalLiteral is evaluated. *)
Definition parseFloat (s : string) : JSNumber :=
  match trimStart s with
  | String "+" r => parseUnsignedDecimal false r
  | String "-" r => parseUnsignedDecimal true r
  | s0 => parseUnsignedDecimal false s0
  end.

(** [x.toString()] (Number::toString, radix 10). *)
Definition Number_toString (x : JSNumber) : string :=
  match x with
  | NaN => "NaN"
  | Infinity false => "Infinity"
  | Infinity true => "-Infinity"
  | Zero => "0"
  | Finite neg d n =>
      let k := Z.of_nat (String.length d) in
      (if neg then "-" else "") +:+
      (if (k <=? n) && (n <=? 21) then d +:+ zeros (Z.to_nat (n - k))
       else if (0 <? n) && (n <=? 21) then
         str_take (Z.to_nat n) d +:+ "." +:+ str_drop (Z.to_nat n) d
       else if (-6 <? n) && (n <=? 0) then
         "0." +:+ zeros (Z.to_nat (- n)) +:+ d
       else
         let e := n - 1 in
         let mantissa :=
           match d with
           | String c "" => d
           | String c r => String c (String "." r)
           | "" => ""
           end in
         mantissa +:+ "e" +:+ (if e <? 0 then "-" else "+")
                  +:+ show_N (Z.to_N (Z.abs e)))
  end.

(** ** Dates

    A [Date] is its time value, [None] standing for the NaN of an
    invalid date.  The day arithmetic is the one of the language
    definition (Day, DayFromYear, YearFromTime, MonthFromTime,
    DateFromTime, MakeDay, TimeClip). *)

Definition msPerDay : Z := 86400000.
Definition maxTime : Z := 8640000000000000.

Definition TimeClip (t : Z) : option Z :=
  if Z.abs t <=? maxTime then Some t else None.

Definition Day (t : Z) : Z := t / msPerDay.
Definition TimeWithinDay (t : Z) : Z := t mod msPerDay.

Definition DayFromYear (y : Z) : Z :=
  365 * (y - 1970) + (y - 1969) / 4 - (y - 1901) / 100 + (y - 1601) / 400.

Definition isLeapYear (y : Z) : bool :=
  (y mod 4 =? 0) && (negb (y mod 100 =? 0) || (y mod 400 =? 0)).

Definition leapDays (y : Z) : Z := if isLeapYear y then 1 else 0.

(** The largest year that starts on or before day [d]: an estimate from
    the mean year length, corrected by at most one year. *)
Definition YearFromDay (d : Z) : Z :=
  let y := 1970 + d * 400 / 146097 in
  if d <? DayFromYear y then y - 1
  else if DayFromYear (y + 1) <=? d then y + 1
  else y.

Definition YearFromTime (t : Z) : Z := YearFromDay (Day t).

Definition DayWithinYear (t : Z) : Z := Day t - DayFromYear (YearFromTime t).

(** The day of the year on which month [m] (0 = January) starts; 12
    gives the length of the year. *)
Definition monthStart (leap : Z) (m : Z) : Z :=
  match m with
  | 0 => 0
  | 1 => 31
  | 2 => 59 + leap
  | 3 => 90 + leap
  | 4 => 120 + leap
  | 5 => 151 + leap
  | 6 => 181 + leap
  | 7 => 212 + leap
  | 8 => 243 + leap
  | 9 => 273 + leap
  | 10 => 304 + leap
  | 11 => 334 + leap
  | _ => 365 + leap
  end.

Definition monthOfDay (leap : Z) (d : Z) : Z :=
  if d <? monthStart leap 1 then 0
  else if d <? monthStart leap 2 then 1
  else if d <? monthStart leap 3 then 2
  else if d <? monthStart leap 4 then 3
  else if d <? monthStart leap 5 then 4
  else if d <? monthStart leap 6 then 5
  else if d <? monthStart leap 7 then 6
  else if d <? monthStart leap 8 then 7
  else if d <? monthStart leap 9 then 8
  else if d <? monthStart leap 10 then 9
  else if d <? monthStart leap 11 then 10
  else 11.

Definition MonthFromTime (t : Z) : Z :=
  monthOfDay (leapDays (YearFromTime t)) (DayWithinYear t).

Definition DateFromTime (t : Z) : Z :=
  DayWithinYear t
  - monthStart (leapDays (YearFromTime t)) (MonthFromTime t) + 1.

Definition daysInMonth (y m : Z) : Z :=
  monthStart (leapDays y) (m + 1) - monthStart (leapDays y) m.

(** [MakeDay(y, m, date)] for a month in 0..11. *)
Definition MakeDay (y m date : Z) : Z :=
  DayFromYear y + monthStart (leapDays y) m + date - 1.

(** Fixed-width decimal fields. *)
Fixpoint pad (width : nat) (n : N) : string :=
  match width with
  | O => ""
  | S w => pad w (n / 10) +:+ String (digit_char n) ""
  end.

Definition isoYear (y : Z) : string :=
  if (0 <=? y) && (y <=? 9999) then pad 4 (Z.to_N y)
  else String (if y <? 0 then "-"%char else "+"%char) (pad 6 (Z.to_N (Z.abs y))).

(** The date part of the ISO string. *)
Definition isoDate (t : Z) : string :=
  isoYear (YearFromTime t) +:+ "-" +:+ pad 2 (Z.to_N (MonthFromTime t + 1))
    +:+ "-" +:+ pad 2 (Z.to_N (DateFromTime t)).

(** The text of [d.toISOString()] for a valid time value [t]. *)
Definition isoString (t : Z) : string :=
  let w := TimeWithinDay t in
  isoDate t
    +:+ "T" +:+ pad 2 (Z.to_N (w / 3600000))
    +:+ ":" +:+ pad 2 (Z.to_N (w / 60000 mod 60))
    +:+ ":" +:+ pad 2 (Z.to_N (w / 1000 mod 60))
    +:+ "." +:+ pad 3 (Z.to_N (w mod 1000)) +:+ "Z".

Fixpoint all_digits (s : string) : bool :=
  match s with
  | "" => true
  | String c r => is_digit c && all_digits r
  end.

(** A field of exactly [width] digits at the head of [s]. *)
Definition fixed_digits (width : nat) (s : string) : option (N * string) :=
  let d := str_take width s in
  if (String.length d =? width)%nat && all_digits d
  then Some (digits_value d, str_drop width s)
  else None.

(** The year of the date-time string format: four digits, or a sign
    and six digits (minus zero excluded). *)
Definition isoYearField (s : string) : option (Z * string) :=
  match s with
  | String "+" r =>
      '(y, rest) ← fixed_digits 6 r; Some (Z.of_N y, rest)
  | String "-" r =>
      '(y, rest) ← fixed_digits 6 r;
      if (y =? 0)%N then None else Some (- Z.of_N y, rest)
  | _ => '(y, rest) ← fixed_digits 4 s; Some (Z.of_N y, rest)
  end.

(** The time of day [HH:mm:ss.sssZ] of the string [toISOString]
    produces, in milliseconds. *)
Definition isoTimeOfDay (s : string) : option Z :=
  '(h, r) ← fixed_digits 2 s;
  match r with
  | String ":" r1 =>
      '(mi, r2) ← fixed_digits 2 r1;
      match r2 with
      | String ":" r3 =>
          '(sec, r4) ← fixed_digits 2 r3;
          match r4 with
          | String "." r5 =>
              '(ms, r6) ← fixed_digits 3 r5;
              match r6 with
              | "Z" =>
                  if ((h <=? 23) && (mi <=? 59) && (sec <=? 59))%N
                  then Some (Z.of_N h * 3600000 + Z.of_N mi * 60000
                             + Z.of_N sec * 1000 + Z.of_N ms)
                  else None
              | _ => None
              end
          | _ => None
          end
      | _ => None
      end
  | _ => None
  end.

(** The date-only forms YYYY, YYYY-MM and YYYY-MM-DD, and the full UTC
    form YYYY-MM-DDTHH:mm:ss.sssZ: year, month and day of month as
    written, and the milliseconds into the day. *)
Definition isoFields (s : string) : option (Z * Z * Z * Z) :=
  '(y, r) ← isoYearField s;
  match r with
  | "" => Some (y, 1, 1, 0)
  | String "-" r1 =>
      '(m, r2) ← fixed_digits 2 r1;
      match r2 with
      | "" => Some (y, Z.of_N m, 1, 0)
      | String "-" r3 =>
          '(d, r4) ← fixed_digits 2 r3;
          match r4 with
          | "" => Some (y, Z.of_N m, Z.of_N d, 0)
          | String "T" r5 =>
              w ← isoTimeOfDay r5; Some (y, Z.of_N m, Z.of_N d, w)
          | _ => None
          end
      | _ => None
      end
  | _ => None
  end.

Definition legalDate (y m d : Z) : bool :=
  (1 <=? m) && (m <=? 12) && (1 <=? d) && (d <=? daysInMonth y (m - 1)).

(** ** Transactions (transaction.service.ts, lines 3-9) *)

Inductive TransactionType := savings | spend.

Global Instance TransactionType_eq_dec : EqDecision TransactionType.
Proof. solve_decision. Defined.

Definition typeString (ty : TransactionType) : string :=
  match ty with savings => "savings" | spend => "spend" end.

(** [amount] is declared a number; a record read back from storage
    carries [None], JSON's null, where a non-finite amount was written. *)
Record Transaction := mkTransaction {
  id : string;
  date : option Z;
  amount : option JSNumber;
  type : TransactionType;
  description : option string
}.

Global Instance Transaction_eq_dec : EqDecision Transaction.
Proof. solve_decision. Defined.

(** The date property of a stored object: not there, null, or a
    text.  A date of another JSON type is outside the model. *)
Inductive JsonDate :=
| NoDate
| NullDate
| DateText (text : string).

(** An object of the stored JSON array, with the properties of a
    transaction: the date is as above, an absent description is an
    absent property. *)
Record JsonTransaction := mkJson {
  j_id : string;
  j_date : JsonDate;
  j_amount : option JSNumber;
  j_type : TransactionType;
  j_description : option string
}.

(** [JSON.stringify] of one transaction: [Date.prototype.toJSON] is the
    ISO string of a valid date and null otherwise, and a number that is
    not finite is written as null. *)
Definition toJSON (t : Transaction) : JsonTransaction :=
  {| j_id := id t;
     j_date := match date t with
               | Some time => DateText (isoString time)
               | None => NullDate
               end;
     j_amount :=
       match amount t with
       | Some x => if is_finite x then Some x else None
       | None => None
       end;
     j_type := type t;
     j_description := description t |}.

(** ** The storage slot, and the monad of the service

    The text held under [storageKey] is one of: the empty string; a
    non-empty text that [JSON.parse] rejects; the JSON text of a value
    that is not an array (reading its [map] property fails); the JSON
    text of an array.  An element of the array is null or an object
    with the properties of a transaction; elements of another shape,
    on none of which the read throws, are outside the model. *)
Inductive JsonElement :=
| NullElement
| ObjectElement (j : JsonTransaction).

Inductive Payload :=
| EmptyText
| Malformed (message : string)
| NotAnArray (message : string)
| Records (l : list JsonElement).

(** [None]: nothing is stored under the key. *)
Definition Storage : Type := option Payload.


Inductive Error :=
| SyntaxError (message : string)
| TypeError (message : string)
| RangeError (message : string)
| QuotaExceededError (message : string).

Definition errorMessage (e : Error) : string :=
  match e with
  | SyntaxError m | TypeError m | RangeError m | QuotaExceededError m => m
  end.

Inductive Outcome (A : Type) :=
| Return (a : A)
| Throw (e : Error).
Arguments Return {A} a.
Arguments Throw {A} e.

Definition throws {A} (o : Outcome A) : bool :=
  match o with Throw _ => true | Return _ => false end.

Definition M (A : Type) : Type := Storage → Outcome A * Storage.

Definition ret {A} (a : A) : M A := λ st, (Return a, st).

Definition bind {A B} (c : M A) (k : A → M B) : M B :=
  λ st, match c st with
        | (Return a, st') => k a st'
        | (Throw e, st') => (Throw e, st')
        end.

Definition throw {A} (e : Error) : M A := λ st, (Throw e, st).

Definition tryCatch {A} (body : M A) (handler : Error → M A) : M A :=
  λ st, match body st with
        | (Return a, st') => (Return a, st')
        | (Throw e, st') => handler e st'
        end.

Notation "x <- c ;; k" := (bind c (λ x, k))
  (at level 100, c at next level, right associativity).
Notation "c ;;; k" := (bind c (λ _, k))
  (at level 100, right associativity).

(** [localStorage.getItem(storageKey)] and [removeItem]. *)
Definition getItem : M (option Payload) := λ st, (Return st, st).
Definition removeItem : M unit := λ _, (Return tt, None).

(** The exception of a write that the storage quota refuses. *)
Definition quotaExceeded : Error :=
  QuotaExceededError "The quota has been exceeded.".

(** [JSON.stringify(transactions)], as the text written to the slot. *)
Definition JSON_stringify (l : list Transaction) : Payload :=
  Records ((λ t, ObjectElement (toJSON t)) <$> l).

(** [description?.trim() || undefined] *)
Definition trimmedOrUndefined (d : option string) : option string :=
  match d with
  | Some s => if truthy_string (trim s) then Some (trim s) else None
  | None => None
  end.

(** The comparator of the sort is [a.date.getTime() - b.date.getTime()]:
    [a] goes after [b] when it is positive; a NaN counts as zero. *)
Definition sortsAfter (a b : Transaction) : bool :=
  match date a, date b with
  | Some x, Some y => y <? x
  | _, _ => false
  end.

Fixpoint insertByDate (a : Transaction) (l : list Transaction)
  : list Transaction :=
  match l with
  | [] => [a]
  | b :: r => if sortsAfter a b then b :: insertByDate a r else a :: l
  end.

(** [l.sort((a, b) => a.date.getTime() - b.date.getTime())].  The sort
    of the language is stable, which fixes its result when all dates
    are valid; it is modelled by a stable insertion sort. *)
Definition sortByDate (l : list Transaction) : list Transaction :=
  foldr insertByDate [] l.

Record ImportResult := mkResult {
  success : bool;
  message : string;
  count : nat
}.

(** The form state of the component that [addSavings] and [addSpend]
    use, and the list it displays.  The page number, the page size and
    the theme are kept apart from it, further down. *)
Record Component := mkComponent {
  savingsAmount : option JSNumber;
  savingsDescription : string;
  savingsDate : string;
  spendAmount : option JSNumber;
  spendDescription : string;
  spendDate : string;
  transactions : list Transaction
}.

(** Truthiness of a [number | null]. *)
Definition truthy_number (x : option JSNumber) : bool :=
  match x with
  | None | Some NaN | Some Zero => false
  | Some _ => true
  end.

(** The digits of a finite number. *)
Definition significant (d : string) : Prop :=
  all_digits d = true ∧ d ≠ ""
  ∧ strip_leading_zeros d = d ∧ strip_trailing_zeros d = d.

(** A tail that continues neither the integer nor the fraction digits. *)
Definition endsDigits (tail : string) : Prop :=
  match tail with
  | String c _ => is_digit c = false ∧ c ≠ "."%char
  | "" => True
  end.

(** A text without white space. *)
Fixpoint no_ws (s : string) : bool :=
  match s with
  | "" => true
  | String c r => negb (is_ws c) && no_ws r
  end.

(** The time values a [Date] can hold. *)
Definition validTime (t : Z) : Prop := Z.abs t <= maxTime.

(** Characters that exportToCSV leaves unquoted and that trim leaves in
    place: no white space, comma or double quote. *)
Definition cellChar (c : ascii) : bool :=
  negb (is_ws c) && negb (ascii_eqb c comma) && negb (ascii_eqb c dquote).

Fixpoint cellText (s : string) : bool :=
  match s with
  | "" => true
  | String c r => cellChar c && cellText r
  end.

(** A text without comma, double quote or line feed. *)
Definition plain (s : string) : bool :=
  negb (includes comma s) && negb (includes dquote s)
  && negb (includes newline s).

(** The text of a cell without its double quotes. *)
Fixpoint without_quotes (s : string) : string :=
  match s with
  | "" => ""
  | String c r =>
      if ascii_eqb c dquote then without_quotes r
      else String c (without_quotes r)
  end.

(** A line that is not blank and has no line feed in it. *)
Definition textLine (s : string) : Prop :=
  includes newline s = false ∧ truthy_string (trim s) = true.

(** ** The list view of the component (app.component.ts, lines 309-381)

    The pagination state is the list [transactions], the page size
    [transactionLimit] and the page number [currentPage].  The page
    size is a positive integer, as each of the [limitOptions] is; page
    numbers are integers.  A method that assigns [currentPage] returns
    its new value. *)

Definition limitOptions : list positive := [5; 10; 20; 30]%positive.

(** [Math.ceil(a / b)] for an integer [a] and a positive integer [b]. *)
Definition ceilDiv (a : Z) (b : positive) : Z := - (- a / Z.pos b).

(** The integers from [first] to [last], in the order in which the
    loop [for (let i = first; i <= last; i++)] visits them. *)
Definition fromTo (first last : Z) : list Z := seqZ first (last - first + 1).

(** [l.slice(start, final)]: a negative index counts from the end, and
    both indices are cut to the length of the list. *)
Definition Array_slice {A} (l : list A) (start final : Z) : list A :=
  let len := Z.of_nat (length l) in
  let k := if start <? 0 then Z.max (len + start) 0 else Z.min start len in
  let e := if final <? 0 then Z.max (len + final) 0 else Z.min final len in
  take (Z.to_nat (e - k)) (drop (Z.to_nat k) l).

(** getTotalPages (lines 317-320): a quotient of zero is falsy and
    gives 1. *)
Definition getTotalPages (transactions : list Transaction)
    (transactionLimit : positive) : Z :=
  let pages := ceilDiv (Z.of_nat (length transactions)) transactionLimit in
  if pages =? 0 then 1 else pages.

(** getDisplayedTransactions (lines 309-315) *)
Definition getDisplayedTransactions (transactions : list Transaction)
    (transactionLimit : positive) (currentPage : Z) : list Transaction :=
  let reversed := reverse transactions in
  let limit := Z.pos transactionLimit in
  let startIndex := (currentPage - 1) * limit in
  let endIndex := startIndex + limit in
  Array_slice reversed startIndex endIndex.

(** hasMoreTransactions (lines 322-324) *)
Definition hasMoreTransactions (transactions : list Transaction)
    (transactionLimit : positive) : bool :=
  Z.pos transactionLimit <? Z.of_nat (length transactions).

(** goToPage (lines 326-334) *)
Definition goToPage (transactions : list Transaction)
    (transactionLimit : positive) (page currentPage : Z) : Z :=
  let totalPages := getTotalPages transactions transactionLimit in
  if (1 <=? page) && (page <=? totalPages) then page
  else if 0 <? totalPages then totalPages
  else currentPage.

(** nextPage (lines 336-340) *)
Definition nextPage (transactions : list Transaction)
    (transactionLimit : positive) (currentPage : Z) : Z :=
  if currentPage <? getTotalPages transactions transactionLimit
  then currentPage + 1 else currentPage.

(** previousPage (lines 342-346) *)
Definition previousPage (currentPage : Z) : Z :=
  if 1 <? currentPage then currentPage - 1 else currentPage.

(** onLimitChange (lines 348-353): the new page size and page number. *)
Definition onLimitChange (newLimit : positive) : positive * Z := (newLimit, 1).

(** getPageNumbers (lines 355-381) *)
Definition getPageNumbers (transactions : list Transaction)
    (transactionLimit : positive) (currentPage : Z) : list Z :=
  let totalPages := getTotalPages transactions transactionLimit in
  let maxVisible := 5 in
  if totalPages <=? maxVisible then fromTo 1 totalPages
  else
    let start := Z.max 1 (currentPage - 2) in
    let end_ := Z.min totalPages (start + maxVisible - 1) in
    let start :=
      if end_ - start <? maxVisible - 1 then Z.max 1 (end_ - maxVisible + 1)
      else start in
    fromTo start end_.

(** The page number that loadTransactions leaves (lines 76-82), given
    the list it has just read. *)
Definition loadTransactions_page (transactions : list Transaction)
    (transactionLimit : positive) (currentPage : Z) : Z :=
  let totalPages := getTotalPages transactions transactionLimit in
  if (totalPages <? currentPage) && (0 <? totalPages) then totalPages
  else if currentPage <? 1 then 1
  else currentPage.

(** [currentPage] is the number of an existing page. *)
Definition onPage (transactions : list Transaction)
    (transactionLimit : positive) (currentPage : Z) : Prop :=
  1 <= currentPage <= getTotalPages transactions transactionLimit.

(** ** The theme of the component (app.component.ts, lines 42-68)

    [darkMode] is the flag of the component, [savedTheme] the text
    stored under the key savings-app-theme, and [bodyDark] tells
    whether the document body carries the class dark-mode.  The
    redrawing of the chart after a toggle is left out. *)
Record Theme := mkTheme {
  darkMode : bool;
  savedTheme : option string;
  bodyDark : bool
}.

(** applyTheme (lines 62-68) *)
Definition applyTheme (s : Theme) : Theme :=
  if darkMode s
  then {| darkMode := darkMode s; savedTheme := savedTheme s; bodyDark := true |}
  else {| darkMode := darkMode s; savedTheme := savedTheme s; bodyDark := false |}.

(** loadTheme (lines 42-50) *)
Definition loadTheme (s : Theme) : Theme :=
  let saved := savedTheme s in
  applyTheme
    (if bool_decide (saved = Some "dark")
     then {| darkMode := true; savedTheme := saved; bodyDark := bodyDark s |}
     else {| darkMode := false; savedTheme := saved; bodyDark := bodyDark s |}).

(** toggleDarkMode (lines 52-60).  [themeAccepts] tells whether the
    storage takes the text; a refused write throws after the flag and
    the class have changed. *)
Definition toggleDarkMode (themeAccepts : string → bool) (s : Theme)
  : Outcome unit * Theme :=
  let s1 :=
    applyTheme {| darkMode := negb (darkMode s);
                  savedTheme := savedTheme s;
                  bodyDark := bodyDark s |} in
  let text := if darkMode s1 then "dark" else "light" in
  if themeAccepts text
  then (Return tt, {| darkMode := darkMode s1;
                      savedTheme := Some text;
                      bodyDark := bodyDark s1 |})
  else (Throw quotaExceeded, s1).

(** ** Sample inputs *)

Definition lines (l : list string) : string := join (String newline "") l.

(** Five data rows: two amounts that do not parse, one type that is
    neither savings nor spend, two good rows. *)
Definition fiveRows : string :=
  lines [ "Date,Amount,Type,Description";
          "2024-01-15,100.50,savings,Monthly deposit";
          "2024-01-16,abc,savings,Bonus";
          "2024-01-17,12,transfer,Moved";
          "2024-01-18,,spend,Lunch";
          "2024-01-20,25.00,spend,Groceries" ].

(** One data row whose amount is the literal Infinity. *)
Definition infiniteRow : string :=
  lines [ "Date,Amount,Type,Description";
          "2024-01-15,Infinity,savings,Windfall" ].

(** Two rows dated before 2024. *)
Definition earlyRows : string :=
  lines [ "Date,Amount,Type,Description";
          "2023-03-02,7,spend,Coffee";
          "2023-03-01,40,savings,Refund" ].

(** Two transactions as the service holds them in memory. *)
Definition twoTransactions : list Transaction :=
  [ {| id := "1718000000000";
       date := Some 1718000000000;
       amount := Some (Finite false "125" 2);
       type := spend;
       description := Some "Bus pass" |};
    {| id := "1717000000000";
       date := Some 1717000000000;
       amount := Some (Finite false "3" 3);
       type := savings;
       description := None |} ].

(** A form filled in with an amount of 100, a description and the date
    2024-01-15. *)
Definition filledForm : Component :=
  {| savingsAmount := Some (Finite false "1" 3);
     savingsDescription := " June bonus ";
     savingsDate := "2024-01-15";
     spendAmount := None;
     spendDescription := "";
     spendDate := "";
     transactions := [] |}.

(** A store holding one transaction whose description has a comma and
    a double quote. *)
Definition quotedStore : Storage :=
  Some (Records
          [ ObjectElement
              {| j_id := "1718000000000";
                 j_date := DateText "2024-01-15T09:30:00.000Z";
                 j_amount := Some (Finite false "5" 1);
                 j_type := spend;
                 j_description := Some ("a,b" +:+ String dquote "c") |} ]).

(** Twelve transactions: three pages of five rows. *)
Definition twelveTransactions : list Transaction :=
  mjoin (replicate 6 twoTransactions).

(** A spend form filled in with an amount of 5 and a description. *)
Definition spendForm : Component :=
  {| savingsAmount := None;
     savingsDescription := "";
     savingsDate := "2024-06-10";
     spendAmount := Some (Finite false "5" 1);
     spendDescription := "Bus pass ";
     spendDate := "2024-01-15";
     transactions := [] |}.

(** A header line and a data row. *)
Definition coffeeText : list string :=
  [ "Date,Amount,Type,Description"; "2023-03-02,7,spend,Coffee" ].

(** Two data rows, the first dated as the row of [coffeeText]. *)
Definition teaRows : string :=
  lines [ "Date,Amount,Type,Description";
          "2023-03-02,9,spend,Tea";
          "2023-03-05,4,spend,Bread" ].

(** A host without any fallback date format. *)
Definition isoOnly : string → option Z := λ _, None.

(** A storage without quota. *)
Definition unlimited : Payload → bool := λ _, true.

Section Service.

(** What [new Date(text)] yields on a text that is not in one of the
    forms of [isoFields], or that names a day its month does not have:
    the language leaves this to the host. *)
Variable hostDateParse : string → option Z.

(** Whether the storage takes a text: [setItem] throws, and leaves the
    slot as it is, when the quota of the host is exceeded. *)
Variable storageAccepts : Payload → bool.

(** [localStorage.setItem(storageKey, text)] *)
Definition setItem (p : Payload) : M unit :=
  λ st, if storageAccepts p then (Return tt, Some p)
        else (Throw quotaExceeded, st).

(** [new Date(s).getTime()] *)
Definition Date_parse (s : string) : option Z :=
  match isoFields s with
  | Some (y, m, d, w) =>
      if legalDate y m d
      then TimeClip (MakeDay y (m - 1) d * msPerDay + w)
      else hostDateParse s ≫= TimeClip
  | None => hostDateParse s ≫= TimeClip
  end.

(** [{...t, date: new Date(t.date)}] for an object [t]:
    [new Date(undefined)] is an invalid date, [new Date(null)] is the
    epoch. *)
Definition revive (t : JsonTransaction) : Transaction :=
  {| id := j_id t;
     date := match j_date t with
             | DateText s => Date_parse s
             | NullDate => Some 0
             | NoDate => None
             end;
     amount := j_amount t;
     type := j_type t;
     description := j_description t |}.

(** The exception of reading the date of null. *)
Definition nullElementError : Error :=
  TypeError "Cannot read properties of null (reading 'date')".

(** The callback of the [map] of getTransactions (lines 22-25). *)
Definition reviveElement (e : JsonElement) : Outcome Transaction :=
  match e with
  | NullElement => Throw nullElementError
  | ObjectElement t => Return (revive t)
  end.

(** [l.map(f)] for a callback that can throw: the elements are visited
    in order, up to the first one on which [f] throws. *)
Fixpoint mapOutcome {A B} (f : A → Outcome B) (l : list A)
  : Outcome (list B) :=
  match l with
  | [] => Return []
  | x :: r =>
      match f x with
      | Throw e => Throw e
      | Return y =>
          match mapOutcome f r with
          | Throw e => Throw e
          | Return ys => Return (y :: ys)
          end
      end
  end.

(** getTransactions (lines 17-26) *)
Definition getTransactions : M (list Transaction) :=
  stored <- getItem ;;
  match stored with
  | None | Some EmptyText => ret []
  | Some (Malformed msg) => throw (SyntaxError msg)
  | Some (NotAnArray msg) => throw (TypeError msg)
  | Some (Records l) => λ st, (mapOutcome reviveElement l, st)
  end.

(** addTransaction (lines 28-39).  [idNow] and [dateNow] are the clock
    readings of [Date.now()] and of [new Date()].  The method has three
    parameters. *)
Definition addTransaction (idNow dateNow : Z) (amount : JSNumber)
    (type : TransactionType) (description : option string) : M unit :=
  transactions <- getTransactions ;;
  let newTransaction :=
    {| id := show_Z idNow;
       date := TimeClip dateNow;
       amount := Some amount;
       type := type;
       description := trimmedOrUndefined description |} in
  setItem (JSON_stringify (transactions ++ [newTransaction])).

(** clearTransactions (lines 41-43) *)
Definition clearTransactions : M unit := removeItem.

(** One row of exportToCSV (lines 48-53). [toISOString] throws on an
    invalid date, and [toString] cannot be read off a null amount. *)
Definition exportRow (t : Transaction) : Outcome (list string) :=
  match date t with
  | None => Throw (RangeError "Invalid time value")
  | Some time =>
      match amount t with
      | None =>
          Throw (TypeError "Cannot read properties of null (reading 'toString')")
      | Some x =>
          Return [ default "" (head (split "T" (isoString time)));
                   Number_toString x;
                   typeString (type t);
                   default "" (description t) ]
      end
  end.

Fixpoint exportRows (l : list Transaction) : Outcome (list (list string)) :=
  match l with
  | [] => Return []
  | t :: r =>
      match exportRow t with
      | Throw e => Throw e
      | Return row =>
          match exportRows r with
          | Throw e => Throw e
          | Return rows => Return (row :: rows)
          end
      end
  end.

Definition lift {A} (o : Outcome A) : M A := λ st, (o, st).

(** exportToCSV (lines 45-67) *)
Definition exportToCSV : M string :=
  transactions <- getTransactions ;;
  let headers := ["Date"; "Amount"; "Type"; "Description"] in
  rows <- lift (exportRows transactions) ;;
  ret (join (String newline "")
         (join "," headers
          :: ((λ row, join "," (escapeCell <$> row)) <$> rows))).

(** The body of the loop of importFromCSV up to the construction of the
    transaction (lines 86-107), on the trimmed line: [None] when the
    row is skipped. *)
Definition rowTransaction (i : nat) (line : string) : option Transaction :=
  let columns := parseCSVLine line in
  if (length columns <? 3)%nat then None
  else
    let dateStr := default "" (columns !! 0%nat) in
    let amountStr := default "" (columns !! 1%nat) in
    let typeStr := default "" (columns !! 2%nat) in
    let descriptionStr := columns !! 3%nat in
    let date := Date_parse dateStr in
    let amount := parseFloat amountStr in
    let type := trim (toLowerCase typeStr) in
    let description := trimmedOrUndefined descriptionStr in
    match date with
    | None => None
    | Some time =>
        if isNaN amount then None
        else
          let build ty :=
            Some {| id := show_Z time +:+ "-" +:+ show_N (N.of_nat i);
                    date := date;
                    amount := Some amount;
                    type := ty;
                    description := description |} in
          if bool_decide (type = "savings") then build savings
          else if bool_decide (type = "spend") then build spend
          else None
    end.

(** The loop of importFromCSV (lines 82-114), from row [i] on. *)
Fixpoint importRows (i : nat) (dataLines : list string)
    (transactions : list Transaction) (existingIds : gset string)
  : list Transaction :=
  match dataLines with
  | [] => transactions
  | dataLine :: rest =>
      let line := trim dataLine in
      if negb (truthy_string line) then
        importRows (S i) rest transactions existingIds
      else
        match rowTransaction i line with
        | None => importRows (S i) rest transactions existingIds
        | Some transaction =>
            if bool_decide (id transaction ∈ existingIds) then
              importRows (S i) rest transactions existingIds
            else
              importRows (S i) rest (transactions ++ [transaction])
                         (existingIds ∪ {[ id transaction ]})
        end
  end.

(** [csvContent.split(newline).filter(line => line.trim())] *)
Definition csvLines (csvContent : string) : list string :=
  filter (λ line, truthy_string (trim line) = true) (split newline csvContent).

(** importFromCSV (lines 69-139) *)
Definition importFromCSV (csvContent : string) : M ImportResult :=
  tryCatch
    (let lines := csvLines csvContent in
     if (length lines <? 2)%nat then
       ret {| success := false;
              message := "CSV file must have at least a header and one data row";
              count := 0 |}
     else
       let dataLines := drop 1 lines in
       existingTransactions <- getTransactions ;;
       let existingIds : gset string :=
         list_to_set (id <$> existingTransactions) in
       let transactions := importRows 0 dataLines [] existingIds in
       if (length transactions =? 0)%nat then
         ret {| success := false;
                message := "No valid transactions found in CSV file";
                count := 0 |}
       else
         let allTransactions :=
           sortByDate (existingTransactions ++ transactions) in
         setItem (JSON_stringify allTransactions) ;;;
         ret {| success := true;
                message := "Successfully imported "
                           +:+ show_N (N.of_nat (length transactions))
                           +:+ " transaction(s)";
                count := length transactions |})
    (λ error,
       ret {| success := false;
              message := "Error importing CSV: " +:+ errorMessage error;
              count := 0 |}).

(** A call with four arguments of the three-parameter method: the
    fourth argument is evaluated and not used. *)
Definition addTransaction_4 (idNow dateNow : Z) (amount : JSNumber)
    (type : TransactionType) (description : option string)
    (date : option Z) : M unit :=
  addTransaction idNow dateNow amount type description.

(** The reload of the list in loadTransactions (app.component.ts,
    line 75). *)
Definition loadTransactions (c : Component) : M Component :=
  l <- getTransactions ;;
  ret {| savingsAmount := savingsAmount c;
         savingsDescription := savingsDescription c;
         savingsDate := savingsDate c;
         spendAmount := spendAmount c;
         spendDescription := spendDescription c;
         spendDate := spendDate c;
         transactions := l |}.

(** addSavings (app.component.ts, lines 88-98). [formNow] is the clock
    reading of the [new Date()] of the form handler. *)
Definition addSavings (formNow idNow dateNow : Z) (c : Component)
  : M Component :=
  match savingsAmount c with
  | Some amount =>
      if truthy_number (Some amount) then
        let date :=
          if truthy_string (savingsDate c) then Date_parse (savingsDate c)
          else TimeClip formNow in
        addTransaction_4 idNow dateNow amount savings
                         (Some (savingsDescription c)) date ;;;
        loadTransactions
          {| savingsAmount := Some Zero;
             savingsDescription := "";
             savingsDate := savingsDate c;
             spendAmount := spendAmount c;
             spendDescription := spendDescription c;
             spendDate := spendDate c;
             transactions := transactions c |}
      else ret c
  | None => ret c
  end.

(** addSpend (app.component.ts, lines 100-110) *)
Definition addSpend (formNow idNow dateNow : Z) (c : Component)
  : M Component :=
  match spendAmount c with
  | Some amount =>
      if truthy_number (Some amount) then
        let date :=
          if truthy_string (spendDate c) then Date_parse (spendDate c)
          else TimeClip formNow in
        addTransaction_4 idNow dateNow amount spend
                         (Some (spendDescription c)) date ;;;
        loadTransactions
          {| savingsAmount := savingsAmount c;
             savingsDescription := savingsDescription c;
             savingsDate := savingsDate c;
             spendAmount := Some Zero;
             spendDescription := "";
             spendDate := spendDate c;
             transactions := transactions c |}
      else ret c
  | None => ret c
  end.

(** The rows that one import accepts, given the transactions already
    stored, and the results of importFromCSV. *)
Definition acceptedRows (csvContent : string) (existing : list Transaction)
  : list Transaction :=
  importRows 0 (drop 1 (csvLines csvContent)) []
             (list_to_set (id <$> existing)).

Definition tooFewLines : ImportResult :=
  {| success := false;
     message := "CSV file must have at least a header and one data row";
     count := 0 |}.

Definition noValidRows : ImportResult :=
  {| success := false;
     message := "No valid transactions found in CSV file";
     count := 0 |}.

Definition importError (e : Error) : ImportResult :=
  {| success := false;
     message := "Error importing CSV: " +:+ errorMessage e;
     count := 0 |}.

Definition imported (n : nat) : ImportResult :=
  {| success := true;
     message := "Successfully imported " +:+ show_N (N.of_nat n)
                +:+ " transaction(s)";
     count := n |}.

(** The five ways [importFromCSV] ends. *)
Inductive ImportCase (csv : string) (st : Storage)
  : ImportResult → Storage → Prop :=
| FewLines :
    (length (csvLines csv) < 2)%nat →
    ImportCase csv st tooFewLines st
| ReadError e :
    (2 ≤ length (csvLines csv))%nat →
    fst (getTransactions st) = Throw e →
    ImportCase csv st (importError e) st
| NoRows existing :
    (2 ≤ length (csvLines csv))%nat →
    fst (getTransactions st) = Return existing →
    acceptedRows csv existing = [] →
    ImportCase csv st noValidRows st
| WriteRefused existing :
    (2 ≤ length (csvLines csv))%nat →
    fst (getTransactions st) = Return existing →
    acceptedRows csv existing ≠ [] →
    storageAccepts
      (JSON_stringify (sortByDate (existing ++ acceptedRows csv existing)))
    = false →
    ImportCase csv st (importError quotaExceeded) st
| Imported existing :
    (2 ≤ length (csvLines csv))%nat →
    fst (getTransactions st) = Return existing →
    acceptedRows csv existing ≠ [] →
    storageAccepts
      (JSON_stringify (sortByDate (existing ++ acceptedRows csv existing)))
    = true →
    ImportCase csv st (imported (length (acceptedRows csv existing)))
      (Some (JSON_stringify
               (sortByDate (existing ++ acceptedRows csv existing)))).

(** The rows of [dataLines] that pass the checks of the loop, numbered
    from [i], before duplicate suppression. *)
Fixpoint validRowsFrom (i : nat) (dataLines : list string)
  : list Transaction :=
  match dataLines with
  | [] => []
  | dataLine :: rest =>
      match rowTransaction i (trim dataLine) with
      | Some transaction => transaction :: validRowsFrom (S i) rest
      | None => validRowsFrom (S i) rest
      end
  end.

Definition validRows (csvContent : string) : list Transaction :=
  validRowsFrom 0 (drop 1 (csvLines csvContent)).

(** The ids of the stored transactions; none when the read fails. *)
Definition storedIds (st : Storage) : list string :=
  match fst (getTransactions st) with
  | Return l => id <$> l
  | Throw _ => []
  end.

(** A number of the language: the digits of a finite value are
    significant, and its magnitude is below the overflow threshold. *)
Definition wfNumber (x : JSNumber) : bool :=
  match x with
  | Finite _ d n =>
      all_digits d && negb (bool_decide (d = ""))
      && bool_decide (strip_leading_zeros d = d)
      && bool_decide (strip_trailing_zeros d = d)
      && negb (overflows d n)
  | _ => true
  end.

(** The stores that the operations of the service produce, starting
    with nothing stored. *)
Inductive reachable : Storage → Prop :=
| reach_empty : reachable None
| reach_append st idNow dateNow amount type description :
    reachable st → wfNumber amount = true →
    reachable (snd (addTransaction idNow dateNow amount type description st))
| reach_import st csvContent :
    reachable st → reachable (snd (importFromCSV csvContent st))
| reach_clear st :
    reachable st → reachable (snd (clearTransactions st)).

(** [a] is dated no later than [b], both dates being valid. *)
Definition notLater (a b : Transaction) : Prop :=
  ∃ x y, date a = Some x ∧ date b = Some y ∧ x <= y.

(** [a] is dated strictly before [b], both dates being valid. *)
Definition earlier (a b : Transaction) : Prop :=
  ∃ x y, date a = Some x ∧ date b = Some y ∧ x < y.

Definition validDate (t : Transaction) : Prop :=
  ∃ x, date t = Some x ∧ validTime x.

(** Well-formed stored records: a date is null or the ISO string of a
    time value, an amount is null or a finite number. *)
Definition wfJson (j : JsonTransaction) : Prop :=
  match j_date j with
  | DateText s => ∃ t, validTime t ∧ s = isoString t
  | NullDate => True
  | NoDate => False
  end
  ∧ match j_amount j with
    | Some x => is_finite x = true ∧ wfNumber x = true
    | None => True
    end.

Definition wfStore (st : Storage) : Prop :=
  match st with
  | None => True
  | Some (Records l) =>
      Forall (λ e, match e with
                   | ObjectElement j => wfJson j
                   | NullElement => False
                   end) l
  | Some _ => False
  end.

(** Well-formed transactions in memory. *)
Definition wfTransaction (t : Transaction) : Prop :=
  match date t with Some x => validTime x | None => True end
  ∧ match amount t with Some x => wfNumber x = true | None => True end.

(** The amount is a finite number, or the null that stands for a
    number that was not. *)
Definition finiteOrNull (t : Transaction) : Prop :=
  match amount t with Some x => is_finite x = true | None => True end.

(** What [getTransactions] returns for a transaction once it has been
    written to the slot. *)
Definition persisted (t : Transaction) : Transaction := revive (toJSON t).

(** The transactions that exportToCSV and a later import carry over: a
    valid date, a finite amount, and a description without comma,
    double quote or line feed. *)
Definition exportable (t : Transaction) : bool :=
  match date t, amount t with
  | Some time, Some x =>
      (Z.abs time <=? maxTime) && is_finite x && wfNumber x
      && plain (default "" (description t))
  | _, _ => false
  end.

(** The date cut down to the start of its day. *)
Definition startOfDay (t : Transaction) : Transaction :=
  {| id := id t;
     date := (λ time, Day time * msPerDay) <$> date t;
     amount := amount t;
     type := type t;
     description := description t |}.

(** Date, amount and type of a transaction. *)
Definition core (t : Transaction) : option Z * option JSNumber * TransactionType :=
  (date t, amount t, type t).

(** The line exportToCSV writes for a transaction with the date [time]
    and the amount [x]. *)
Definition exportLine (time : Z) (x : JSNumber) (ty : TransactionType)
    (text : string) : string :=
  isoDate time +:+ "," +:+ Number_toString x +:+ ","
    +:+ typeString ty +:+ "," +:+ text.

(** The line exportToCSV writes for a transaction that has a date and
    an amount. *)
Definition lineOf (t : Transaction) : string :=
  match date t, amount t with
  | Some time, Some x =>
      exportLine time x (type t) (default "" (description t))
  | _, _ => ""
  end.

Definition headerLine : string := "Date,Amount,Type,Description".

(** What the import makes of an exported transaction. *)
Definition carriedOver (t r : Transaction) : Prop :=
  core r = core (startOfDay t) ∧ validDate r ∧ finiteOrNull r.

(** The callback of onFileSelected (app.component.ts, lines 286-299),
    run on the text of the file once it has been read: the message
    shown in the alert, and the component. *)
Definition onFileSelected (text : string) (c : Component)
  : M (string * Component) :=
  result <- importFromCSV text ;;
  if success result then
    c' <- loadTransactions c ;;
    ret (message result, c')
  else ret (message result, c).

(** clearData (app.component.ts, lines 112-117); [confirmed] is the
    answer given to the confirmation dialog. *)
Definition clearData (confirmed : bool) (c : Component) : M Component :=
  if confirmed then clearTransactions ;;; loadTransactions c
  else ret c.

(** ngOnInit (app.component.ts, lines 33-40), at the clock reading
    [now], a valid time: the theme it leaves, and what the reload of
    the list and the setting of the form dates make of the component.
    The theme is loaded before the list is read. *)
Definition ngOnInit (now : Z) (theme : Theme) (c : Component)
  : Storage → Theme * (Outcome Component * Storage) :=
  λ st,
    (loadTheme theme,
     (c' <- loadTransactions c ;;
      let today := default "" (head (split "T" (isoString now))) in
      ret {| savingsAmount := savingsAmount c';
             savingsDescription := savingsDescription c';
             savingsDate := today;
             spendAmount := spendAmount c';
             spendDescription := spendDescription c';
             spendDate := today;
             transactions := transactions c' |}) st).

(** ** Checks of the host primitives on samples *)

Example parse_quoted_export :
  parseCSVLine (escapeCell ("a,b" +:+ String dquote "c")) = ["a,bc"].
Proof. vm_compute. reflexivity. Qed.

Example parseFloat_ex1 : parseFloat "100.50" = Finite false "1005" 3.
Proof. vm_compute. reflexivity. Qed.

Example parseFloat_ex2 : parseFloat "abc" = NaN.
Proof. vm_compute. reflexivity. Qed.

Example parseFloat_ex3 : parseFloat " -Infinity and beyond" = Infinity true.
Proof. vm_compute. reflexivity. Qed.

Example parseFloat_ex4 : parseFloat "1e999" = Infinity false.
Proof. vm_compute. reflexivity. Qed.

Example parseFloat_ex5 : parseFloat "1.7976931348623157e308" = Finite false "17976931348623157" 309.
Proof. vm_compute. reflexivity. Qed.

Example parseFloat_ex6 : parseFloat "1.7976931348623159e308" = Infinity false.
Proof. vm_compute. reflexivity. Qed.

Example parseFloat_ex7 : parseFloat "0.000" = Zero.
Proof. vm_compute. reflexivity. Qed.

Example parseFloat_ex8 : parseFloat "25.00x" = Finite false "25" 2.
Proof. vm_compute. reflexivity. Qed.

Example toString_ex1 : Number_toString (Finite false "1005" 3) = "100.5".
Proof. vm_compute. reflexivity. Qed.

Example toString_ex2 : Number_toString (Finite true "1" 22) = "-1e+21".
Proof. vm_compute. reflexivity. Qed.

Example toString_ex3 : Number_toString (Finite false "123" (-6)) = "1.23e-7".
Proof. vm_compute. reflexivity. Qed.

Example toString_ex4 : Number_toString (Finite false "123" (-5)) = "0.00000123".
Proof. vm_compute. reflexivity. Qed.

Example toString_ex5 : Number_toString (Finite false "12" 5) = "12000".
Proof. vm_compute. reflexivity. Qed.

Example show_ex : show_Z 1705276800000 = "1705276800000" /\ show_Z (-5) = "-5" /\ show_Z 0 = "0".
Proof. vm_compute. auto. Qed.

Example iso_ex1 : isoString 1705322096789 = "2024-01-15T12:34:56.789Z".
Proof. vm_compute. reflexivity. Qed.

Example iso_ex2 : isoString (-1) = "1969-12-31T23:59:59.999Z".
Proof. vm_compute. reflexivity. Qed.

Example iso_ex3 : isoString maxTime = "+275760-09-13T00:00:00.000Z".
Proof. vm_compute. reflexivity. Qed.

Example iso_ex4 : isoString (- maxTime) = "-271821-04-20T00:00:00.000Z".
Proof. vm_compute. reflexivity. Qed.

Example iso_ex5 : isoString 951782400000 = "2000-02-29T00:00:00.000Z".
Proof. vm_compute. reflexivity. Qed.

Example iso_ex6 : isoFields "2024-01-15" = Some (2024, 1, 15, 0).
Proof. vm_compute. reflexivity. Qed.

Example iso_ex7 : MakeDay 2024 0 15 * msPerDay = 1705276800000.
Proof. vm_compute. reflexivity. Qed.

(** ** Strings *)

Lemma app_String c s t : String c s +:+ t = String c (s +:+ t).
Proof. reflexivity. Qed.

Lemma app_empty_l s : "" +:+ s = s.
Proof. reflexivity. Qed.

Lemma app_empty_r s : s +:+ "" = s.
Proof. induction s as [| c s IH]; [done |]. by rewrite app_String, IH. Qed.

Lemma str_app_assoc s t u : (s +:+ t) +:+ u = s +:+ t +:+ u.
Proof. induction s as [| c s IH]; [done |]. by rewrite !app_String, IH. Qed.

Lemma str_length_app s t :
  String.length (s +:+ t) = (String.length s + String.length t)%nat.
Proof. induction s as [| c s IH]; [done |]. rewrite app_String. simpl. lia. Qed.

Lemma str_take_app s t : str_take (String.length s) (s +:+ t) = s.
Proof. induction s as [| c s IH]; [by destruct t |]. rewrite app_String. simpl. by rewrite IH. Qed.

Lemma str_drop_app s t : str_drop (String.length s) (s +:+ t) = t.
Proof. induction s as [| c s IH]; [by destruct t |]. by rewrite app_String. Qed.

Lemma str_take_drop n s : str_take n s +:+ str_drop n s = s.
Proof.
  revert s. induction n as [| n IH]; intros [| c s]; try done.
  simpl. by rewrite app_String, IH.
Qed.

Lemma str_take_length n s :
  (n ≤ String.length s)%nat → String.length (str_take n s) = n.
Proof.
  revert s. induction n as [| n IH]; intros [| c s] H; simpl in *; try done; try lia.
  rewrite IH; lia.
Qed.

Lemma ascii_eqb_true a b : ascii_eqb a b = true ↔ a = b.
Proof. unfold ascii_eqb. apply bool_decide_eq_true. Qed.

Lemma ascii_eqb_false a b : ascii_eqb a b = false ↔ a ≠ b.
Proof. unfold ascii_eqb. apply bool_decide_eq_false. Qed.

Lemma ascii_eqb_refl a : ascii_eqb a a = true.
Proof. by apply ascii_eqb_true. Qed.

Lemma includes_app c s t : includes c (s +:+ t) = includes c s || includes c t.
Proof.
  induction s as [| x s IH]; [done |].
  rewrite app_String. simpl. by rewrite IH, orb_assoc.
Qed.

(** Splitting at the first occurrence of the separator. *)
Lemma split_app c s t :
  includes c s = false → split c (s +:+ String c t) = s :: split c t.
Proof.
  induction s as [| x s IH]; intros H.
  - rewrite app_empty_l. simpl. by rewrite ascii_eqb_refl.
  - simpl in H. apply orb_false_iff in H as [Hx Hs].
    rewrite app_String. simpl. by rewrite Hx, IH.
Qed.

Lemma split_none c s : includes c s = false → split c s = [s].
Proof.
  induction s as [| x s IH]; intros H; [done |].
  simpl in H. apply orb_false_iff in H as [Hx Hs].
  simpl. by rewrite Hx, IH.
Qed.

Lemma split_join c l :
  l ≠ [] → Forall (λ s, includes c s = false) l →
  split c (join (String c "") l) = l.
Proof.
  intros Hne Hall. induction Hall as [| s l Hs Hl IH]; [done |].
  destruct l as [| s' l'].
  - simpl. by apply split_none.
  - change (join (String c "") (s :: s' :: l'))
      with (s +:+ String c "" +:+ join (String c "") (s' :: l')).
    rewrite app_String, app_empty_l, split_app by done.
    by rewrite IH.
Qed.

(** ** Trimming *)

Lemma trimEnd_no_ws s : no_ws s = true → trimEnd s = s.
Proof.
  induction s as [| c s IH]; [done |]. simpl.
  intros [Hc Hs]%andb_true_iff. rewrite IH by done.
  destruct s; [| done]. by destruct (is_ws c).
Qed.

Lemma trimStart_no_ws s : no_ws s = true → trimStart s = s.
Proof. destruct s as [| c s]; [done |]. simpl. by destruct (is_ws c). Qed.

Lemma trim_no_ws s : no_ws s = true → trim s = s.
Proof. intros H. unfold trim. by rewrite trimEnd_no_ws, trimStart_no_ws. Qed.

(** ** Decimal digits *)

Lemma digit_char_cases (P : N → ascii → Prop) :
  P 0%N "0"%char → P 1%N "1"%char → P 2%N "2"%char → P 3%N "3"%char →
  P 4%N "4"%char → P 5%N "5"%char → P 6%N "6"%char → P 7%N "7"%char →
  P 8%N "8"%char → P 9%N "9"%char →
  ∀ n, P (n mod 10)%N (digit_char n).
Proof.
  intros ?????????? n. unfold digit_char.
  assert (Hlt : (n mod 10 < 10)%N) by (apply N.mod_lt; lia).
  destruct (n mod 10)%N as [| p]; [done |].
  do 4 (destruct p as [p | p |]; try done; try lia).
Qed.

Lemma is_digit_digit_char n : is_digit (digit_char n) = true.
Proof. by apply (digit_char_cases (λ _ c, is_digit c = true)). Qed.

Lemma digit_value_digit_char n : digit_value (digit_char n) = (n mod 10)%N.
Proof. by apply (digit_char_cases (λ d c, digit_value c = d)). Qed.

Lemma all_digits_app s t : all_digits (s +:+ t) = all_digits s && all_digits t.
Proof.
  induction s as [| c s IH]; [done |].
  rewrite app_String. simpl. by rewrite IH, andb_assoc.
Qed.

Lemma digits_value_from_app acc s t :
  digits_value_from acc (s +:+ t)
  = digits_value_from (digits_value_from acc s) t.
Proof.
  revert acc. induction s as [| c s IH]; intros acc; [done |].
  rewrite app_String. simpl. by rewrite IH.
Qed.

Lemma pad_length w n : String.length (pad w n) = w.
Proof.
  revert n. induction w as [| w IH]; intros n; [done |].
  simpl. rewrite str_length_app, IH. simpl. lia.
Qed.

Lemma pad_all_digits w n : all_digits (pad w n) = true.
Proof.
  revert n. induction w as [| w IH]; intros n; [done |].
  simpl. rewrite all_digits_app, IH. simpl. by rewrite is_digit_digit_char.
Qed.

Lemma pad_value w n : digits_value (pad w n) = (n mod 10 ^ N.of_nat w)%N.
Proof.
  unfold digits_value. revert n. induction w as [| w IH]; intros n.
  - simpl. by rewrite N.mod_1_r.
  - simpl pad. rewrite digits_value_from_app, IH. simpl.
    rewrite digit_value_digit_char.
    rewrite Nat2N.inj_succ, N.pow_succ_r by lia.
    rewrite (N.mul_comm 10), N.Div0.mod_mul_r. lia.
Qed.

Lemma str_take_app_len n s t :
  String.length s = n → str_take n (s +:+ t) = s.
Proof. intros <-. apply str_take_app. Qed.

Lemma str_drop_app_len n s t :
  String.length s = n → str_drop n (s +:+ t) = t.
Proof. intros <-. apply str_drop_app. Qed.

Lemma fixed_digits_pad w n r :
  (n < 10 ^ N.of_nat w)%N →
  fixed_digits w (pad w n +:+ r) = Some (n, r).
Proof.
  intros H. unfold fixed_digits.
  pose proof (pad_length w n) as Hl.
  rewrite (str_take_app_len w), (str_drop_app_len w) by done.
  rewrite Hl, Nat.eqb_refl, pad_all_digits.
  simpl. by rewrite pad_value, N.mod_small.
Qed.

(** ** Calendar arithmetic *)

Lemma YearFromDay_spec d :
  DayFromYear (YearFromDay d) <= d < DayFromYear (YearFromDay d + 1).
Proof.
  unfold YearFromDay.
  set (y := 1970 + d * 400 / 146097).
  assert (Hy : 146097 * (y - 1970) <= d * 400 < 146097 * (y - 1969)).
  { subst y. Z.div_mod_to_equations. lia. }
  clearbody y.
  destruct (Z.ltb_spec d (DayFromYear y)) as [Hlt | Hge].
  - replace (y - 1 + 1) with y by lia.
    split; [| assumption].
    unfold DayFromYear in *. Z.div_mod_to_equations. lia.
  - destruct (Z.leb_spec (DayFromYear (y + 1)) d) as [Hle | Hgt].
    + split; [assumption |].
      unfold DayFromYear in *. Z.div_mod_to_equations. lia.
    + lia.
Qed.

Lemma leapDays_cases y : leapDays y = 0 ∨ leapDays y = 1.
Proof. unfold leapDays. destruct (isLeapYear y); auto. Qed.

Lemma DayFromYear_succ y :
  DayFromYear (y + 1) = DayFromYear y + 365 + leapDays y.
Proof.
  unfold leapDays, isLeapYear, DayFromYear.
  destruct (Z.eqb_spec (y mod 4) 0) as [H4 | H4];
    destruct (Z.eqb_spec (y mod 100) 0) as [H100 | H100];
    destruct (Z.eqb_spec (y mod 400) 0) as [H400 | H400]; simpl;
    Z.div_mod_to_equations; lia.
Qed.

Lemma DayWithinYear_range t :
  0 <= DayWithinYear t < 365 + leapDays (YearFromTime t).
Proof.
  unfold DayWithinYear, YearFromTime.
  pose proof (YearFromDay_spec (Day t)) as H.
  rewrite DayFromYear_succ in H. lia.
Qed.

Lemma monthOfDay_range l d :
  (l = 0 ∨ l = 1) → 0 <= d < 365 + l →
  0 <= monthOfDay l d <= 11
  ∧ monthStart l (monthOfDay l d) <= d < monthStart l (monthOfDay l d + 1).
Proof.
  intros Hl Hd. unfold monthOfDay.
  repeat match goal with
         | |- context [ if ?a <? ?b then _ else _ ] =>
             destruct (Z.ltb_spec a b)
         end; simpl in *; destruct Hl; subst; simpl in *; lia.
Qed.

Lemma MonthFromTime_range t : 0 <= MonthFromTime t <= 11.
Proof.
  apply monthOfDay_range;
    [apply leapDays_cases | apply DayWithinYear_range].
Qed.

Lemma DateFromTime_range t :
  1 <= DateFromTime t <= daysInMonth (YearFromTime t) (MonthFromTime t).
Proof.
  unfold DateFromTime, daysInMonth, MonthFromTime.
  pose proof (monthOfDay_range _ _ (leapDays_cases (YearFromTime t))
                (DayWithinYear_range t)) as [_ H].
  lia.
Qed.

Lemma DateFromTime_le_31 t : DateFromTime t <= 31.
Proof.
  pose proof (DateFromTime_range t) as H.
  pose proof (MonthFromTime_range t) as Hm.
  pose proof (leapDays_cases (YearFromTime t)) as Hl.
  unfold daysInMonth in H.
  assert (Hc : MonthFromTime t ∈ [0;1;2;3;4;5;6;7;8;9;10;11]).
  { set_unfold. lia. }
  set_unfold.
  destruct Hc as [Hc|[Hc|[Hc|[Hc|[Hc|[Hc|[Hc|[Hc|[Hc|[Hc|[Hc|[Hc|[]]]]]]]]]]]]];
    rewrite Hc in H; simpl in H; lia.
Qed.

Lemma MakeDay_of_time t :
  MakeDay (YearFromTime t) (MonthFromTime t) (DateFromTime t) = Day t.
Proof. unfold MakeDay, DateFromTime, DayWithinYear. lia. Qed.

Lemma legalDate_of_time t :
  legalDate (YearFromTime t) (MonthFromTime t + 1) (DateFromTime t) = true.
Proof.
  unfold legalDate.
  pose proof (MonthFromTime_range t). pose proof (DateFromTime_range t).
  replace (MonthFromTime t + 1 - 1) with (MonthFromTime t) by lia.
  repeat (apply andb_true_iff; split); lia.
Qed.

Lemma TimeClip_valid t : validTime t → TimeClip t = Some t.
Proof.
  unfold validTime, TimeClip. intros H.
  by destruct (Z.leb_spec (Z.abs t) maxTime); [| lia].
Qed.

Lemma TimeClip_Some t t' : TimeClip t = Some t' → t' = t ∧ validTime t.
Proof.
  unfold validTime, TimeClip.
  destruct (Z.leb_spec (Z.abs t) maxTime); [| done]. by intros [= <-].
Qed.

Lemma YearFromTime_range t :
  validTime t → -271822 <= YearFromTime t <= 275761.
Proof.
  unfold validTime, maxTime, YearFromTime, YearFromDay, Day, msPerDay.
  intros H.
  repeat case_match; Z.div_mod_to_equations; lia.
Qed.

Lemma Day_start_valid t : validTime t → validTime (Day t * msPerDay).
Proof.
  unfold validTime, maxTime, Day, msPerDay. intros H.
  Z.div_mod_to_equations. lia.
Qed.

Lemma time_of_day_parts t :
  let w := TimeWithinDay t in
  0 <= w / 3600000 <= 23
  ∧ 0 <= w / 60000 mod 60 <= 59
  ∧ 0 <= w / 1000 mod 60 <= 59
  ∧ 0 <= w mod 1000 <= 999
  ∧ w / 3600000 * 3600000 + w / 60000 mod 60 * 60000
    + w / 1000 mod 60 * 1000 + w mod 1000 = w
  ∧ Day t * msPerDay + w = t.
Proof.
  unfold TimeWithinDay, Day, msPerDay. simpl.
  Z.div_mod_to_equations. lia.
Qed.

(** ** The ISO form of a date and its parse *)

Lemma isoYearField_digit c s :
  is_digit c = true →
  isoYearField (String c s)
  = '(y, rest) ← fixed_digits 4 (String c s); Some (Z.of_N y, rest).
Proof.
  intros H. destruct c as [[] [] [] [] [] [] [] []]; try done.
Qed.

Lemma all_digits_head s :
  all_digits s = true → s ≠ "" →
  ∃ c s', s = String c s' ∧ is_digit c = true.
Proof.
  destruct s as [| c s']; [done |]. simpl.
  intros [Hc _]%andb_true_iff _. eauto.
Qed.

Local Opaque pad.

Lemma isoYearField_isoYear y r :
  -999999 <= y <= 999999 →
  isoYearField (isoYear y +:+ r) = Some (y, r).
Proof.
  intros Hy. unfold isoYear.
  destruct (Z.leb_spec 0 y) as [H0 | H0];
    [destruct (Z.leb_spec y 9999) as [H1 | H1] |]; simpl.
  - destruct (all_digits_head (pad 4 (Z.to_N y))) as (c & s' & E & Hc).
    { apply pad_all_digits. }
    { intros E. apply (f_equal String.length) in E.
      by rewrite pad_length in E. }
    rewrite E, app_String, isoYearField_digit by done.
    rewrite <- app_String, <- E, fixed_digits_pad by (simpl; lia).
    simpl. by rewrite Z2N.id.
  - destruct (Z.ltb_spec y 0); [lia |].
    rewrite ?app_String; simpl.
    rewrite fixed_digits_pad by (simpl; lia).
    simpl. f_equal. f_equal. lia.
  - destruct (Z.ltb_spec y 0); [| lia].
    rewrite ?app_String; simpl.
    rewrite fixed_digits_pad by (simpl; lia).
    simpl. destruct (N.eqb_spec (Z.to_N (Z.abs y)) 0); [lia |].
    f_equal. f_equal. lia.
Qed.

Lemma isoFields_isoString t :
  validTime t →
  isoFields (isoString t)
  = Some (YearFromTime t, MonthFromTime t + 1, DateFromTime t,
          TimeWithinDay t).
Proof.
  intros Hv. unfold isoFields, isoString, isoDate.
  rewrite !str_app_assoc.
  pose proof (YearFromTime_range t Hv) as Hy.
  pose proof (MonthFromTime_range t) as Hm.
  pose proof (DateFromTime_range t) as Hd.
  pose proof (DateFromTime_le_31 t) as Hd'.
  destruct (time_of_day_parts t) as (Hh & Hmi & Hs & Hms & Hw & _).
  rewrite isoYearField_isoYear by lia. simpl.
  rewrite !app_String, !app_empty_l.
  rewrite fixed_digits_pad by (simpl; lia). simpl.
  rewrite fixed_digits_pad by (simpl; lia). simpl.
  unfold isoTimeOfDay.
  rewrite fixed_digits_pad by (simpl; lia). simpl.
  rewrite fixed_digits_pad by (simpl; lia). simpl.
  rewrite fixed_digits_pad by (simpl; lia). simpl.
  rewrite <- (app_empty_r "Z").
  rewrite fixed_digits_pad by (simpl; lia). simpl.
  rewrite !Z2N.id by lia.
  destruct (N.leb_spec (Z.to_N (TimeWithinDay t `div` 3600000)) 23); [| lia].
  destruct (N.leb_spec (Z.to_N ((TimeWithinDay t `div` 60000) `mod` 60)) 59);
    [| lia].
  destruct (N.leb_spec (Z.to_N ((TimeWithinDay t `div` 1000) `mod` 60)) 59);
    [| lia].
  simpl. by rewrite Hw.
Qed.

Lemma Date_parse_isoString t :
  validTime t → Date_parse (isoString t) = Some t.
Proof.
  intros Hv. unfold Date_parse.
  rewrite isoFields_isoString, legalDate_of_time by done.
  replace (MonthFromTime t + 1 - 1) with (MonthFromTime t) by lia.
  rewrite MakeDay_of_time.
  destruct (time_of_day_parts t) as (_ & _ & _ & _ & _ & ->).
  by apply TimeClip_valid.
Qed.

Lemma all_digits_includes c s :
  is_digit c = false → all_digits s = true → includes c s = false.
Proof.
  intros Hc. induction s as [| x s IH]; [done |]. simpl.
  intros [Hx Hs]%andb_true_iff. rewrite IH by done.
  rewrite orb_false_r. apply ascii_eqb_false. by intros ->; congruence.
Qed.

Lemma isoYear_includes c y :
  is_digit c = false → c ≠ "+"%char → c ≠ "-"%char →
  includes c (isoYear y) = false.
Proof.
  intros Hc Hp Hm. unfold isoYear.
  destruct ((0 <=? y) && (y <=? 9999)).
  - apply all_digits_includes; [done | apply pad_all_digits].
  - simpl. rewrite all_digits_includes by (done || apply pad_all_digits).
    rewrite orb_false_r. apply ascii_eqb_false. by destruct (y <? 0).
Qed.

Lemma isoDate_includes c t :
  is_digit c = false → c ≠ "+"%char → c ≠ "-"%char →
  includes c (isoDate t) = false.
Proof.
  intros Hc Hp Hm. unfold isoDate.
  rewrite !includes_app, isoYear_includes by done.
  rewrite !(all_digits_includes c (pad _ _)) by (done || apply pad_all_digits).
  simpl. rewrite !orb_false_r.
  assert (ascii_eqb "-" c = false) as -> by (by apply ascii_eqb_false).
  done.
Qed.

(** [d.toISOString().split('T')[0]] is the date part. *)
Lemma isoString_date_part t :
  head (split "T" (isoString t)) = Some (isoDate t).
Proof.
  unfold isoString. rewrite app_String, app_empty_l.
  rewrite split_app; [done |]. by apply isoDate_includes.
Qed.

Lemma isoFields_isoDate t :
  validTime t →
  isoFields (isoDate t)
  = Some (YearFromTime t, MonthFromTime t + 1, DateFromTime t, 0).
Proof.
  intros Hv. unfold isoFields, isoDate.
  pose proof (YearFromTime_range t Hv) as Hy.
  pose proof (MonthFromTime_range t) as Hm.
  pose proof (DateFromTime_range t) as Hd.
  pose proof (DateFromTime_le_31 t) as Hd'.
  rewrite isoYearField_isoYear by lia. simpl.
  rewrite ?app_String, ?app_empty_l.
  rewrite fixed_digits_pad by (simpl; lia). simpl.
  rewrite <- (app_empty_r (pad 2 (Z.to_N (DateFromTime t)))).
  rewrite fixed_digits_pad by (simpl; lia). simpl.
  by rewrite !Z2N.id by lia.
Qed.

(** Parsing the exported date gives the start of its day. *)
Lemma Date_parse_isoDate t :
  validTime t → Date_parse (isoDate t) = Some (Day t * msPerDay).
Proof.
  intros Hv. unfold Date_parse.
  rewrite isoFields_isoDate, legalDate_of_time by done.
  replace (MonthFromTime t + 1 - 1) with (MonthFromTime t) by lia.
  rewrite MakeDay_of_time, Z.add_0_r.
  by apply TimeClip_valid, Day_start_valid.
Qed.

(** ** Decimal numerals of unbounded numbers *)

Lemma pos_lt_pow2_size p : (Npos p < 2 ^ N.of_nat (Pos.size_nat p))%N.
Proof.
  induction p as [p IH | p IH |]; simpl Pos.size_nat;
    rewrite ?Nat2N.inj_succ, ?N.pow_succ_r by lia; [| | done]; lia.
Qed.

Lemma N_lt_pow2_size n : (n < 2 ^ N.of_nat (N.size_nat n))%N.
Proof. destruct n as [| p]; [done | apply pos_lt_pow2_size]. Qed.

Lemma show_N_from_spec fuel n acc :
  (n < 2 ^ N.of_nat fuel)%N →
  ∃ ds, show_N_from (S fuel) n acc = ds +:+ acc
        ∧ all_digits ds = true ∧ ds ≠ "" ∧ digits_value ds = n.
Proof.
  revert n acc. induction fuel as [| fuel IH]; intros n acc Hn.
  - assert (n = 0%N) as -> by (simpl in Hn; lia).
    by exists "0".
  - simpl. destruct (N.eqb_spec (n / 10) 0) as [Hz | Hnz].
    + exists (String (digit_char n) ""). repeat split; try done.
      * simpl. by rewrite is_digit_digit_char.
      * unfold digits_value. simpl. rewrite digit_value_digit_char.
        pose proof (N.div_mod n 10). lia.
    + destruct (IH (n / 10)%N (String (digit_char n) acc))
        as (ds & E & Hd & Hne & Hv).
      { rewrite Nat2N.inj_succ, N.pow_succ_r in Hn by lia.
        apply N.Div0.div_lt_upper_bound. lia. }
      exists (ds +:+ String (digit_char n) "").
      simpl in E. rewrite E, str_app_assoc.
      repeat split; try done.
      * rewrite all_digits_app, Hd. simpl. by rewrite is_digit_digit_char.
      * by destruct ds.
      * unfold digits_value in *. rewrite digits_value_from_app, Hv. simpl.
        rewrite digit_value_digit_char. pose proof (N.div_mod n 10). lia.
Qed.

Lemma show_N_spec n :
  all_digits (show_N n) = true ∧ show_N n ≠ "" ∧ digits_value (show_N n) = n.
Proof.
  unfold show_N.
  destruct (show_N_from_spec (N.size_nat n) n "" (N_lt_pow2_size n))
    as (ds & -> & ? & ? & ?).
  by rewrite app_empty_r.
Qed.

Lemma show_N_inj n m : show_N n = show_N m → n = m.
Proof.
  intros E. destruct (show_N_spec n) as (_ & _ & <-).
  destruct (show_N_spec m) as (_ & _ & <-). by rewrite E.
Qed.

Lemma show_N_digits n : all_digits (show_N n) = true.
Proof. apply show_N_spec. Qed.

Lemma span_digits_app d r :
  all_digits d = true →
  match r with String c _ => is_digit c = false | "" => True end →
  span_digits (d +:+ r) = (d, r).
Proof.
  intros Hd Hr. induction d as [| c d IH].
  - rewrite app_empty_l. destruct r as [| c r]; [done |]. simpl. by rewrite Hr.
  - simpl in Hd. apply andb_true_iff in Hd as [Hc Hd].
    rewrite app_String. simpl. by rewrite Hc, IH.
Qed.

(** ** Numbers: what parseFloat returns is a number *)

Lemma all_digits_str_drop n s :
  all_digits s = true → all_digits (str_drop n s) = true.
Proof.
  revert s. induction n as [| n IH]; intros [| c s]; try done.
  simpl. intros [_ ?]%andb_true_iff. by apply IH.
Qed.

Lemma all_digits_str_take n s :
  all_digits s = true → all_digits (str_take n s) = true.
Proof.
  revert s. induction n as [| n IH]; intros [| c s]; try done.
  simpl. intros [-> ?]%andb_true_iff. by apply IH.
Qed.

Lemma all_digits_strip_trailing s :
  all_digits s = true → all_digits (strip_trailing_zeros s) = true.
Proof.
  induction s as [| c s IH]; [done |]. simpl.
  intros [Hc Hs]%andb_true_iff. specialize (IH Hs).
  destruct (strip_trailing_zeros s).
  - destruct (ascii_eqb c "0"); [done |]. simpl. by rewrite Hc.
  - simpl in *. by rewrite Hc.
Qed.

Lemma strip_trailing_idem s :
  strip_trailing_zeros (strip_trailing_zeros s) = strip_trailing_zeros s.
Proof.
  induction s as [| c s IH]; [done |]. simpl.
  destruct (strip_trailing_zeros s) as [| x r] eqn:E.
  - destruct (ascii_eqb c "0") eqn:Ec; [done |]. simpl. by rewrite Ec.
  - simpl in IH. simpl.
    destruct (match strip_trailing_zeros r with
              | "" => if ascii_eqb x "0" then "" else String x ""
              | String a s0 => String x (String a s0)
              end); [done |]. by rewrite IH.
Qed.

Lemma strip_trailing_head s c r :
  strip_trailing_zeros s = String c r → ∃ r', s = String c r'.
Proof.
  destruct s as [| x s]; [done |]. simpl.
  destruct (strip_trailing_zeros s).
  - destruct (ascii_eqb x "0"); [done |]. intros [= <- <-]. eauto.
  - intros [= <- <-]. eauto.
Qed.

Lemma leading_zeros_head c s : c ≠ "0"%char → leading_zeros (String c s) = O.
Proof. intros H. by destruct c as [[] [] [] [] [] [] [] []]. Qed.

Lemma leading_zeros_zero s : leading_zeros (String "0" s) = S (leading_zeros s).
Proof. done. Qed.

Lemma strip_leading_head s c r :
  strip_leading_zeros s = String c r → c ≠ "0"%char.
Proof.
  unfold strip_leading_zeros. induction s as [| x s IH]; [done |].
  destruct (decide (x = "0"%char)) as [-> | Hx].
  - rewrite leading_zeros_zero. simpl. apply IH.
  - rewrite leading_zeros_head by done. simpl. by intros [= <- <-].
Qed.

Lemma span_digits_digits s : all_digits (fst (span_digits s)) = true.
Proof.
  induction s as [| c s IH]; [done |]. simpl.
  destruct (is_digit c) eqn:Ec; [| done].
  destruct (span_digits s). simpl in *. by rewrite Ec.
Qed.

Lemma decimal_value_wf neg int frac exp :
  all_digits int = true → all_digits frac = true →
  wfNumber (decimal_value neg int frac exp) = true.
Proof.
  intros Hi Hf. unfold decimal_value.
  destruct (strip_trailing_zeros (strip_leading_zeros (int +:+ frac)))
    as [| c core] eqn:E; [done |].
  destruct (overflows _ _) eqn:Eo; [done |].
  assert (Hd : all_digits (String c core) = true).
  { rewrite <- E. apply all_digits_strip_trailing, all_digits_str_drop.
    by rewrite all_digits_app, Hi, Hf. }
  assert (Hc : c ≠ "0"%char).
  { destruct (strip_trailing_head _ _ _ E) as [r' Hr'].
    by eapply strip_leading_head. }
  assert (Hl : strip_leading_zeros (String c core) = String c core).
  { unfold strip_leading_zeros. by rewrite leading_zeros_head. }
  assert (Ht : strip_trailing_zeros (String c core) = String c core).
  { by rewrite <- E, strip_trailing_idem. }
  unfold wfNumber. rewrite Hd, Eo, Hl, Ht.
  rewrite (bool_decide_false (String c core = "")) by done.
  by rewrite bool_decide_true.
Qed.

Lemma parseUnsignedDecimal_wf neg s :
  wfNumber (parseUnsignedDecimal neg s) = true.
Proof.
  unfold parseUnsignedDecimal.
  destruct (strip_prefix "Infinity" s); [done |].
  pose proof (span_digits_digits s) as Hi.
  destruct (span_digits s) as [int r]. simpl in Hi.
  assert (Hf : ∀ frac r',
    (match r with String "." r1 => span_digits r1 | _ => ("", r) end)
    = (frac, r') → all_digits frac = true).
  { intros frac r' Hr. destruct r as [| c r1]; [by injection Hr as <- _ |].
    destruct (decide (c = "."%char)) as [-> | Hc].
    - pose proof (span_digits_digits r1) as H. by rewrite Hr in H.
    - destruct c as [[] [] [] [] [] [] [] []]; try done;
        by injection Hr as <- _. }
  destruct (match r with String "." r1 => span_digits r1 | _ => ("", r) end)
    as [frac r'].
  specialize (Hf frac r' eq_refl).
  destruct int, frac; try done; by apply decimal_value_wf.
Qed.

Lemma parseFloat_wf s : wfNumber (parseFloat s) = true.
Proof.
  unfold parseFloat. destruct (trimStart s) as [| c r].
  - done.
  - destruct c as [[] [] [] [] [] [] [] []]; apply parseUnsignedDecimal_wf.
Qed.

(** ** Numbers: parseFloat reads back what toString writes *)

Lemma zeros_digits m : all_digits (zeros m) = true.
Proof. induction m; [done |]. done. Qed.

Lemma zeros_length m : String.length (zeros m) = m.
Proof. induction m as [| m IH]; [done |]. simpl. by rewrite IH. Qed.

Lemma leading_zeros_zeros m s :
  leading_zeros (zeros m +:+ s) = (m + leading_zeros s)%nat.
Proof.
  induction m as [| m IH]; [done |].
  simpl zeros. rewrite app_String, leading_zeros_zero, IH. lia.
Qed.

Lemma strip_trailing_zeros_app s m :
  strip_trailing_zeros (s +:+ zeros m) = strip_trailing_zeros s.
Proof.
  assert (Hz : strip_trailing_zeros (zeros m) = "").
  { induction m as [| m IH]; [done |]. simpl. by rewrite IH. }
  induction s as [| c s IH]; [by rewrite app_empty_l |].
  rewrite app_String. simpl. by rewrite IH.
Qed.

Lemma wfNumber_Finite neg d n :
  wfNumber (Finite neg d n) = true ↔ significant d ∧ overflows d n = false.
Proof.
  unfold wfNumber, significant.
  rewrite !andb_true_iff, !negb_true_iff, !bool_decide_eq_true,
    bool_decide_eq_false.
  tauto.
Qed.

Lemma significant_head d :
  significant d →
  ∃ c r, d = String c r ∧ is_digit c = true ∧ c ≠ "0"%char.
Proof.
  intros (Hd & Hne & Hl & _). destruct d as [| c r]; [done |].
  exists c, r. split_and!; [done | |].
  - simpl in Hd. by apply andb_true_iff in Hd as [? _].
  - by eapply strip_leading_head.
Qed.

Lemma decimal_value_significant neg int frac e d a b :
  int +:+ frac = zeros a +:+ d +:+ zeros b →
  significant d →
  overflows d (Z.of_nat (String.length int) - Z.of_nat a + e) = false →
  decimal_value neg int frac e
  = Finite neg d (Z.of_nat (String.length int) - Z.of_nat a + e).
Proof.
  intros E Hd Ho. unfold decimal_value. rewrite E.
  assert (Hl : leading_zeros (zeros a +:+ d +:+ zeros b) = a).
  { rewrite leading_zeros_zeros.
    destruct (significant_head d Hd) as (c & r & -> & _ & Hc).
    rewrite app_String, leading_zeros_head by done. lia. }
  unfold strip_leading_zeros. rewrite Hl.
  rewrite (str_drop_app_len a) by apply zeros_length.
  rewrite strip_trailing_zeros_app.
  destruct Hd as (_ & Hne & _ & ->).
  destruct d; [done |]. by rewrite Ho.
Qed.

Lemma parseFloat_signed neg c rest :
  is_digit c = true →
  parseFloat ((if neg : bool then "-" else "") +:+ String c rest)
  = parseUnsignedDecimal neg (String c rest).
Proof.
  intros Hc. destruct neg.
  - done.
  - rewrite app_empty_l. by destruct c as [[] [] [] [] [] [] [] []].
Qed.

Lemma strip_prefix_Infinity_digit c rest :
  is_digit c = true → strip_prefix "Infinity" (String c rest) = None.
Proof. intros Hc. by destruct c as [[] [] [] [] [] [] [] []]. Qed.

Lemma parseUnsigned_integer neg c int tail :
  is_digit c = true → all_digits int = true → endsDigits tail →
  parseUnsignedDecimal neg (String c int +:+ tail)
  = decimal_value neg (String c int) "" (exponent_part tail).
Proof.
  intros Hc Hi Ht. unfold parseUnsignedDecimal.
  rewrite app_String, strip_prefix_Infinity_digit by done.
  rewrite <- app_String, span_digits_app.
  - destruct tail as [| x tail]; [done |]. destruct Ht as [_ Hx].
    by destruct x as [[] [] [] [] [] [] [] []].
  - simpl. by rewrite Hc, Hi.
  - destruct tail; [done |]. apply Ht.
Qed.

Lemma parseUnsigned_fraction neg c int frac tail :
  is_digit c = true → all_digits int = true → all_digits frac = true →
  endsDigits tail →
  parseUnsignedDecimal neg (String c int +:+ "." +:+ frac +:+ tail)
  = decimal_value neg (String c int) frac (exponent_part tail).
Proof.
  intros Hc Hi Hf Ht. unfold parseUnsignedDecimal.
  rewrite app_String, strip_prefix_Infinity_digit by done.
  rewrite <- app_String, span_digits_app; [| by simpl; rewrite Hc, Hi | done].
  rewrite app_String, app_empty_l.
  rewrite span_digits_app; [done | done |].
  destruct tail; [done |]. apply Ht.
Qed.

Lemma exponent_part_written e :
  exponent_part ("e" +:+ (if e <? 0 then "-" else "+")
                     +:+ show_N (Z.to_N (Z.abs e))) = e.
Proof.
  destruct (show_N_spec (Z.to_N (Z.abs e))) as (Hd & Hne & Hv).
  rewrite <- (app_empty_r (show_N _)).
  unfold exponent_part.
  destruct (Z.ltb_spec e 0); rewrite !app_String, !app_empty_l; simpl;
    rewrite span_digits_app by done; simpl;
    destruct (show_N _); try done; rewrite Hv; lia.
Qed.

Lemma decimal_value_written neg int frac e d a b n :
  int +:+ frac = zeros a +:+ d +:+ zeros b →
  significant d → overflows d n = false →
  Z.of_nat (String.length int) - Z.of_nat a + e = n →
  decimal_value neg int frac e = Finite neg d n.
Proof.
  intros E Hd Ho <-. by apply (decimal_value_significant _ _ _ _ _ _ b).
Qed.

Lemma parseFloat_toString x :
  wfNumber x = true → parseFloat (Number_toString x) = x.
Proof.
  destruct x as [| [] | | neg d n]; try done.
  intros [Hd Ho]%wfNumber_Finite.
  destruct (significant_head d Hd) as (c & r & -> & Hc & Hc0).
  pose proof Hd as (Hdig & _ & _ & _).
  assert (Hr : all_digits r = true).
  { simpl in Hdig. by apply andb_true_iff in Hdig as [_ ?]. }
  unfold Number_toString.
  set (k := Z.of_nat (String.length (String c r))).
  assert (Hk : k = 1 + Z.of_nat (String.length r)) by (subst k; simpl; lia).
  clearbody k.
  destruct (decide (k <= n <= 21)) as [HA | HA].
  { (* the digits, then zeros *)
    replace ((k <=? n) && (n <=? 21)) with true
      by (symmetry; apply andb_true_iff; lia).
    rewrite app_String, parseFloat_signed by done.
    rewrite <- (app_empty_r (String c (r +:+ _))).
    rewrite parseUnsigned_integer;
      [| done | by rewrite all_digits_app, Hr, zeros_digits | done].
    apply (decimal_value_written _ _ _ _ (String c r) O (Z.to_nat (n - k)));
      [by rewrite app_empty_r | done | done |].
    simpl. rewrite str_length_app, zeros_length. lia. }
  replace ((k <=? n) && (n <=? 21)) with false
    by (symmetry; apply andb_false_iff; lia).
  destruct (decide (0 < n <= 21)) as [HB | HB].
  { (* a decimal point inside the digits *)
    replace ((0 <? n) && (n <=? 21)) with true
      by (symmetry; apply andb_true_iff; lia).
    destruct (Z.to_nat n) as [| m] eqn:Em; [lia |].
    simpl str_take. simpl str_drop.
    rewrite app_String, parseFloat_signed by done.
    rewrite <- app_String, <- (app_empty_r (str_drop m r)).
    rewrite parseUnsigned_fraction;
      [| done | by apply all_digits_str_take
         | by apply all_digits_str_drop | done].
    apply (decimal_value_written _ _ _ _ _ O O); [| done | done |].
    - by rewrite app_String, str_take_drop, app_empty_r.
    - simpl. rewrite str_take_length; lia. }
  replace ((0 <? n) && (n <=? 21)) with false
    by (symmetry; apply andb_false_iff; lia).
  destruct (decide (-6 < n <= 0)) as [HC | HC].
  { (* zeros between the point and the digits *)
    replace ((-6 <? n) && (n <=? 0)) with true
      by (symmetry; apply andb_true_iff; lia).
    replace ("0." +:+ zeros (Z.to_nat (- n)) +:+ String c r)
      with (String "0" ("" +:+ "." +:+ (zeros (Z.to_nat (- n)) +:+ String c r)
                           +:+ ""))
      by (by rewrite app_empty_r).
    rewrite parseFloat_signed by done. rewrite <- app_String.
    rewrite parseUnsigned_fraction;
      [| done | done | by rewrite all_digits_app, zeros_digits | done].
    apply (decimal_value_written _ _ _ _ _ (S (Z.to_nat (- n))) O);
      [by rewrite app_empty_r | done | done |].
    simpl. lia. }
  replace ((-6 <? n) && (n <=? 0)) with false
    by (symmetry; apply andb_false_iff; lia).
  (* exponent notation *)
  cbv zeta.
  destruct r as [| c' r'].
  - rewrite app_String, parseFloat_signed by done.
    rewrite <- app_String.
    rewrite parseUnsigned_integer; [| done | done | done].
    rewrite exponent_part_written.
    apply (decimal_value_written _ _ _ _ _ O O);
      [by rewrite app_empty_r | done | done |].
    simpl. lia.
  - rewrite app_String, parseFloat_signed by done.
    change (String c (String "." (String c' r') +:+ ?t))
      with (String c "" +:+ "." +:+ String c' r' +:+ t).
    rewrite parseUnsigned_fraction; [| done | done | done | done].
    rewrite exponent_part_written.
    apply (decimal_value_written _ _ _ _ _ O O);
      [by rewrite app_empty_r | done | done |].
    simpl. lia.
Qed.

(** ** Sorting by date *)

Lemma insertByDate_Permutation a l : insertByDate a l ≡ₚ a :: l.
Proof.
  induction l as [| b l IH]; [done |]. simpl.
  destruct (sortsAfter a b); [| done].
  by rewrite IH, Permutation_swap.
Qed.

Lemma sortByDate_Permutation l : sortByDate l ≡ₚ l.
Proof.
  induction l as [| a l IH]; [done |]. simpl.
  by rewrite insertByDate_Permutation, IH.
Qed.

Lemma sortByDate_length l : length (sortByDate l) = length l.
Proof. by rewrite sortByDate_Permutation. Qed.

Lemma sortsAfter_false a b :
  validDate a → validDate b → sortsAfter a b = false → notLater a b.
Proof.
  intros (x & Hx & _) (y & Hy & _). unfold sortsAfter, notLater.
  rewrite Hx, Hy. intros H%Z.ltb_ge. eauto.
Qed.

Lemma sortsAfter_true a b : sortsAfter a b = true → earlier b a.
Proof.
  unfold sortsAfter, earlier.
  destruct (date a) as [x |], (date b) as [y |]; try done.
  intros H%Z.ltb_lt. eauto.
Qed.

Lemma earlier_sortsAfter a b : earlier b a → sortsAfter a b = true.
Proof.
  intros (y & x & Hy & Hx & Hlt). unfold sortsAfter. rewrite Hx, Hy.
  by apply Z.ltb_lt.
Qed.

Lemma earlier_notLater a b : earlier a b → notLater a b.
Proof. intros (x & y & ? & ? & ?). exists x, y. split_and!; [done.. | lia]. Qed.

Lemma notLater_trans a b c : notLater a b → notLater b c → notLater a c.
Proof.
  intros (x & y & Hx & Hy & ?) (y' & z & Hy' & Hz & ?).
  rewrite Hy in Hy'. injection Hy' as <-. exists x, z.
  split_and!; [done.. | lia].
Qed.

Lemma insertByDate_sorted a l :
  validDate a → Forall validDate l →
  StronglySorted notLater l → StronglySorted notLater (insertByDate a l).
Proof.
  intros Ha Hl Hs. induction Hs as [| b l Hs IH Hb]; simpl.
  - by repeat constructor.
  - apply Forall_cons in Hl as [Hvb Hl].
    destruct (sortsAfter a b) eqn:E.
    + constructor; [by apply IH |].
      rewrite insertByDate_Permutation. constructor; [| done].
      by apply earlier_notLater, sortsAfter_true.
    + pose proof (sortsAfter_false a b Ha Hvb E) as Hab.
      constructor; [by constructor |]. constructor; [done |].
      eapply Forall_impl; [exact Hb |]. intros c Hc.
      by eapply notLater_trans.
Qed.

Lemma sortByDate_sorted l :
  Forall validDate l → StronglySorted notLater (sortByDate l).
Proof.
  induction 1 as [| a l Ha Hl IH]; simpl; [constructor |].
  apply insertByDate_sorted; [done | by rewrite sortByDate_Permutation | done].
Qed.

Lemma insertByDate_after a front back :
  Forall (λ x, earlier x a) front →
  insertByDate a (front ++ back) = front ++ insertByDate a back.
Proof.
  induction 1 as [| x front Hx Hf IH]; [done |]. simpl.
  by rewrite (earlier_sortsAfter a x), IH.
Qed.

(** When every new transaction is dated before every stored one, the
    sorted merge is the sorted new ones followed by the sorted stored
    ones. *)
Lemma sortByDate_earlier_first existing added :
  Forall (λ a, Forall (λ e, earlier a e) existing) added →
  sortByDate (existing ++ added) = sortByDate added ++ sortByDate existing.
Proof.
  intros H. induction existing as [| e existing IH].
  - simpl. by rewrite app_nil_r.
  - simpl. rewrite IH.
    + apply insertByDate_after. rewrite sortByDate_Permutation.
      eapply Forall_impl; [exact H |]. intros a Ha.
      by apply Forall_cons in Ha as [? _].
    + eapply Forall_impl; [exact H |]. intros a Ha.
      by apply Forall_cons in Ha as [_ ?].
Qed.

(** ** Reading the slot *)


Lemma mapOutcome_objects (l : list JsonTransaction) :
  mapOutcome reviveElement (ObjectElement <$> l) = Return (revive <$> l).
Proof.
  induction l as [| j l IH]; [done |].
  rewrite !fmap_cons. cbn [mapOutcome reviveElement]. by rewrite IH.
Qed.

Lemma JSON_stringify_objects l :
  JSON_stringify l = Records (ObjectElement <$> (toJSON <$> l)).
Proof. unfold JSON_stringify. by rewrite <- list_fmap_compose. Qed.

Lemma getTransactions_stringify l :
  getTransactions (Some (JSON_stringify l))
  = (Return (persisted <$> l), Some (JSON_stringify l)).
Proof.
  rewrite JSON_stringify_objects. unfold getTransactions, bind, getItem.
  by rewrite mapOutcome_objects, <- list_fmap_compose.
Qed.


(** ** A failed import leaves the slot alone *)

Lemma importFromCSV_returns csv st :
  ∃ r, fst (importFromCSV csv st) = Return r.
Proof.
  unfold importFromCSV, tryCatch.
  destruct (length (csvLines csv) <? 2)%nat; [by eexists |].
  unfold bind at 1.
  destruct st as [[| m | m | l]|]; simpl;
    repeat (case_match; simpl); by eexists.
Qed.

Lemma getTransactions_eta st :
  getTransactions st = (fst (getTransactions st), st).
Proof. by destruct st as [[]|]. Qed.

Lemma import_few_lines csv st :
  (length (csvLines csv) < 2)%nat →
  importFromCSV csv st = (Return tooFewLines, st).
Proof.
  intros H. unfold importFromCSV, tryCatch.
  destruct (Nat.ltb_spec (length (csvLines csv)) 2); [done | lia].
Qed.

Lemma import_read_error csv st e :
  (2 ≤ length (csvLines csv))%nat →
  fst (getTransactions st) = Throw e →
  importFromCSV csv st = (Return (importError e), st).
Proof.
  intros H He. unfold importFromCSV, tryCatch.
  destruct (Nat.ltb_spec (length (csvLines csv)) 2); [lia |].
  unfold bind. rewrite getTransactions_eta, He. done.
Qed.

Lemma import_no_rows csv st existing :
  (2 ≤ length (csvLines csv))%nat →
  fst (getTransactions st) = Return existing →
  acceptedRows csv existing = [] →
  importFromCSV csv st = (Return noValidRows, st).
Proof.
  intros H He Hr. unfold importFromCSV, tryCatch.
  destruct (Nat.ltb_spec (length (csvLines csv)) 2); [lia |].
  unfold bind. rewrite getTransactions_eta, He.
  unfold acceptedRows in Hr. rewrite Hr. done.
Qed.

Lemma import_success csv st existing :
  (2 ≤ length (csvLines csv))%nat →
  fst (getTransactions st) = Return existing →
  acceptedRows csv existing ≠ [] →
  storageAccepts
    (JSON_stringify (sortByDate (existing ++ acceptedRows csv existing)))
  = true →
  importFromCSV csv st
  = (Return (imported (length (acceptedRows csv existing))),
     Some (JSON_stringify (sortByDate (existing ++ acceptedRows csv existing)))).
Proof.
  intros H He Hr Hw. unfold importFromCSV, tryCatch.
  destruct (Nat.ltb_spec (length (csvLines csv)) 2); [lia |].
  unfold bind. rewrite getTransactions_eta, He.
  fold (acceptedRows csv existing).
  destruct (acceptedRows csv existing) eqn:E; [done |].
  unfold setItem. by rewrite Hw.
Qed.

Lemma import_write_refused csv st existing :
  (2 ≤ length (csvLines csv))%nat →
  fst (getTransactions st) = Return existing →
  acceptedRows csv existing ≠ [] →
  storageAccepts
    (JSON_stringify (sortByDate (existing ++ acceptedRows csv existing)))
  = false →
  importFromCSV csv st = (Return (importError quotaExceeded), st).
Proof.
  intros H He Hr Hw. unfold importFromCSV, tryCatch.
  destruct (Nat.ltb_spec (length (csvLines csv)) 2); [lia |].
  unfold bind. rewrite getTransactions_eta, He.
  fold (acceptedRows csv existing).
  destruct (acceptedRows csv existing) eqn:E; [done |].
  unfold setItem. by rewrite Hw.
Qed.

Lemma importFromCSV_case csv st :
  ∃ r st', importFromCSV csv st = (Return r, st') ∧ ImportCase csv st r st'.
Proof.
  destruct (Nat.lt_ge_cases (length (csvLines csv)) 2) as [Hl | Hl].
  - eexists _, _. split; [by apply import_few_lines | by constructor].
  - destruct (fst (getTransactions st)) as [existing | e] eqn:He.
    + destruct (decide (acceptedRows csv existing = [])) as [Hr | Hr].
      * eexists _, _. split; [by eapply import_no_rows | by econstructor].
      * destruct (storageAccepts
                    (JSON_stringify
                       (sortByDate (existing ++ acceptedRows csv existing))))
          eqn:Hw.
        -- eexists _, _.
           split; [by eapply import_success | by eapply Imported].
        -- eexists _, _.
           split; [by eapply import_write_refused | by eapply WriteRefused].
    + eexists _, _. split; [by eapply import_read_error | by econstructor].
Qed.

(** C10: whenever [importFromCSV] reports [success = false], for any
    text and any content of the slot (a content whose read throws
    included), the slot is what it was before the call. *)
Theorem import_failure_keeps_storage (csv : string) (st : Storage)
    (r : ImportResult) :
  fst (importFromCSV csv st) = Return r →
  success r = false →
  snd (importFromCSV csv st) = st.
Proof.
  destruct (importFromCSV_case csv st) as (r' & st' & -> & Hcase).
  simpl. intros [= <-] Hfail.
  destruct Hcase; done.
Qed.

(** ** The import loop *)

Lemma rowTransaction_empty i : rowTransaction i "" = None.
Proof. done. Qed.

Lemma importRows_step_skip i dataLine rest acc ids :
  rowTransaction i (trim dataLine) = None →
  importRows i (dataLine :: rest) acc ids = importRows (S i) rest acc ids.
Proof.
  intros H. simpl. rewrite H. by destruct (truthy_string (trim dataLine)).
Qed.

Lemma importRows_step_row i dataLine rest acc ids t :
  rowTransaction i (trim dataLine) = Some t →
  importRows i (dataLine :: rest) acc ids
  = if bool_decide (id t ∈ ids) then importRows (S i) rest acc ids
    else importRows (S i) rest (acc ++ [t]) (ids ∪ {[ id t ]}).
Proof.
  intros H. simpl. rewrite H.
  destruct (trim dataLine) eqn:E; [by rewrite rowTransaction_empty in H |].
  done.
Qed.

Lemma importRows_acc i lines acc ids :
  importRows i lines acc ids = acc ++ importRows i lines [] ids.
Proof.
  revert i acc ids. induction lines as [| dataLine rest IH]; intros i acc ids.
  - simpl. by rewrite app_nil_r.
  - destruct (rowTransaction i (trim dataLine)) as [t |] eqn:E.
    + rewrite !(importRows_step_row _ _ _ _ _ t) by done.
      case_bool_decide; [apply IH |].
      rewrite (IH _ (acc ++ [t])), (IH _ ([] ++ [t])).
      by rewrite <- app_assoc.
    + rewrite !importRows_step_skip by done. apply IH.
Qed.

(** Every accepted row is a valid row. *)
Lemma importRows_sublist i lines ids :
  sublist (importRows i lines [] ids) (validRowsFrom i lines).
Proof.
  revert i ids. induction lines as [| dataLine rest IH]; intros i ids; [done |].
  simpl validRowsFrom.
  destruct (rowTransaction i (trim dataLine)) as [t |] eqn:E.
  - rewrite (importRows_step_row _ _ _ _ _ t) by done.
    case_bool_decide.
    + by apply sublist_cons.
    + rewrite importRows_acc. simpl. by apply sublist_skip.
  - rewrite importRows_step_skip by done. apply IH.
Qed.

(** Rows whose ids are all taken add nothing. *)
Lemma importRows_all_known i lines acc ids :
  Forall (λ t, id t ∈ ids) (validRowsFrom i lines) →
  importRows i lines acc ids = acc.
Proof.
  revert i. induction lines as [| dataLine rest IH]; intros i H; [done |].
  simpl in H.
  destruct (rowTransaction i (trim dataLine)) as [t |] eqn:E.
  - rewrite (importRows_step_row _ _ _ _ _ t) by done.
    apply Forall_cons in H as [Ht H]. rewrite bool_decide_true by done.
    by apply IH.
  - rewrite importRows_step_skip by done. by apply IH.
Qed.

(** Rows whose ids are fresh and pairwise distinct are all accepted. *)
Lemma importRows_all_fresh i lines acc ids :
  NoDup (id <$> validRowsFrom i lines) →
  Forall (λ t, id t ∉ ids) (validRowsFrom i lines) →
  importRows i lines acc ids = acc ++ validRowsFrom i lines.
Proof.
  revert i acc ids. induction lines as [| dataLine rest IH];
    intros i acc ids Hnd Hfresh.
  - simpl. by rewrite app_nil_r.
  - simpl in Hnd, Hfresh. simpl validRowsFrom.
    destruct (rowTransaction i (trim dataLine)) as [t |] eqn:E.
    + rewrite (importRows_step_row _ _ _ _ _ t) by done.
      apply Forall_cons in Hfresh as [Ht Hfresh].
      rewrite fmap_cons in Hnd. apply NoDup_cons in Hnd as [Hnt Hnd].
      rewrite bool_decide_false by done.
      rewrite IH, <- app_assoc; [done | done |].
      eapply Forall_impl; [apply Forall_forall; intros x Hx; exact Hx |].
      intros x Hx. simpl in Hx.
      rewrite Forall_forall in Hfresh.
      intros [Hin | Hin%elem_of_singleton]%elem_of_union.
      * by apply (Hfresh x).
      * apply Hnt. rewrite <- Hin. by apply list_elem_of_fmap_2.
    + rewrite importRows_step_skip by done. by apply IH.
Qed.

(** The ids of the stored and the accepted rows stay distinct. *)
Lemma importRows_NoDup i lines acc ids (existing : list string) :
  (∀ x, x ∈ ids ↔ x ∈ existing ∨ x ∈ id <$> acc) →
  NoDup (existing ++ (id <$> acc)) →
  NoDup (existing ++ (id <$> importRows i lines acc ids)).
Proof.
  revert i acc ids. induction lines as [| dataLine rest IH];
    intros i acc ids Hids Hnd; [done |].
  destruct (rowTransaction i (trim dataLine)) as [t |] eqn:E.
  - rewrite (importRows_step_row _ _ _ _ _ t) by done.
    case_bool_decide as Hin; [by apply IH |].
    apply IH.
    + intros x. rewrite fmap_app, elem_of_union, elem_of_singleton, Hids.
      rewrite elem_of_app. simpl. rewrite list_elem_of_singleton. tauto.
    + rewrite fmap_app, app_assoc. simpl.
      apply NoDup_app. split_and!; [done | | apply NoDup_singleton].
      intros x Hx ->%list_elem_of_singleton. apply Hin, Hids.
      by apply elem_of_app in Hx.
  - rewrite importRows_step_skip by done. by apply IH.
Qed.

(** ** Well-formed stores *)

Lemma Date_parse_valid s t : Date_parse s = Some t → validTime t.
Proof.
  unfold Date_parse.
  assert (Hh : hostDateParse s ≫= TimeClip = Some t → validTime t).
  { destruct (hostDateParse s) as [t' |]; [| done]. simpl.
    by intros [-> ?]%TimeClip_Some. }
  destruct (isoFields s) as [[[[y m] d] w] |]; [| done].
  destruct (legalDate y m d); [| done].
  by intros [-> ?]%TimeClip_Some.
Qed.

Lemma toJSON_wf t : wfTransaction t → wfJson (toJSON t).
Proof.
  intros [Hd Ha]. split; simpl.
  - destruct (date t) as [x |]; simpl; eauto.
  - destruct (amount t) as [x |]; [| done].
    by destruct (is_finite x) eqn:E.
Qed.

Lemma revive_wf j :
  wfJson j → wfTransaction (revive j) ∧ validDate (revive j)
             ∧ finiteOrNull (revive j).
Proof.
  intros [Hd Ha]. unfold wfTransaction, validDate, finiteOrNull. simpl.
  destruct (j_date j) as [| | s]; [done | |].
  - assert (validTime 0) by (by unfold validTime).
    split_and!; [done | | by eauto |].
    + destruct (j_amount j); [apply Ha | done].
    + destruct (j_amount j); [apply Ha | done].
  - destruct Hd as (t & Ht & ->). rewrite Date_parse_isoString by done.
    split_and!; [done | | by eauto |].
    + destruct (j_amount j); [apply Ha | done].
    + destruct (j_amount j); [apply Ha | done].
Qed.

Lemma wfStore_objects (l : list JsonElement) :
  Forall (λ e, match e with
               | ObjectElement j => wfJson j
               | NullElement => False
               end) l →
  ∃ js, l = ObjectElement <$> js ∧ Forall wfJson js.
Proof.
  induction 1 as [| e l He Hl (js & -> & Hjs)]; [by exists [] |].
  destruct e as [| j]; [done |]. exists (j :: js). by split; [| constructor].
Qed.

Lemma wfStore_read st :
  wfStore st →
  ∃ l, getTransactions st = (Return l, st)
       ∧ Forall wfTransaction l ∧ Forall validDate l
       ∧ Forall finiteOrNull l.
Proof.
  destruct st as [[| m | m | l] |]; try done.
  - intros (js & -> & Hl)%wfStore_objects. exists (revive <$> js). split.
    { unfold getTransactions, bind, getItem. by rewrite mapOutcome_objects. }
    rewrite !Forall_fmap. split_and!;
      (eapply Forall_impl; [exact Hl |]); intros j Hj; simpl;
      apply (revive_wf j Hj).
  - intros _. exists []. by split_and!.
Qed.

Lemma JSON_stringify_wf l :
  Forall wfTransaction l → wfStore (Some (JSON_stringify l)).
Proof.
  intros H. simpl. rewrite Forall_fmap.
  eapply Forall_impl; [exact H |]. intros t. apply toJSON_wf.
Qed.

(** What a row that passes the checks looks like. *)
Lemma rowTransaction_Some i line t :
  rowTransaction i line = Some t →
  ∃ time x,
    date t = Some time ∧ validTime time
    ∧ amount t = Some x ∧ isNaN x = false ∧ wfNumber x = true
    ∧ id t = show_Z time +:+ "-" +:+ show_N (N.of_nat i).
Proof.
  unfold rowTransaction.
  destruct (length (parseCSVLine line) <? 3)%nat; [done |].
  destruct (Date_parse _) as [time |] eqn:Ed; [| done].
  destruct (isNaN _) eqn:En; [done |].
  intros H. exists time, (parseFloat (default "" (parseCSVLine line !! 1%nat))).
  repeat case_bool_decide; simplify_eq/=;
    (split_and!; [done | by eapply Date_parse_valid | done | done
                  | apply parseFloat_wf | done]).
Qed.

Lemma rowTransaction_wf i line t :
  rowTransaction i line = Some t → wfTransaction t ∧ validDate t.
Proof.
  intros (time & x & Hd & Hv & Ha & _ & Hx & _)%rowTransaction_Some.
  unfold wfTransaction, validDate. rewrite Hd, Ha. eauto.
Qed.

Lemma validRowsFrom_wf i lines :
  Forall (λ t, wfTransaction t ∧ validDate t) (validRowsFrom i lines).
Proof.
  revert i. induction lines as [| dataLine rest IH]; intros i; [done |].
  simpl. destruct (rowTransaction i (trim dataLine)) eqn:E; [| apply IH].
  constructor; [by eapply rowTransaction_wf | apply IH].
Qed.

Lemma acceptedRows_wf csv existing :
  Forall (λ t, wfTransaction t ∧ validDate t) (acceptedRows csv existing).
Proof.
  unfold acceptedRows.
  apply Forall_forall. intros t Ht.
  pose proof (validRowsFrom_wf 0 (drop 1 (csvLines csv))) as H.
  rewrite Forall_forall in H. apply H.
  eapply elem_of_sublist; [exact Ht | apply importRows_sublist].
Qed.

Lemma ImportCase_wf csv st r st' :
  wfStore st → ImportCase csv st r st' → wfStore st'.
Proof.
  intros Hwf Hcase. destruct Hcase as [| | | | existing Hl He Hr Hw]; try done.
  destruct (wfStore_read st Hwf) as (l & El & Hl1 & _).
  rewrite El in He. simpl in He. injection He as ->.
  apply JSON_stringify_wf. rewrite sortByDate_Permutation.
  apply Forall_app. split; [done |].
  eapply Forall_impl; [apply acceptedRows_wf |]. by intros t [? _].
Qed.

Lemma reachable_wf st : reachable st → wfStore st.
Proof.
  induction 1 as [| st idNow dateNow amount ty description Hr IH Hamt
                  | st csv Hr IH | st Hr IH]; [done | | | done].
  - destruct (wfStore_read st IH) as (l & El & Hl & _).
    unfold addTransaction, bind, setItem. rewrite El.
    destruct (storageAccepts _); [| done].
    apply JSON_stringify_wf, Forall_app. split; [done |].
    constructor; [| done]. split; simpl; [| done].
    unfold TimeClip. by destruct (Z.leb_spec (Z.abs dateNow) maxTime).
  - destruct (importFromCSV_case csv st) as (r & st' & E & Hcase).
    rewrite E. simpl. by eapply ImportCase_wf.
Qed.

(** ** The outcomes of a read *)



(** ** Skipped rows *)

Lemma rowTransaction_None i line :
  rowTransaction i line = None
  ↔ (length (parseCSVLine line) < 3)%nat
    ∨ Date_parse (default "" (parseCSVLine line !! 0%nat)) = None
    ∨ parseFloat (default "" (parseCSVLine line !! 1%nat)) = NaN
    ∨ (trim (toLowerCase (default "" (parseCSVLine line !! 2%nat)))
         ≠ "savings"
       ∧ trim (toLowerCase (default "" (parseCSVLine line !! 2%nat)))
         ≠ "spend").
Proof.
  unfold rowTransaction.
  destruct (Nat.ltb_spec (length (parseCSVLine line)) 3) as [Hl | Hl];
    [by split; auto |].
  destruct (Date_parse _) as [time |]; [| by split; auto].
  destruct (parseFloat _) as [| neg | | neg d n] eqn:En; simpl;
    [by split; auto | ..];
    repeat case_bool_decide; split; try done;
    try (intros [? | [? | [? | [? ?]]]]; try done; lia).
  all: intros _; right; right; right; done.
Qed.

(** ** Amounts in the store *)

(** In every store reached by appends, imports and clears from the
    empty slot, the read succeeds and the amount of every record is a
    finite number or null, never NaN or an infinity: a non-finite
    amount is written as JSON null.  A row that the import accepts has
    an amount that is not NaN; nothing keeps it from being infinite. *)
Lemma stored_amounts_finite_or_null (st : Storage) :
  reachable st →
  (∃ l, getTransactions st = (Return l, st) ∧ Forall finiteOrNull l)
  ∧ (∀ i line t, rowTransaction i line = Some t →
       ∃ x, amount t = Some x ∧ isNaN x = false).
Proof.
  intros Hr. split.
  - destruct (wfStore_read st (reachable_wf st Hr)) as (l & E & _ & _ & H).
    eauto.
  - intros i line t (time & x & _ & _ & Ha & Hx & _)%rowTransaction_Some.
    eauto.
Qed.

(** ** Distinct ids *)

Lemma storedIds_stringify l : storedIds (Some (JSON_stringify l)) = id <$> l.
Proof.
  unfold storedIds. rewrite getTransactions_stringify. cbn [fst].
  rewrite <- list_fmap_compose. by apply list_fmap_ext.
Qed.

Lemma storedIds_read st l :
  fst (getTransactions st) = Return l → storedIds st = id <$> l.
Proof. unfold storedIds. by intros ->. Qed.

Lemma acceptedRows_NoDup csv existing :
  NoDup (id <$> existing) →
  NoDup (id <$> (existing ++ acceptedRows csv existing)).
Proof.
  intros H. rewrite fmap_app. unfold acceptedRows.
  apply importRows_NoDup.
  - intros x. rewrite elem_of_list_to_set. simpl.
    rewrite elem_of_nil. tauto.
  - simpl. by rewrite app_nil_r.
Qed.

(** C4 (as amended): an import and a clear keep the ids of the stored
    records pairwise distinct; an append keeps them distinct when the
    id it takes from the clock, [Date.now()] in decimal, is not already
    the id of a stored record. *)
Theorem unique_ids_preserved (st : Storage) :
  NoDup (storedIds st) →
  (∀ csv, NoDup (storedIds (snd (importFromCSV csv st))))
  ∧ (∀ idNow dateNow amount type description,
       show_Z idNow ∉ storedIds st →
       NoDup (storedIds
                (snd (addTransaction idNow dateNow amount type description
                                     st))))
  ∧ NoDup (storedIds (snd (clearTransactions st))).
Proof.
  intros Hnd. split_and!.
  - intros csv.
    destruct (importFromCSV_case csv st) as (r & st' & E & Hcase).
    rewrite E. simpl.
    destruct Hcase as [| | | | existing Hl He Hr Hw]; try done.
    rewrite storedIds_stringify, sortByDate_Permutation.
    apply acceptedRows_NoDup. by rewrite <- (storedIds_read st).
  - intros idNow dateNow amount ty description Hfresh.
    unfold addTransaction, bind, setItem. rewrite getTransactions_eta.
    destruct (fst (getTransactions st)) as [l | e] eqn:E; [| done].
    destruct (storageAccepts _); [| done].
    simpl. rewrite storedIds_stringify, fmap_app. simpl.
    rewrite (storedIds_read st l E) in Hnd, Hfresh.
    apply NoDup_app. split_and!; [done | | apply NoDup_singleton].
    by intros x Hx ->%list_elem_of_singleton.
  - constructor.
Qed.

(** ** Ids of imported rows *)

Lemma all_digits_dash s t : all_digits (s +:+ "-" +:+ t) = false.
Proof.
  induction s as [| c s IH]; [done |].
  rewrite app_String. simpl. rewrite IH. apply andb_false_r.
Qed.

(** The digits after the last dash of an id are its row number. *)
Lemma digits_after_dash s1 s2 d1 d2 :
  all_digits d1 = true → all_digits d2 = true →
  s1 +:+ "-" +:+ d1 = s2 +:+ "-" +:+ d2 → d1 = d2.
Proof.
  intros H1 H2. revert s2.
  induction s1 as [| c s1 IH]; intros [| c' s2] E.
  - by injection E.
  - rewrite app_empty_l, app_String in E. injection E as _ E.
    rewrite app_empty_l in E. rewrite E, all_digits_dash in H1. done.
  - rewrite app_empty_l, app_String in E. injection E as _ E.
    rewrite app_empty_l in E. rewrite <- E, all_digits_dash in H2. done.
  - rewrite !app_String in E. injection E as _ E. by eapply IH.
Qed.

Lemma row_id_index a b i j :
  show_Z a +:+ "-" +:+ show_N (N.of_nat i)
  = show_Z b +:+ "-" +:+ show_N (N.of_nat j) →
  i = j.
Proof.
  intros E%digits_after_dash; try apply show_N_digits.
  by apply show_N_inj, Nat2N.inj in E.
Qed.

Lemma validRowsFrom_index i lines t :
  t ∈ validRowsFrom i lines →
  ∃ time j, (i ≤ j)%nat
            ∧ id t = show_Z time +:+ "-" +:+ show_N (N.of_nat j).
Proof.
  revert i. induction lines as [| dataLine rest IH]; intros i; simpl.
  - by intros ?%elem_of_nil.
  - destruct (rowTransaction i (trim dataLine)) as [t' |] eqn:E.
    + intros [-> | Hin]%elem_of_cons.
      * apply rowTransaction_Some in E
          as (time & x & _ & _ & _ & _ & _ & Hid).
        exists time, i. by split.
      * destruct (IH _ Hin) as (time & j & Hj & Hid).
        exists time, j. split; [lia | done].
    + intros Hin. destruct (IH _ Hin) as (time & j & Hj & Hid).
      exists time, j. split; [lia | done].
Qed.

(** Within one import, the ids of the valid rows are pairwise distinct. *)
Lemma validRowsFrom_NoDup i lines : NoDup (id <$> validRowsFrom i lines).
Proof.
  revert i. induction lines as [| dataLine rest IH]; intros i; simpl.
  - constructor.
  - destruct (rowTransaction i (trim dataLine)) as [t |] eqn:E; [| apply IH].
    rewrite fmap_cons. constructor; [| apply IH].
    intros (t' & Hid & Hin)%list_elem_of_fmap.
    apply validRowsFrom_index in Hin as (time' & j & Hj & Hid').
    apply rowTransaction_Some in E as (time & x & _ & _ & _ & _ & _ & Hid'').
    rewrite Hid', Hid'' in Hid. apply row_id_index in Hid. lia.
Qed.

(** ** Importing the same text twice *)

Lemma filter_all {A} (P : A → Prop) `{!∀ x, Decision (P x)} (l : list A) :
  Forall P l → filter P l = l.
Proof.
  induction 1 as [| x l Hx Hl IH]; [done |].
  by rewrite filter_cons_True, IH.
Qed.

(** The accepted rows are the valid rows whose id is not yet known. *)
Lemma importRows_filter i lines acc (ids known : gset string) :
  NoDup (id <$> validRowsFrom i lines) →
  (∀ t, t ∈ validRowsFrom i lines → id t ∈ ids ↔ id t ∈ known) →
  importRows i lines acc ids
  = acc ++ filter (λ t, id t ∉ known) (validRowsFrom i lines).
Proof.
  revert i acc ids. induction lines as [| dataLine rest IH];
    intros i acc ids Hnd Hids.
  - simpl. by rewrite app_nil_r.
  - simpl in Hnd, Hids. simpl validRowsFrom.
    destruct (rowTransaction i (trim dataLine)) as [t |] eqn:E.
    + rewrite (importRows_step_row _ _ _ _ _ t) by done.
      rewrite fmap_cons in Hnd. apply NoDup_cons in Hnd as [Hnt Hnd].
      pose proof (Hids t (list_elem_of_here _ _)) as Ht.
      case_bool_decide as Hin.
      * rewrite filter_cons_False by (intros Hn; apply Hn; by apply Ht).
        apply IH; [done |]. intros t' Ht'. apply Hids. by right.
      * rewrite filter_cons_True by (by rewrite <- Ht).
        rewrite IH, <- app_assoc; [done | done |].
        intros t' Ht'. rewrite elem_of_union, elem_of_singleton.
        rewrite (Hids t') by (by right). split; [| by left].
        intros [? | Heq]; [done |]. exfalso. apply Hnt.
        rewrite <- Heq. by apply list_elem_of_fmap_2.
    + rewrite importRows_step_skip by done. by apply IH.
Qed.

(** C5 (as amended): for a text with N valid data rows, N at least 1,
    none of them with an infinite amount, a store that can be read and
    a storage that refuses no write, the first import counts the valid
    rows whose id, the time value of the date followed by the row
    index, is not yet the id of a stored record: it reports success
    with that count when there is such a row, so with count N when no
    id is taken, and the failure of no valid rows otherwise.  Importing
    the same text again reports the failure of no valid rows, with
    count 0, and leaves the store as the first import left it: every
    row's id is by then the id of a stored record. *)
Theorem import_twice (csv : string) (st : Storage) :
  (∀ p, storageAccepts p = true) →
  throws (fst (getTransactions st)) = false →
  validRows csv ≠ [] →
  Forall finiteOrNull (validRows csv) →
  let new := filter (λ t, id t ∉ storedIds st) (validRows csv) in
  ∃ r1 r2 st1,
    importFromCSV csv st = (Return r1, st1)
    ∧ count r1 = length new
    ∧ (success r1 = true ↔ new ≠ [])
    ∧ (Forall (λ t, id t ∉ storedIds st) (validRows csv) →
       success r1 = true ∧ count r1 = length (validRows csv))
    ∧ importFromCSV csv st1 = (Return r2, st1)
    ∧ r2 = noValidRows
    ∧ success r2 = false
    ∧ count r2 = O.
Proof.
  intros Hw Hread Hne Hfinite new.
  destruct (fst (getTransactions st)) as [existing | e] eqn:He; [| done].
  assert (Hlines : (2 ≤ length (csvLines csv))%nat).
  { unfold validRows in Hne. destruct (csvLines csv) as [| h [| x r]];
      simpl in *; try done. lia. }
  assert (Hacc : acceptedRows csv existing = new).
  { unfold acceptedRows.
    rewrite (importRows_filter 0 _ [] _ (list_to_set (id <$> existing)));
      [| apply validRowsFrom_NoDup | done].
    subst new. unfold validRows. simpl. apply list_filter_iff.
    intros t. by rewrite (storedIds_read st existing He), elem_of_list_to_set. }
  assert (Hall : Forall (λ t, id t ∉ storedIds st) (validRows csv) →
                 new = validRows csv).
  { intros Hfresh. subst new. by apply filter_all. }
  destruct (decide (new = [])) as [Hnew | Hnew].
  - exists noValidRows, noValidRows, st.
    assert (Himp : importFromCSV csv st = (Return noValidRows, st)).
    { eapply import_no_rows; [done | done | by rewrite Hacc]. }
    split_and!; try done.
    + by rewrite Hnew.
    + intros Hfresh. by rewrite <- (Hall Hfresh) in Hne.
  - set (st1 := Some (JSON_stringify (sortByDate (existing ++ new)))).
    exists (imported (length new)), noValidRows, st1.
    split_and!; try done.
    + rewrite (import_success csv st existing)
        by (done || (by rewrite Hacc) || apply Hw).
      by rewrite Hacc.
    + intros Hfresh. by rewrite (Hall Hfresh).
    + eapply import_no_rows;
        [done | by subst st1; rewrite getTransactions_stringify |].
      unfold acceptedRows. apply importRows_all_known.
      apply Forall_forall. intros t Ht. rewrite elem_of_list_to_set.
      rewrite <- list_fmap_compose.
      destruct (decide (id t ∈ storedIds st)) as [Hin | Hout].
      * rewrite (storedIds_read st existing He) in Hin.
        apply list_elem_of_fmap in Hin as (t' & Hid & Ht').
        apply list_elem_of_fmap. exists t'. split; [done |].
        rewrite sortByDate_Permutation. apply elem_of_app. by left.
      * apply list_elem_of_fmap. exists t. split; [done |].
        rewrite sortByDate_Permutation. apply elem_of_app. right.
        subst new. by apply list_elem_of_filter.
Qed.

(** ** The merge of an import *)

Lemma persisted_date t : validDate t → date (persisted t) = date t.
Proof.
  intros (x & Hx & Hv). unfold persisted, revive, toJSON. simpl.
  rewrite Hx. simpl. by apply Date_parse_isoString.
Qed.

Lemma persisted_dates l :
  Forall validDate l → date <$> (persisted <$> l) = date <$> l.
Proof.
  intros H. rewrite <- list_fmap_compose. apply Forall_fmap_ext.
  eapply Forall_impl; [exact H |]. intros t Ht. by apply persisted_date.
Qed.

Lemma persisted_sorted l :
  Forall validDate l →
  StronglySorted notLater l → StronglySorted notLater (persisted <$> l).
Proof.
  intros Hv Hs. induction Hs as [| t l Hs IH Ht]; [constructor |].
  apply Forall_cons in Hv as [Hvt Hv].
  rewrite fmap_cons. constructor; [by apply IH |].
  rewrite Forall_fmap. rewrite Forall_forall in Ht, Hv.
  apply Forall_forall. intros u Hu. simpl.
  destruct (Ht u Hu) as (x & y & Hx & Hy & Hle).
  exists x, y. rewrite !persisted_date by auto. done.
Qed.

(** C8: on every successful import into a store that the service has
    produced, the accepted rows are merged with the stored
    transactions, the whole merged list is sorted by ascending date and
    written as the new content of the slot, and the reported count is
    the number of accepted rows only.  The next read returns the
    merged list in that order, and when every accepted row is dated
    before every transaction stored so far, the accepted rows come
    first in it. *)
Theorem import_merges_sorted (csv : string) (st : Storage)
    (r : ImportResult) :
  reachable st →
  fst (importFromCSV csv st) = Return r →
  success r = true →
  ∃ existing,
    let added := acceptedRows csv existing in
    let merged := sortByDate (existing ++ added) in
    let st' := snd (importFromCSV csv st) in
    getTransactions st = (Return existing, st)
    ∧ added ≠ []
    ∧ count r = length added
    ∧ st' = Some (JSON_stringify merged)
    ∧ merged ≡ₚ existing ++ added
    ∧ StronglySorted notLater merged
    ∧ getTransactions st' = (Return (persisted <$> merged), st')
    ∧ id <$> (persisted <$> merged) = id <$> merged
    ∧ date <$> (persisted <$> merged) = date <$> merged
    ∧ StronglySorted notLater (persisted <$> merged)
    ∧ (Forall (λ a, Forall (earlier a) existing) added →
       persisted <$> merged
       = (persisted <$> sortByDate added)
           ++ (persisted <$> sortByDate existing)).
Proof.
  intros Hreach Hr Hs.
  destruct (importFromCSV_case csv st) as (r' & st' & E & Hcase).
  rewrite E in Hr |- *. simpl in Hr. injection Hr as ->.
  destruct Hcase as [| | | | existing Hl He Hrows Hw]; try done.
  destruct (wfStore_read st (reachable_wf st Hreach))
    as (l & El & _ & Hvalid & _).
  rewrite El in He. simpl in He. injection He as ->.
  exists existing. cbv zeta. simpl snd.
  assert (Hv : Forall validDate (existing ++ acceptedRows csv existing)).
  { apply Forall_app. split; [done |].
    eapply Forall_impl; [apply acceptedRows_wf |]. by intros t [_ ?]. }
  assert (Hvm : Forall validDate
                  (sortByDate (existing ++ acceptedRows csv existing))).
  { by rewrite sortByDate_Permutation. }
  split_and!; try done.
  - apply sortByDate_Permutation.
  - by apply sortByDate_sorted.
  - apply getTransactions_stringify.
  - by rewrite <- list_fmap_compose.
  - by apply persisted_dates.
  - apply persisted_sorted; [done | by apply sortByDate_sorted].
  - intros Hearly. by rewrite sortByDate_earlier_first, fmap_app.
Qed.

(** ** Quoted cells *)

(** C3: the description with a comma and a double quote is exported as
    a quoted cell with the inner quote doubled, but parseCSVLine reads
    that cell back without the quote: exporting the store and importing
    the text into an empty slot stores the description without it. *)
Theorem quoted_description_loses_quote :
  let text := "a,b" +:+ String dquote "c" in
  escapeCell text
  = String dquote
      ("a,b" +:+ String dquote (String dquote ("c" +:+ String dquote "")))
  ∧ parseCSVLine (escapeCell text) = ["a,bc"]
  ∧ "a,bc" ≠ text
  ∧ ∃ csv, fst (exportToCSV quotedStore) = Return csv
           ∧ description <$> validRows csv = [Some "a,bc"].
Proof.
  split_and!; [by vm_compute | by vm_compute | done |].
  eexists. split; [vm_compute; reflexivity | vm_compute; reflexivity].
Qed.

(** ** Cells and lines of the export *)

Lemma cellText_app s t : cellText (s +:+ t) = cellText s && cellText t.
Proof.
  induction s as [| c s IH]; [done |].
  rewrite app_String. simpl. by rewrite IH, andb_assoc.
Qed.

Lemma cellChar_digit c : is_digit c = true → cellChar c = true.
Proof. by destruct c as [[] [] [] [] [] [] [] []]. Qed.

Lemma cellText_digits s : all_digits s = true → cellText s = true.
Proof.
  induction s as [| c s IH]; [done |]. simpl.
  intros [Hc Hs]%andb_true_iff. by rewrite cellChar_digit, IH.
Qed.

Lemma cellText_no_ws s : cellText s = true → no_ws s = true.
Proof.
  induction s as [| c s IH]; [done |]. simpl. unfold cellChar.
  rewrite !andb_true_iff. intros [[[-> _] _] Hs]. by rewrite IH.
Qed.

Lemma cellText_includes c s :
  cellChar c = false → cellText s = true → includes c s = false.
Proof.
  intros Hc. induction s as [| x s IH]; [done |]. simpl.
  intros [Hx Hs]%andb_true_iff. rewrite IH by done.
  rewrite orb_false_r. apply ascii_eqb_false. intros ->. congruence.
Qed.

Lemma cellText_plain s : cellText s = true → plain s = true.
Proof.
  intros H. unfold plain. by rewrite !cellText_includes.
Qed.

Lemma escapeCell_plain s : plain s = true → escapeCell s = s.
Proof.
  unfold plain, escapeCell. rewrite !andb_true_iff, !negb_true_iff.
  by intros [[-> ->] ->].
Qed.

Lemma cellText_isoYear y : cellText (isoYear y) = true.
Proof.
  unfold isoYear. destruct ((0 <=? y) && (y <=? 9999)).
  - apply cellText_digits, pad_all_digits.
  - simpl. rewrite cellText_digits by apply pad_all_digits.
    by destruct (y <? 0).
Qed.

Lemma cellText_isoDate t : cellText (isoDate t) = true.
Proof.
  unfold isoDate.
  by rewrite !cellText_app, cellText_isoYear,
    !(cellText_digits (pad _ _)) by apply pad_all_digits.
Qed.

Lemma cellText_zeros m : cellText (zeros m) = true.
Proof. apply cellText_digits, zeros_digits. Qed.

Lemma cellText_toString x :
  wfNumber x = true → cellText (Number_toString x) = true.
Proof.
  destruct x as [| [] | | neg d n]; try done.
  intros [(Hd & _) _]%wfNumber_Finite.
  unfold Number_toString. rewrite cellText_app.
  apply andb_true_iff. split; [by destruct neg |].
  repeat case_match; rewrite ?cellText_app, ?cellText_zeros;
    rewrite ?(cellText_digits (show_N _)) by apply show_N_digits;
    rewrite ?(cellText_digits (str_take _ _)) by (by apply all_digits_str_take);
    rewrite ?(cellText_digits (str_drop _ _)) by (by apply all_digits_str_drop);
    rewrite ?(cellText_digits d) by done; try done.
  - subst. simpl in Hd. apply andb_true_iff in Hd as [Hc _].
    simpl. by rewrite cellChar_digit.
  - subst. simpl in Hd. apply andb_true_iff in Hd as [Hc _].
    simpl. by rewrite cellChar_digit.
  - subst. simpl in Hd. apply andb_true_iff in Hd as [Hc Hr].
    simpl in *. apply andb_true_iff in Hr as [Hc' Hr].
    by rewrite !cellChar_digit, cellText_digits.
  - subst. simpl in Hd. apply andb_true_iff in Hd as [Hc Hr].
    simpl in *. apply andb_true_iff in Hr as [Hc' Hr].
    by rewrite !cellChar_digit, cellText_digits.
Qed.

Lemma cellText_typeString ty : cellText (typeString ty) = true.
Proof. by destruct ty. Qed.

(** ** Reading an exported line *)

Lemma trimEnd_cons c s :
  is_ws c = false → trimEnd (String c s) = String c (trimEnd s).
Proof. intros Hc. simpl. rewrite Hc. by destruct (trimEnd s). Qed.

Lemma trimEnd_no_ws_prefix p s :
  no_ws p = true → trimEnd (p +:+ s) = p +:+ trimEnd s.
Proof.
  induction p as [| c p IH]; [done |].
  intros H. simpl in H. apply andb_true_iff in H as [Hc Hp].
  apply negb_true_iff in Hc.
  by rewrite !app_String, trimEnd_cons, IH.
Qed.

Lemma trim_no_ws_prefix c p s :
  is_ws c = false → no_ws p = true →
  trim (String c p +:+ s) = String c p +:+ trimEnd s.
Proof.
  intros Hc Hp. unfold trim.
  rewrite trimEnd_no_ws_prefix by (by simpl; rewrite Hc, Hp).
  rewrite app_String. simpl. by rewrite Hc.
Qed.

Lemma parseCSVLine_from_result line result current inQuotes :
  parseCSVLine_from line result current inQuotes
  = result ++ parseCSVLine_from line [] current inQuotes.
Proof.
  revert result current inQuotes.
  induction line as [| c line IH]; intros result current inQuotes; [done |].
  simpl. repeat case_match; try apply IH.
  rewrite (IH (result ++ _)), (IH [trim current]). by rewrite <- app_assoc.
Qed.

Lemma parseCSVLine_from_nonempty line result current inQuotes :
  parseCSVLine_from line result current inQuotes ≠ [].
Proof.
  revert result current inQuotes.
  induction line as [| c line IH]; intros result current inQuotes.
  - simpl. by destruct result.
  - simpl. repeat case_match; apply IH.
Qed.

(** A cell without white space, comma or quote, up to its comma. *)
Lemma parseCSVLine_from_cell cell rest result current :
  cellText cell = true →
  parseCSVLine_from (cell +:+ rest) result current false
  = parseCSVLine_from rest result (current +:+ cell) false.
Proof.
  revert current. induction cell as [| c cell IH]; intros current.
  - intros _. by rewrite app_empty_l, app_empty_r.
  - intros H. simpl in H. unfold cellChar in H.
    rewrite !andb_true_iff, !negb_true_iff in H.
    destruct H as [[[_ Hcomma] Hquote] Hcell].
    rewrite app_String. simpl. rewrite Hquote, Hcomma. simpl.
    rewrite IH by done. by rewrite str_app_assoc.
Qed.

Lemma parseCSVLine_cell cell rest :
  cellText cell = true →
  parseCSVLine (cell +:+ String comma rest) = cell :: parseCSVLine rest.
Proof.
  intros H. unfold parseCSVLine.
  rewrite parseCSVLine_from_cell by done. simpl.
  rewrite parseCSVLine_from_result. simpl.
  by rewrite trim_no_ws by (by apply cellText_no_ws).
Qed.

Lemma truthy_trim c s : is_ws c = false → truthy_string (trim (String c s)) = true.
Proof.
  intros Hc. unfold trim. rewrite trimEnd_cons by done. simpl. by rewrite Hc.
Qed.

Lemma cellText_head s :
  cellText s = true → s ≠ "" →
  ∃ c r, s = String c r ∧ is_ws c = false ∧ no_ws r = true.
Proof.
  destruct s as [| c r]; [done |]. intros H _. exists c, r.
  apply cellText_no_ws in H. simpl in H.
  apply andb_true_iff in H as [Hc%negb_true_iff Hr]. done.
Qed.

Lemma isoDate_nonempty t : isoDate t ≠ "".
Proof.
  unfold isoDate. intros H. apply (f_equal String.length) in H.
  rewrite !str_length_app, !pad_length in H. simpl in H. lia.
Qed.

Lemma no_ws_app s t : no_ws (s +:+ t) = no_ws s && no_ws t.
Proof.
  induction s as [| c s IH]; [done |].
  rewrite app_String. simpl. by rewrite IH, andb_assoc.
Qed.

Ltac str_norm :=
  repeat first [ rewrite str_app_assoc | rewrite app_String
               | rewrite app_empty_l ].

(** The row that the import builds from an exported line. *)
Lemma rowTransaction_exportLine i time x ty text :
  validTime time → is_finite x = true → wfNumber x = true →
  ∃ text',
    rowTransaction i (trim (exportLine time x ty text))
    = Some {| id := show_Z (Day time * msPerDay) +:+ "-"
                    +:+ show_N (N.of_nat i);
              date := Some (Day time * msPerDay);
              amount := Some x;
              type := ty;
              description := text' |}.
Proof.
  intros Hv Hf Hx. unfold exportLine.
  destruct (cellText_head (isoDate time)) as (c & r & Ed & Hc & Hr);
    [apply cellText_isoDate | apply isoDate_nonempty |].
  assert (Hp : ∀ s,
    isoDate time +:+ "," +:+ Number_toString x +:+ "," +:+ typeString ty
      +:+ "," +:+ s
    = String c (r +:+ "," +:+ Number_toString x +:+ "," +:+ typeString ty
                  +:+ ",") +:+ s).
  { intros s. rewrite Ed. by str_norm. }
  rewrite Hp, trim_no_ws_prefix, <- Hp; [| done |].
  2:{ rewrite !no_ws_app, Hr.
      rewrite (cellText_no_ws (Number_toString x))
        by (by apply cellText_toString).
      by rewrite (cellText_no_ws (typeString ty))
        by apply cellText_typeString. }
  unfold rowTransaction.
  change "," with (String comma "").
  rewrite !app_String, !app_empty_l.
  rewrite !parseCSVLine_cell
    by (apply cellText_isoDate || (by apply cellText_toString)
        || apply cellText_typeString).
  destruct (parseCSVLine (trimEnd text)) as [| c4 tail] eqn:E4.
  { by apply parseCSVLine_from_nonempty in E4. }
  simpl. rewrite Date_parse_isoDate, parseFloat_toString by done.
  destruct x as [| neg | | neg d n]; try done; destruct ty; eauto.
Qed.

(** ** Export, then import *)

Lemma exportable_inv t :
  exportable t = true →
  ∃ time x, date t = Some time ∧ amount t = Some x ∧ validTime time
            ∧ is_finite x = true ∧ wfNumber x = true
            ∧ plain (default "" (description t)) = true.
Proof.
  unfold exportable, validTime.
  destruct (date t) as [time |], (amount t) as [x |]; try done.
  rewrite !andb_true_iff. intros [[[Hv%Z.leb_le ?] ?] ?].
  exists time, x. by split_and!.
Qed.

Lemma exportRows_exportable l :
  Forall (λ t, exportable t = true) l →
  ∃ rows, exportRows l = Return rows
          ∧ (λ row, join "," (escapeCell <$> row)) <$> rows = lineOf <$> l.
Proof.
  induction 1 as [| t l Ht Hl (rows & Er & Erows)]; [by exists [] |].
  destruct (exportable_inv t Ht) as (time & x & Hd & Ha & Hv & Hf & Hx & Hp).
  eexists. simpl. unfold exportRow. rewrite Hd, Ha, Er.
  split; [done |]. rewrite fmap_cons, Erows. f_equal.
  rewrite isoString_date_part. unfold lineOf, exportLine. rewrite Hd, Ha.
  simpl.
  rewrite (escapeCell_plain (isoDate time))
    by apply cellText_plain, cellText_isoDate.
  rewrite (escapeCell_plain (Number_toString x))
    by (by apply cellText_plain, cellText_toString).
  rewrite (escapeCell_plain (typeString _))
    by apply cellText_plain, cellText_typeString.
  by rewrite (escapeCell_plain (default "" _)).
Qed.

Lemma exportToCSV_exportable st l :
  fst (getTransactions st) = Return l →
  Forall (λ t, exportable t = true) l →
  exportToCSV st = (Return (lines (headerLine :: (lineOf <$> l))), st).
Proof.
  intros El Hl. unfold exportToCSV, bind.
  rewrite getTransactions_eta, El.
  destruct (exportRows_exportable l Hl) as (rows & -> & Erows).
  unfold lift, ret. by rewrite Erows.
Qed.

Lemma lineOf_exportable t :
  exportable t = true →
  includes newline (lineOf t) = false
  ∧ truthy_string (trim (lineOf t)) = true.
Proof.
  intros (time & x & Hd & Ha & Hv & Hf & Hx & Hp)%exportable_inv.
  unfold lineOf, exportLine. rewrite Hd, Ha. split.
  - rewrite !includes_app.
    rewrite (cellText_includes _ (isoDate time))
      by (done || apply cellText_isoDate).
    rewrite (cellText_includes _ (Number_toString x))
      by (done || by apply cellText_toString).
    rewrite (cellText_includes _ (typeString _))
      by (done || apply cellText_typeString).
    unfold plain in Hp. rewrite !andb_true_iff, !negb_true_iff in Hp.
    destruct Hp as [_ ->]. done.
  - destruct (cellText_head (isoDate time)) as (c & r & -> & Hc & _);
      [apply cellText_isoDate | apply isoDate_nonempty |].
    rewrite app_String. by apply truthy_trim.
Qed.

Lemma csvLines_exported l :
  Forall (λ t, exportable t = true) l →
  csvLines (lines (headerLine :: (lineOf <$> l))) = headerLine :: (lineOf <$> l).
Proof.
  intros Hl. unfold csvLines, lines.
  rewrite split_join; [| done |].
  - apply filter_all. constructor; [done |].
    rewrite Forall_fmap. eapply Forall_impl; [exact Hl |].
    intros t Ht. by apply lineOf_exportable.
  - constructor; [done |].
    rewrite Forall_fmap. eapply Forall_impl; [exact Hl |].
    intros t Ht. by apply lineOf_exportable.
Qed.

Lemma validRowsFrom_exported i l :
  Forall (λ t, exportable t = true) l →
  Forall2 carriedOver l (validRowsFrom i (lineOf <$> l)).
Proof.
  intros Hl. revert i. induction Hl as [| t l Ht Hl IH]; intros i;
    [constructor |].
  destruct (exportable_inv t Ht) as (time & x & Hd & Ha & Hv & Hf & Hx & Hp).
  rewrite fmap_cons. simpl. unfold lineOf at 1. rewrite Hd, Ha.
  destruct (rowTransaction_exportLine i time x (type t)
              (default "" (description t)) Hv Hf Hx) as (text' & ->).
  constructor; [| apply IH].
  unfold carriedOver, core, startOfDay, validDate, finiteOrNull. simpl.
  rewrite Hd, Ha. simpl. split_and!; [done | | done].
  eexists. split; [done |]. by apply Day_start_valid.
Qed.

Lemma insertByDate_related (R : Transaction → Transaction → Prop) a b l1 l2 :
  (∀ x y, R x y → date x = date y) →
  R a b → Forall2 R l1 l2 →
  Forall2 R (insertByDate a l1) (insertByDate b l2).
Proof.
  intros HR Hab H. induction H as [| x y l1 l2 Hxy H IH]; simpl.
  - by repeat constructor.
  - unfold sortsAfter. rewrite (HR a b Hab), (HR x y Hxy).
    fold (sortsAfter b y). destruct (sortsAfter b y); by repeat constructor.
Qed.

Lemma sortByDate_related (R : Transaction → Transaction → Prop) l1 l2 :
  (∀ x y, R x y → date x = date y) →
  Forall2 R l1 l2 → Forall2 R (sortByDate l1) (sortByDate l2).
Proof.
  intros HR H. induction H as [| x y l1 l2 Hxy H IH]; simpl; [constructor |].
  by apply insertByDate_related.
Qed.

Lemma persisted_core t :
  validDate t → finiteOrNull t → core (persisted t) = core t.
Proof.
  intros Hv Hf. unfold core. rewrite persisted_date by done.
  unfold persisted, revive, toJSON, finiteOrNull in *. simpl.
  destruct (amount t) as [x |]; [| done]. by rewrite Hf.
Qed.

Lemma carriedOver_valid l rows :
  Forall2 carriedOver l rows →
  Forall (λ r, validDate r ∧ finiteOrNull r) rows.
Proof.
  induction 1 as [| t r l rows (_ & ? & ?) _ IH]; by constructor.
Qed.

Lemma same_core_fmap l1 l2 :
  Forall2 (λ a b, core a = core b) l1 l2 → core <$> l1 = core <$> l2.
Proof.
  induction 1 as [| a b l1 l2 Hab _ IH]; [done |].
  by rewrite !fmap_cons, Hab, IH.
Qed.

(** C6 (as amended): for every non-empty stored list of transactions
    with valid dates, finite amounts and descriptions without comma,
    double quote or line feed, the export succeeds, and importing the
    exported text into an empty slot, with a storage that refuses no
    write, succeeds and stores as many transactions, with the same
    amounts and types and with the dates cut down to the start of
    their day, in ascending order of these dates. *)
Theorem export_import_round_trip (st : Storage) (l : list Transaction) :
  (∀ p, storageAccepts p = true) →
  fst (getTransactions st) = Return l →
  l ≠ [] →
  Forall (λ t, exportable t = true) l →
  ∃ csv stored,
    exportToCSV st = (Return csv, st)
    ∧ fst (importFromCSV csv None) = Return (imported (length l))
    ∧ fst (getTransactions (snd (importFromCSV csv None))) = Return stored
    ∧ length stored = length l
    ∧ core <$> stored = core <$> sortByDate (startOfDay <$> l)
    ∧ core <$> stored ≡ₚ core <$> (startOfDay <$> l).
Proof.
  intros Hw El Hne Hl.
  set (csv := lines (headerLine :: (lineOf <$> l))).
  set (rows := validRowsFrom 0 (lineOf <$> l)).
  pose proof (validRowsFrom_exported 0 l Hl) as Hrows. fold rows in Hrows.
  assert (Hlen : length rows = length l)
    by (symmetry; by eapply Forall2_length).
  assert (Hlines : csvLines csv = headerLine :: (lineOf <$> l))
    by (by apply csvLines_exported).
  assert (Hacc : acceptedRows csv [] = rows).
  { unfold acceptedRows. rewrite Hlines. simpl drop.
    rewrite importRows_all_fresh; [done | apply validRowsFrom_NoDup |].
    apply Forall_forall. intros t _. simpl. apply not_elem_of_empty. }
  assert (Himp : importFromCSV csv None
                 = (Return (imported (length rows)),
                    Some (JSON_stringify (sortByDate ([] ++ rows))))).
  { rewrite <- Hacc. apply import_success; [| done | | apply Hw].
    - rewrite Hlines. destruct l; [done |]. simpl. lia.
    - rewrite Hacc. intros E. rewrite E in Hlen. by destruct l. }
  assert (Hcore : core <$> (persisted <$> sortByDate rows)
                  = core <$> sortByDate (startOfDay <$> l)).
  { rewrite <- list_fmap_compose.
    transitivity (core <$> sortByDate rows).
    - apply Forall_fmap_ext. rewrite sortByDate_Permutation.
      eapply Forall_impl; [apply (carriedOver_valid l rows Hrows) |].
      intros r [? ?]. by apply persisted_core.
    - apply same_core_fmap, sortByDate_related.
      + by intros x y [= -> _ _].
      + apply Forall2_fmap_r, Forall2_flip.
        eapply Forall2_impl; [exact Hrows |]. by intros t r [? _]. }
  exists csv, (persisted <$> sortByDate rows).
  rewrite Himp. cbn [fst snd app].
  rewrite getTransactions_stringify. cbn [fst].
  split_and!.
  - by apply exportToCSV_exportable.
  - by rewrite Hlen.
  - done.
  - by rewrite length_fmap, sortByDate_length.
  - done.
  - by rewrite Hcore, sortByDate_Permutation.
Qed.

(** ** The cells of a line *)

Lemma trimEnd_fixed c s :
  trimEnd (String c s) = String c s → s = "" ∨ trimEnd s = s.
Proof.
  simpl. destruct (trimEnd s) as [| c' r'] eqn:E.
  - destruct (is_ws c); [done |]. intros [= <-]. by left.
  - intros [= <-]. by right.
Qed.

Lemma trimEnd_idem s : trimEnd (trimEnd s) = trimEnd s.
Proof.
  induction s as [| c s IH]; [done |]. simpl.
  destruct (trimEnd s) as [| c' r'] eqn:E.
  - destruct (is_ws c) eqn:Ec; [done |]. simpl. by rewrite Ec.
  - simpl in *. by rewrite IH.
Qed.

Lemma trimEnd_trimStart s : trimEnd s = s → trimEnd (trimStart s) = trimStart s.
Proof.
  induction s as [| c s IH]; [done |]. intros H. simpl trimStart.
  destruct (is_ws c) eqn:Ec; [| done].
  destruct (trimEnd_fixed c s H) as [-> | Hs]; [done | by apply IH].
Qed.

Lemma trimStart_idem s : trimStart (trimStart s) = trimStart s.
Proof.
  induction s as [| c s IH]; [done |]. simpl.
  destruct (is_ws c) eqn:Ec; [done |]. simpl. by rewrite Ec.
Qed.

Lemma trim_idem s : trim (trim s) = trim s.
Proof.
  unfold trim.
  rewrite trimEnd_trimStart by apply trimEnd_idem. apply trimStart_idem.
Qed.

Lemma includes_trimStart c s :
  includes c s = false → includes c (trimStart s) = false.
Proof.
  induction s as [| x s IH]; [done |]. simpl.
  intros [Hx Hs]%orb_false_iff. destruct (is_ws x); [by apply IH |].
  simpl. by rewrite Hx, Hs.
Qed.

Lemma includes_trimEnd c s :
  includes c s = false → includes c (trimEnd s) = false.
Proof.
  induction s as [| x s IH]; [done |]. simpl.
  intros [Hx Hs]%orb_false_iff. specialize (IH Hs).
  destruct (trimEnd s) as [| c' r'].
  - destruct (is_ws x); [done |]. simpl. by rewrite Hx.
  - simpl in *. by rewrite Hx, IH.
Qed.

Lemma includes_trim c s : includes c s = false → includes c (trim s) = false.
Proof. intros H. by apply includes_trimStart, includes_trimEnd. Qed.

Lemma split_nonempty c s : split c s ≠ [].
Proof.
  destruct s as [| x s]; [done |]. simpl.
  destruct (ascii_eqb x c); [done |]. by destruct (split c s).
Qed.

(** The cell in progress never holds a double quote, and what is
    pushed is trimmed. *)
Lemma parseCSVLine_from_cells line result current inQuotes :
  Forall (λ cell, includes dquote cell = false ∧ trim cell = cell) result →
  includes dquote current = false →
  Forall (λ cell, includes dquote cell = false ∧ trim cell = cell)
    (parseCSVLine_from line result current inQuotes).
Proof.
  revert result current inQuotes.
  induction line as [| c line IH]; intros result current inQuotes Hr Hc.
  - simpl. apply Forall_app. split; [done |].
    constructor; [| done]. split; [by apply includes_trim | apply trim_idem].
  - simpl. destruct (ascii_eqb c dquote) eqn:Eq; [by apply IH |].
    destruct (ascii_eqb c comma && negb inQuotes).
    + apply IH; [| done]. apply Forall_app. split; [done |].
      constructor; [| done].
      split; [by apply includes_trim | apply trim_idem].
    + apply IH; [done |]. rewrite includes_app, Hc. simpl. by rewrite Eq.
Qed.

(** Outside quotes, the scanner splits at the commas. *)
Lemma parseCSVLine_from_split line result current :
  includes dquote line = false →
  parseCSVLine_from line result current false
  = result ++ (trim <$> match split comma line with
                        | h :: t => (current +:+ h) :: t
                        | [] => [current]
                        end).
Proof.
  revert result current.
  induction line as [| c line IH]; intros result current H.
  - simpl. by rewrite app_empty_r.
  - simpl in H. apply orb_false_iff in H as [Hq Hl]. simpl.
    rewrite Hq. destruct (ascii_eqb c comma) eqn:Ec; simpl.
    + rewrite IH by done. rewrite app_empty_r, <- app_assoc. simpl.
      destruct (split comma line) eqn:Es; [by apply split_nonempty in Es |].
      done.
    + rewrite IH by done.
      destruct (split comma line) eqn:Es; [by apply split_nonempty in Es |].
      by rewrite str_app_assoc.
Qed.

(** X1: parseCSVLine returns at least one cell, each cell trimmed and free
    of double quotes, whatever the line; a line without a double quote
    is split at its commas, so it has one cell more than it has
    commas. *)
Theorem parseCSVLine_cells (line : string) :
  parseCSVLine line ≠ []
  ∧ Forall (λ cell, includes dquote cell = false ∧ trim cell = cell)
      (parseCSVLine line)
  ∧ (includes dquote line = false →
     parseCSVLine line = trim <$> split comma line).
Proof.
  unfold parseCSVLine. split_and!.
  - apply parseCSVLine_from_nonempty.
  - by apply parseCSVLine_from_cells.
  - intros H. rewrite parseCSVLine_from_split by done. simpl.
    destruct (split comma line) eqn:Es; [by apply split_nonempty in Es |].
    done.
Qed.

(** Between quotes, an escaped text is read without its quotes. *)
Lemma parseCSVLine_from_quoted cell rest result current :
  parseCSVLine_from (double_quotes cell +:+ rest) result current true
  = parseCSVLine_from rest result (current +:+ without_quotes cell) true.
Proof.
  revert current. induction cell as [| c cell IH]; intros current.
  - simpl. by rewrite app_empty_r.
  - simpl. destruct (ascii_eqb c dquote) eqn:Eq.
    + rewrite !app_String. simpl. rewrite ?ascii_eqb_refl. simpl. apply IH.
    + rewrite app_String. simpl. rewrite Eq, andb_false_r.
      rewrite IH. by rewrite str_app_assoc.
Qed.

Lemma parseCSVLine_from_unquoted cell rest result current :
  includes comma cell = false → includes dquote cell = false →
  parseCSVLine_from (cell +:+ rest) result current false
  = parseCSVLine_from rest result (current +:+ cell) false.
Proof.
  revert current. induction cell as [| c cell IH]; intros current Hc Hq.
  - by rewrite app_empty_l, app_empty_r.
  - simpl in Hc, Hq.
    apply orb_false_iff in Hc as [Hc Hc'].
    apply orb_false_iff in Hq as [Hq Hq'].
    rewrite app_String. simpl. rewrite Hq, Hc. simpl.
    rewrite IH by done. by rewrite str_app_assoc.
Qed.

Lemma without_quotes_none s : includes dquote s = false → without_quotes s = s.
Proof.
  induction s as [| c s IH]; [done |]. simpl.
  intros [Hc Hs]%orb_false_iff. by rewrite Hc, IH.
Qed.

Lemma parseCSVLine_from_escaped cell rest result current :
  parseCSVLine_from (escapeCell cell +:+ rest) result current false
  = parseCSVLine_from rest result (current +:+ without_quotes cell) false.
Proof.
  unfold escapeCell.
  destruct (includes comma cell || includes dquote cell
            || includes newline cell) eqn:E.
  - rewrite app_String, str_app_assoc. simpl.
    rewrite parseCSVLine_from_quoted. rewrite app_String. simpl.
    by rewrite ?ascii_eqb_refl.
  - apply orb_false_iff in E as [[Hc Hq]%orb_false_iff _].
    rewrite parseCSVLine_from_unquoted by done.
    by rewrite without_quotes_none.
Qed.

Lemma parseCSVLine_from_comma rest result current :
  parseCSVLine_from ("," +:+ rest) result current false
  = parseCSVLine_from rest (result ++ [trim current]) "" false.
Proof. done. Qed.

Lemma parseCSVLine_from_escaped_row cell row result :
  parseCSVLine_from (join "," (escapeCell <$> (cell :: row))) result "" false
  = result ++ ((λ c, trim (without_quotes c)) <$> (cell :: row)).
Proof.
  revert cell result. induction row as [| cell' row IH]; intros cell result.
  - simpl. rewrite <- (app_empty_r (escapeCell cell)).
    by rewrite parseCSVLine_from_escaped.
  - change (join "," (escapeCell <$> (cell :: cell' :: row)))
      with (escapeCell cell +:+ ","
            +:+ join "," (escapeCell <$> (cell' :: row))).
    rewrite parseCSVLine_from_escaped, parseCSVLine_from_comma, IH.
    by rewrite <- app_assoc.
Qed.

(** X2: a row of cells written as exportToCSV writes it, each cell escaped
    and the cells joined by commas, is read by parseCSVLine as the same
    number of cells: each cell comes back without its double quotes
    and trimmed, commas and line feeds kept.  Cells that have no
    double quote and no white space at either end come back as they
    were. *)
Theorem parseCSVLine_escaped_row (row : list string) :
  row ≠ [] →
  parseCSVLine (join "," (escapeCell <$> row))
  = (λ cell, trim (without_quotes cell)) <$> row
  ∧ (Forall (λ cell, includes dquote cell = false ∧ trim cell = cell) row →
     parseCSVLine (join "," (escapeCell <$> row)) = row).
Proof.
  intros Hne. destruct row as [| cell row]; [done |].
  unfold parseCSVLine. rewrite parseCSVLine_from_escaped_row, app_nil_l.
  split; [done |]. intros H.
  etrans; [| apply list_fmap_id].
  apply Forall_fmap_ext. eapply Forall_impl; [exact H |].
  intros c [Hq Ht]. simpl. by rewrite without_quotes_none.
Qed.

(** ** What is written and what is read back *)

Lemma persisted_fixed t : validDate t → finiteOrNull t → persisted t = t.
Proof.
  intros Hv Hf. pose proof (persisted_date t Hv) as Hd.
  destruct t as [i d a ty de].
  unfold persisted, revive, toJSON, finiteOrNull in *. simpl in *.
  f_equal; [done |]. destruct a as [x |]; [| done]. by rewrite Hf.
Qed.

Lemma persisted_fixed_list l :
  Forall (λ t, validDate t ∧ finiteOrNull t) l → persisted <$> l = l.
Proof.
  intros H. etrans; [| apply list_fmap_id].
  apply Forall_fmap_ext. eapply Forall_impl; [exact H |].
  intros t [? ?]. by apply persisted_fixed.
Qed.

(** X3: a list of transactions written to the slot is read back with as
    many records, in the same order, each with its id, type and
    description.  A valid date and a finite amount come back as they
    were; an invalid date comes back as the epoch and an amount that
    is not finite as null.  So a list of transactions with valid dates
    and finite amounts is read back as it was written. *)
Theorem stored_list_round_trip (l : list Transaction) :
  ∃ stored,
    getTransactions (Some (JSON_stringify l))
    = (Return stored, Some (JSON_stringify l))
    ∧ Forall2 (λ t r,
         id r = id t ∧ type r = type t ∧ description r = description t
         ∧ (validDate t → date r = date t)
         ∧ (date t = None → date r = Some 0)
         ∧ (finiteOrNull t → amount r = amount t)
         ∧ (∀ x, amount t = Some x → is_finite x = false → amount r = None))
        l stored
    ∧ (Forall (λ t, validDate t ∧ finiteOrNull t) l → stored = l).
Proof.
  exists (persisted <$> l). split_and!.
  - apply getTransactions_stringify.
  - apply Forall2_fmap_r, Forall_Forall2_diag, Forall_forall.
    intros t _. split_and!; try done.
    + apply persisted_date.
    + unfold persisted, revive, toJSON. simpl. by intros ->.
    + unfold persisted, revive, toJSON, finiteOrNull. simpl.
      destruct (amount t) as [x |]; [| done]. by intros ->.
    + unfold persisted, revive, toJSON. simpl. by intros x -> ->.
  - apply persisted_fixed_list.
Qed.

Lemma addTransaction_reachable st l idNow dateNow amount ty description :
  reachable st →
  (∀ p, storageAccepts p = true) →
  fst (getTransactions st) = Return l →
  validTime dateNow →
  is_finite amount = true →
  ∃ st',
    addTransaction idNow dateNow amount ty description st = (Return tt, st')
    ∧ getTransactions st'
      = (Return (l ++ [ {| id := show_Z idNow;
                           date := Some dateNow;
                           amount := Some amount;
                           type := ty;
                           description := trimmedOrUndefined description |} ]),
         st').
Proof.
  intros Hr Hw El Hv Hf.
  destruct (wfStore_read st (reachable_wf st Hr)) as (l' & El' & _ & Hd & Ha).
  rewrite El' in El. simpl in El. injection El as ->.
  unfold addTransaction, bind, setItem. rewrite El', Hw.
  eexists. split; [done |].
  rewrite getTransactions_stringify. f_equal. f_equal.
  rewrite TimeClip_valid by done.
  apply persisted_fixed_list, Forall_app. split.
  - apply Forall_forall. intros t Ht. rewrite Forall_forall in Hd, Ha. auto.
  - constructor; [| done]. split; [by exists dateNow | done].
Qed.

(** X4: an append to a store that the service has produced, taken by the
    storage, at a clock reading that is a valid time and with a finite
    amount: the next read returns the transactions that were stored,
    unchanged and in the same order, followed by the new one, which
    has the clock readings as id and date and the description
    trimmed, or none when nothing is left of it. *)
Theorem addTransaction_then_read (st : Storage) (l : list Transaction)
    (idNow dateNow : Z) (amount : JSNumber) (type : TransactionType)
    (description : option string) :
  reachable st →
  (∀ p, storageAccepts p = true) →
  fst (getTransactions st) = Return l →
  validTime dateNow →
  is_finite amount = true →
  let st' := snd (addTransaction idNow dateNow amount type description st) in
  fst (addTransaction idNow dateNow amount type description st) = Return tt
  ∧ getTransactions st'
    = (Return (l ++ [ {| id := show_Z idNow;
                         date := Some dateNow;
                         amount := Some amount;
                         type := type;
                         description := trimmedOrUndefined description |} ]),
       st').
Proof.
  intros Hr Hw El Hv Hf.
  destruct (addTransaction_reachable st l idNow dateNow amount type
              description Hr Hw El Hv Hf) as (st' & Eadd & Eread).
  cbv zeta. by rewrite Eadd.
Qed.

(** ** A slot that cannot be read *)

(** X5: when the read of the slot throws, an append and an export throw the
    same error and an import reports it in its message, each leaving
    the slot as it is; an import of a text with fewer than two lines
    does not get to the read.  A clear does not read the slot: after
    it the read returns the empty list, and clearData, once confirmed,
    shows the empty list. *)
Theorem unreadable_store (st : Storage) (e : Error) :
  fst (getTransactions st) = Throw e →
  (∀ idNow dateNow amount type description,
     addTransaction idNow dateNow amount type description st = (Throw e, st))
  ∧ exportToCSV st = (Throw e, st)
  ∧ (∀ csv, (2 ≤ length (csvLines csv))%nat →
            importFromCSV csv st = (Return (importError e), st))
  ∧ (∀ csv, (length (csvLines csv) < 2)%nat →
            importFromCSV csv st = (Return tooFewLines, st))
  ∧ clearTransactions st = (Return tt, None)
  ∧ getTransactions (snd (clearTransactions st)) = (Return [], None)
  ∧ (∀ c, ∃ c', clearData true c st = (Return c', None)
                ∧ transactions c' = []).
Proof.
  intros He. split_and!; try done; try (by eexists).
  - intros. unfold addTransaction, bind. by rewrite getTransactions_eta, He.
  - unfold exportToCSV, bind. by rewrite getTransactions_eta, He.
  - intros csv H. by apply import_read_error.
  - intros csv H. by apply import_few_lines.
Qed.

(** ** The export *)

Lemma exportRows_outcomes l :
  match exportRows l with
  | Return rows =>
      length rows = length l
      ∧ Forall (λ t, date t ≠ None ∧ amount t ≠ None) l
  | Throw _ => Exists (λ t, date t = None ∨ amount t = None) l
  end.
Proof.
  induction l as [| t l IH]; [done |]. simpl. unfold exportRow.
  destruct (date t) as [time |] eqn:Ed; [| left; by left].
  destruct (amount t) as [x |] eqn:Ea; [| left; by right].
  destruct (exportRows l) as [rows | e].
  - destruct IH as [Hlen Hall]. simpl. split; [by rewrite Hlen |].
    constructor; [| done]. by rewrite Ed, Ea.
  - by right.
Qed.

(** X6: exportToCSV never changes the slot.  On a slot that can be read it
    throws exactly when a record has an invalid date or a null amount;
    otherwise the text is the header line followed by one row for
    each record, and the header line alone when nothing is stored. *)
Theorem exportToCSV_outcomes (st : Storage) (l : list Transaction) :
  fst (getTransactions st) = Return l →
  snd (exportToCSV st) = st
  ∧ (throws (fst (exportToCSV st)) = true
     ↔ Exists (λ t, date t = None ∨ amount t = None) l)
  ∧ (∀ csv, fst (exportToCSV st) = Return csv →
       ∃ rows, csv = lines (headerLine :: rows) ∧ length rows = length l)
  ∧ (l = [] → fst (exportToCSV st) = Return headerLine).
Proof.
  intros El. unfold exportToCSV, bind, lift, ret.
  rewrite getTransactions_eta, El.
  pose proof (exportRows_outcomes l) as H.
  destruct (exportRows l) as [rows | e] eqn:Er; cbn [fst snd throws].
  - destruct H as [Hlen Hall]. split_and!; try done.
    + split; [done |]. intros Hex. exfalso.
      rewrite Forall_forall in Hall. apply Exists_exists in Hex
        as (t & Ht & [Hd | Ha]); by destruct (Hall t Ht).
    + intros csv [= <-]. eexists. split; [done |].
      by rewrite length_fmap.
    + intros ->. by injection Er as <-.
  - split_and!; try done. intros ->. done.
Qed.

(** ** The result of an import *)

Lemma validRowsFrom_length i lines :
  (length (validRowsFrom i lines) ≤ length lines)%nat.
Proof.
  revert i. induction lines as [| dataLine rest IH]; intros i; [done |].
  simpl. destruct (rowTransaction i (trim dataLine)); simpl;
    specialize (IH (S i)); lia.
Qed.

Lemma acceptedRows_length csv existing :
  (length (acceptedRows csv existing) ≤ length (csvLines csv) - 1)%nat.
Proof.
  unfold acceptedRows.
  etrans; [apply sublist_length, importRows_sublist |].
  etrans; [apply validRowsFrom_length |].
  rewrite length_drop. lia.
Qed.

(** X7: importFromCSV never throws: it returns a result, which reports
    success exactly when its count is not zero.  The count is at most
    the number of lines of the text that are not blank, less the
    header line.  On success the result is the one that announces
    count transactions, and the slot holds count records more than
    before. *)
Theorem importFromCSV_result (csv : string) (st : Storage) :
  ∃ r st',
    importFromCSV csv st = (Return r, st')
    ∧ (success r = true ↔ (0 < count r)%nat)
    ∧ (count r ≤ length (csvLines csv) - 1)%nat
    ∧ (success r = true →
       r = imported (count r)
       ∧ length (storedIds st') = (length (storedIds st) + count r)%nat).
Proof.
  destruct (importFromCSV_case csv st) as (r & st' & E & Hcase).
  exists r, st'. split; [done |].
  destruct Hcase as [| | | | existing Hl He Hne Hw]; simpl;
    try (split_and!; [split; [done | lia] | lia | done]).
  pose proof (acceptedRows_length csv existing) as Hlen.
  split_and!; try done.
  - split; [| done]. intros _.
    destruct (acceptedRows csv existing); [done | simpl; lia].
  - rewrite storedIds_stringify, (storedIds_read st existing He).
    rewrite !length_fmap, sortByDate_length, length_app. done.
Qed.

(** ** The lines of the text *)

Lemma importRows_trim i l1 l2 acc ids :
  trim <$> l1 = trim <$> l2 →
  importRows i l1 acc ids = importRows i l2 acc ids.
Proof.
  revert i l2 acc ids. induction l1 as [| a l1 IH];
    intros i [| b l2] acc ids H; try done.
  simpl in H. injection H as Hab H. simpl. rewrite Hab.
  repeat case_match; by apply IH.
Qed.

(** The import reads the text through the number of its lines and the
    trimmed data lines only. *)
Lemma importFromCSV_lines a b st :
  length (csvLines a) = length (csvLines b) →
  trim <$> drop 1 (csvLines a) = trim <$> drop 1 (csvLines b) →
  importFromCSV a st = importFromCSV b st.
Proof.
  intros Hlen Hrows. unfold importFromCSV, tryCatch. rewrite Hlen.
  destruct (length (csvLines b) <? 2)%nat; [done |].
  unfold bind. destruct (getTransactions st) as [[existing | e] st1]; [| done].
  by rewrite (importRows_trim 0 _ _ [] _ Hrows).
Qed.

Lemma csvLines_lines l :
  Forall (λ s, includes newline s = false) l →
  csvLines (lines l) = filter (λ line, truthy_string (trim line) = true) l.
Proof.
  intros H. unfold csvLines, lines.
  destruct l as [| s l]; [done |]. by rewrite split_join.
Qed.

Lemma csvLines_header h body :
  textLine h → csvLines (h +:+ String newline body) = h :: csvLines body.
Proof.
  intros [Hn Ht]. unfold csvLines. rewrite split_app by done.
  by rewrite filter_cons_True.
Qed.

(** X8: the first line of the text that is not blank is taken for the
    header whatever it says: two texts that differ in their first
    line only, a line that is not blank, are imported alike. *)
Theorem header_line_not_read (h1 h2 body : string) (st : Storage) :
  textLine h1 → textLine h2 →
  importFromCSV (h1 +:+ String newline body) st
  = importFromCSV (h2 +:+ String newline body) st.
Proof.
  intros H1 H2. apply importFromCSV_lines; by rewrite !csvLines_header.
Qed.

Lemma trimEnd_ws_end s c : is_ws c = true → trimEnd (s +:+ String c "") = trimEnd s.
Proof.
  intros Hc. induction s as [| x s IH].
  - simpl. by rewrite Hc.
  - rewrite app_String. simpl. by rewrite IH.
Qed.

Lemma filter_trim_fmap (f : string → string) (l : list string) :
  (∀ s, trim (f s) = trim s) →
  filter (λ line, truthy_string (trim line) = true) (f <$> l)
  = f <$> filter (λ line, truthy_string (trim line) = true) l.
Proof.
  intros Hf. induction l as [| s l IH]; [done |].
  rewrite fmap_cons.
  destruct (decide (truthy_string (trim s) = true)) as [Hs | Hs].
  - rewrite !filter_cons_True by (by rewrite ?Hf). by rewrite fmap_cons, IH.
  - rewrite !filter_cons_False by (by rewrite ?Hf). done.
Qed.

(** X9: a text whose lines end in a carriage return and a line feed is
    imported as the text with the same lines ended by a line feed
    alone. *)
Theorem carriage_returns_dropped (l : list string) (st : Storage) :
  Forall (λ s, includes newline s = false) l →
  importFromCSV (lines ((λ s, s +:+ String "013" "") <$> l)) st
  = importFromCSV (lines l) st.
Proof.
  intros Hl.
  assert (Hf : ∀ s, trim (s +:+ String "013" "") = trim s).
  { intros s. unfold trim. by rewrite trimEnd_ws_end. }
  assert (Hl' : Forall (λ s, includes newline s = false)
                  ((λ s, s +:+ String "013" "") <$> l)).
  { rewrite Forall_fmap. eapply Forall_impl; [exact Hl |].
    intros s Hs. simpl. by rewrite includes_app, Hs. }
  apply importFromCSV_lines; rewrite !csvLines_lines by done;
    rewrite filter_trim_fmap by done.
  - by rewrite length_fmap.
  - rewrite <- fmap_drop, <- list_fmap_compose.
    apply list_fmap_ext. intros i s _. apply Hf.
Qed.

(** X10: blank lines are dropped before the rows are numbered: a text with
    a blank line anywhere in it is imported as the text without that
    line, ids of the imported rows included. *)
Theorem blank_lines_dropped (before after : list string) (blank : string)
    (st : Storage) :
  Forall (λ s, includes newline s = false) (before ++ blank :: after) →
  truthy_string (trim blank) = false →
  importFromCSV (lines (before ++ blank :: after)) st
  = importFromCSV (lines (before ++ after)) st.
Proof.
  intros Hl Hb.
  assert (Hl' : Forall (λ s, includes newline s = false) (before ++ after)).
  { apply Forall_app in Hl as [H1 H2]. apply Forall_cons in H2 as [_ H2].
    by apply Forall_app. }
  assert (E : csvLines (lines (before ++ blank :: after))
              = csvLines (lines (before ++ after))).
  { rewrite !csvLines_lines by done. rewrite !filter_app.
    rewrite filter_cons_False; [done |]. by rewrite Hb. }
  apply importFromCSV_lines; by rewrite E.
Qed.

(** ** Importing an export into the store it came from *)

(** X11: the store holds transactions whose ids are numerals, as the ids
    that addTransaction gives are, and that can be exported.  Importing
    the export of the store into that same store recognises no row as
    a duplicate, the id of a row being formed from its date and its
    row number: every row is imported, and the store then holds each
    transaction twice. *)
Theorem reimport_of_own_export (st : Storage) (l : list Transaction) :
  (∀ p, storageAccepts p = true) →
  fst (getTransactions st) = Return l →
  l ≠ [] →
  Forall (λ t, exportable t = true) l →
  Forall (λ t, all_digits (id t) = true) l →
  ∃ csv,
    exportToCSV st = (Return csv, st)
    ∧ fst (importFromCSV csv st) = Return (imported (length l))
    ∧ length (storedIds (snd (importFromCSV csv st))) = (2 * length l)%nat.
Proof.
  intros Hw El Hne Hl Hids.
  set (csv := lines (headerLine :: (lineOf <$> l))).
  set (rows := validRowsFrom 0 (lineOf <$> l)).
  pose proof (validRowsFrom_exported 0 l Hl) as Hrows. fold rows in Hrows.
  assert (Hlen : length rows = length l)
    by (symmetry; by eapply Forall2_length).
  assert (Hlines : csvLines csv = headerLine :: (lineOf <$> l))
    by (by apply csvLines_exported).
  assert (Hacc : acceptedRows csv l = rows).
  { unfold acceptedRows. rewrite Hlines. simpl drop.
    rewrite importRows_all_fresh; [done | apply validRowsFrom_NoDup |].
    apply Forall_forall. intros t Ht. simpl.
    rewrite elem_of_list_to_set.
    intros (t' & Hid & Ht')%list_elem_of_fmap.
    apply validRowsFrom_index in Ht as (time & j & _ & Hrow).
    rewrite Forall_forall in Hids. specialize (Hids t' Ht').
    by rewrite <- Hid, Hrow, all_digits_dash in Hids. }
  assert (Himp : importFromCSV csv st
                 = (Return (imported (length rows)),
                    Some (JSON_stringify (sortByDate (l ++ rows))))).
  { rewrite <- Hacc. apply import_success; [| done | | apply Hw].
    - rewrite Hlines. destruct l; [done |]. simpl. lia.
    - rewrite Hacc. intros E. rewrite E in Hlen. by destruct l. }
  exists csv. rewrite Himp. cbn [fst snd]. split_and!.
  - by apply exportToCSV_exportable.
  - by rewrite Hlen.
  - rewrite storedIds_stringify, length_fmap, sortByDate_length, length_app.
    lia.
Qed.

(** ** The handlers of the component *)

(** X12: addSpend does nothing, and writes nothing, when the amount of the
    form is null, zero or NaN.  With any other finite amount, on a
    store that the service has produced and a storage that takes the
    write, it stores one transaction more, of type spend, with the
    trimmed description of the form and dated by the clock of the
    service, whatever date the form holds; it sets the amount of the
    form to zero and its description to the empty text, keeps its
    date, leaves the savings fields alone, and shows the stored list. *)
Theorem addSpend_outcomes (formNow idNow dateNow : Z) (c : Component)
    (st : Storage) (amount : JSNumber) (l : list Transaction) :
  reachable st →
  (∀ p, storageAccepts p = true) →
  fst (getTransactions st) = Return l →
  validTime dateNow →
  spendAmount c = Some amount →
  is_finite amount = true →
  amount ≠ Zero →
  let stored :=
    l ++ [ {| id := show_Z idNow;
              date := Some dateNow;
              amount := Some amount;
              type := spend;
              description :=
                trimmedOrUndefined (Some (spendDescription c)) |} ] in
  (∃ st',
     addSpend formNow idNow dateNow c st
     = (Return {| savingsAmount := savingsAmount c;
                  savingsDescription := savingsDescription c;
                  savingsDate := savingsDate c;
                  spendAmount := Some Zero;
                  spendDescription := "";
                  spendDate := spendDate c;
                  transactions := stored |}, st')
     ∧ getTransactions st' = (Return stored, st'))
  ∧ (∀ c0, truthy_number (spendAmount c0) = false →
           addSpend formNow idNow dateNow c0 st = (Return c0, st)).
Proof.
  intros Hr Hw El Hv Hc Hf Hz. cbv zeta. split.
  - destruct (addTransaction_reachable st l idNow dateNow amount spend
                (Some (spendDescription c)) Hr Hw El Hv Hf)
      as (st' & Eadd & Eread).
    exists st'. split; [| done].
    unfold addSpend. rewrite Hc.
    assert (Ht : truthy_number (Some amount) = true)
      by (by destruct amount).
    rewrite Ht. unfold addTransaction_4, loadTransactions, bind.
    by rewrite Eadd, Eread.
  - intros c0 H0. unfold addSpend.
    destruct (spendAmount c0) as [x |]; [| done]. by rewrite H0.
Qed.

(** X13: the callback of onFileSelected on a store that the service has
    produced never throws and always shows the message of the import.
    After a failed import the slot and the component are as before;
    after a successful one the component shows the content of the
    slot, which is sorted by date. *)
Theorem onFileSelected_outcomes (text : string) (c : Component)
    (st : Storage) :
  reachable st →
  ∃ r st' c',
    importFromCSV text st = (Return r, st')
    ∧ onFileSelected text c st = (Return (message r, c'), st')
    ∧ (success r = false → st' = st ∧ c' = c)
    ∧ (success r = true →
       getTransactions st' = (Return (transactions c'), st')
       ∧ StronglySorted notLater (transactions c')
       ∧ savingsAmount c' = savingsAmount c
       ∧ savingsDescription c' = savingsDescription c
       ∧ savingsDate c' = savingsDate c
       ∧ spendAmount c' = spendAmount c
       ∧ spendDescription c' = spendDescription c
       ∧ spendDate c' = spendDate c).
Proof.
  intros Hreach.
  destruct (importFromCSV_case text st) as (r & st' & E & Hcase).
  unfold onFileSelected, bind. rewrite E.
  destruct Hcase as [| | | | existing Hl He Hrows Hw];
    try (by eexists _, _, _; split_and!).
  destruct (wfStore_read st (reachable_wf st Hreach))
    as (l & El & _ & Hvalid & _).
  rewrite El in He. simpl in He. injection He as ->.
  assert (Hv : Forall validDate
                 (sortByDate (existing ++ acceptedRows text existing))).
  { rewrite sortByDate_Permutation. apply Forall_app. split; [done |].
    eapply Forall_impl; [apply acceptedRows_wf |]. by intros t [_ ?]. }
  set (merged := sortByDate (existing ++ acceptedRows text existing)) in *.
  exists (imported (length (acceptedRows text existing))),
    (Some (JSON_stringify merged)),
    {| savingsAmount := savingsAmount c;
       savingsDescription := savingsDescription c;
       savingsDate := savingsDate c;
       spendAmount := spendAmount c;
       spendDescription := spendDescription c;
       spendDate := spendDate c;
       transactions := persisted <$> merged |}.
  split; [done |]. split.
  { assert (Hs : ∀ n, success (imported n) = true) by done.
    rewrite Hs. unfold loadTransactions, bind.
    by rewrite getTransactions_stringify. }
  split; [done |]. intros _.
  cbn [transactions savingsAmount savingsDescription savingsDate
       spendAmount spendDescription spendDate].
  split_and!; try done.
  - apply getTransactions_stringify.
  - apply persisted_sorted; [done |]. apply sortByDate_sorted.
    subst merged. by rewrite sortByDate_Permutation in Hv.
Qed.

(** ** Pages of the list view *)

Lemma ceilDiv_spec (a : Z) (b : positive) :
  (ceilDiv a b - 1) * Z.pos b < a <= ceilDiv a b * Z.pos b.
Proof. unfold ceilDiv. Z.div_mod_to_equations. lia. Qed.

Lemma getTotalPages_spec (transactions : list Transaction)
    (transactionLimit : positive) :
  let n := Z.of_nat (length transactions) in
  let pages := getTotalPages transactions transactionLimit in
  1 <= pages ∧ n <= pages * Z.pos transactionLimit
  ∧ (n = 0 ∧ pages = 1 ∨ (pages - 1) * Z.pos transactionLimit < n).
Proof.
  intros n pages. subst pages. unfold getTotalPages. fold n.
  pose proof (ceilDiv_spec n transactionLimit) as H.
  assert (0 <= n) by lia.
  destruct (Z.eqb_spec (ceilDiv n transactionLimit) 0) as [E | E];
    split_and!; nia.
Qed.

Lemma Array_slice_nat {A} (l : list A) (i k : nat) :
  Array_slice l (Z.of_nat i) (Z.of_nat i + Z.of_nat k) = take k (drop i l).
Proof.
  unfold Array_slice.
  destruct (Z.ltb_spec (Z.of_nat i) 0); [lia |].
  destruct (Z.ltb_spec (Z.of_nat i + Z.of_nat k) 0); [lia |].
  destruct (Nat.le_gt_cases (length l) i) as [Hi | Hi].
  - rewrite (drop_ge l i) by done.
    rewrite drop_ge by lia. by rewrite !take_nil.
  - replace (Z.to_nat (Z.min (Z.of_nat i) (Z.of_nat (length l)))) with i by lia.
    destruct (Nat.le_gt_cases k (length l - i)) as [Hk | Hk].
    + f_equal. lia.
    + rewrite !take_ge; [done | |]; rewrite length_drop; lia.
Qed.

Lemma chunks_concat {A} (l : list A) (k m : nat) :
  concat ((λ i, take k (drop (i * k) l)) <$> seq 0 m) = take (m * k) l.
Proof.
  induction m as [| m IH]; [done |].
  rewrite seq_S, fmap_app, concat_app, IH. simpl.
  rewrite app_nil_r, take_take_drop. f_equal. lia.
Qed.

Lemma getDisplayedTransactions_nat (transactions : list Transaction)
    (transactionLimit : positive) (i : nat) :
  getDisplayedTransactions transactions transactionLimit (1 + Z.of_nat i)
  = take (Pos.to_nat transactionLimit)
         (drop (i * Pos.to_nat transactionLimit) (reverse transactions)).
Proof.
  unfold getDisplayedTransactions.
  replace ((1 + Z.of_nat i - 1) * Z.pos transactionLimit)
    with (Z.of_nat (i * Pos.to_nat transactionLimit)) by lia.
  replace (Z.pos transactionLimit)
    with (Z.of_nat (Pos.to_nat transactionLimit)) at 1 by lia.
  apply Array_slice_nat.
Qed.

Lemma Array_slice_length {A} (l : list A) (start : Z) (k : positive) :
  (length (Array_slice l start (start + Z.pos k)) ≤ Pos.to_nat k)%nat.
Proof.
  unfold Array_slice. rewrite length_take, length_drop.
  destruct (Z.ltb_spec start 0), (Z.ltb_spec (start + Z.pos k) 0); lia.
Qed.

(** X14: the number of pages is the least positive number of pages of
    [transactionLimit] rows that hold the whole list; an empty list
    has one page, and there is more than one page exactly when
    hasMoreTransactions says so. *)
Theorem getTotalPages_least (transactions : list Transaction)
    (transactionLimit : positive) :
  let n := Z.of_nat (length transactions) in
  let pages := getTotalPages transactions transactionLimit in
  1 <= pages
  ∧ n <= pages * Z.pos transactionLimit
  ∧ (∀ q, 1 <= q → n <= q * Z.pos transactionLimit → pages <= q)
  ∧ (transactions = [] → pages = 1)
  ∧ (hasMoreTransactions transactions transactionLimit = true ↔ 1 < pages).
Proof.
  intros n pages.
  destruct (getTotalPages_spec transactions transactionLimit)
    as (H1 & H2 & H3). fold n pages in H1, H2, H3.
  split_and!; try done.
  - intros q Hq Hn. destruct H3 as [[_ ->] | H3]; [done | nia].
  - intros ->. subst pages. done.
  - unfold hasMoreTransactions. fold n. rewrite Z.ltb_lt.
    destruct H3 as [[-> ->] | H3]; [lia |]. split; nia.
Qed.

(** X15: the pages 1 to getTotalPages, one after the other, are the list in
    reverse order, the newest entry first: every transaction is on
    exactly one page.  Every page before the last is full, no page has
    more than [transactionLimit] rows, the last page of a list that is
    not empty is not empty, and there is nothing after the last page. *)
Theorem pages_partition (transactions : list Transaction)
    (transactionLimit : positive) :
  let pages := getTotalPages transactions transactionLimit in
  let page := getDisplayedTransactions transactions transactionLimit in
  concat (page <$> fromTo 1 pages) = reverse transactions
  ∧ (∀ p, 1 <= p < pages → length (page p) = Pos.to_nat transactionLimit)
  ∧ (∀ p, (length (page p) ≤ Pos.to_nat transactionLimit)%nat)
  ∧ (transactions ≠ [] → page pages ≠ [])
  ∧ (∀ p, pages < p → page p = []).
Proof.
  intros pages page.
  destruct (getTotalPages_spec transactions transactionLimit)
    as (H1 & H2 & H3). fold pages in H1, H2, H3.
  assert (Hpage : ∀ i : nat,
    page (1 + Z.of_nat i)
    = take (Pos.to_nat transactionLimit)
           (drop (i * Pos.to_nat transactionLimit) (reverse transactions)))
    by apply getDisplayedTransactions_nat.
  split_and!.
  - unfold fromTo, seqZ. rewrite <- list_fmap_compose.
    rewrite (list_fmap_ext _
               (λ i, take (Pos.to_nat transactionLimit)
                       (drop (i * Pos.to_nat transactionLimit)
                          (reverse transactions))))
      by (intros i x _; simpl; rewrite Z.add_comm; apply Hpage).
    rewrite chunks_concat. apply take_ge. rewrite length_reverse. lia.
  - intros p Hp. replace p with (1 + Z.of_nat (Z.to_nat (p - 1))) by lia.
    rewrite Hpage, length_take, length_drop, length_reverse. nia.
  - intros p. apply Array_slice_length.
  - intros Hne. replace pages with (1 + Z.of_nat (Z.to_nat (pages - 1))) by lia.
    rewrite Hpage. intros E%(f_equal length).
    rewrite length_take, length_drop, length_reverse in E. simpl in E.
    destruct transactions; [done |]. simpl in *. nia.
  - intros p Hp. replace p with (1 + Z.of_nat (Z.to_nat (p - 1))) by lia.
    rewrite Hpage, drop_ge; [by rewrite take_nil |].
    rewrite length_reverse. nia.
Qed.

(** X16: whatever page is asked for, goToPage lands on an existing page;
    loadTransactions leaves an existing page whatever the list it has
    read; a change of the page size goes to page 1; and from an
    existing page, nextPage and previousPage lead to an existing
    page. *)
Theorem currentPage_stays_on_a_page (transactions : list Transaction)
    (transactionLimit : positive) (currentPage : Z) :
  (∀ page, onPage transactions transactionLimit
             (goToPage transactions transactionLimit page currentPage))
  ∧ (∀ loaded, onPage loaded transactionLimit
                 (loadTransactions_page loaded transactionLimit currentPage))
  ∧ (∀ newLimit, onPage transactions (fst (onLimitChange newLimit))
                   (snd (onLimitChange newLimit)))
  ∧ (onPage transactions transactionLimit currentPage →
     onPage transactions transactionLimit
       (nextPage transactions transactionLimit currentPage)
     ∧ onPage transactions transactionLimit (previousPage currentPage)).
Proof.
  unfold onPage. split_and!.
  - intros page. unfold goToPage.
    pose proof (getTotalPages_spec transactions transactionLimit) as (H & _).
    destruct (Z.leb_spec 1 page), (Z.leb_spec page
      (getTotalPages transactions transactionLimit)); simpl; try lia;
      destruct (Z.ltb_spec 0 (getTotalPages transactions transactionLimit));
      lia.
  - intros loaded. unfold loadTransactions_page.
    pose proof (getTotalPages_spec loaded transactionLimit) as (H & _).
    destruct (Z.ltb_spec (getTotalPages loaded transactionLimit) currentPage),
      (Z.ltb_spec 0 (getTotalPages loaded transactionLimit)); simpl; try lia;
      destruct (Z.ltb_spec currentPage 1); lia.
  - intros newLimit. simpl.
    pose proof (getTotalPages_spec transactions newLimit) as (H & _). lia.
  - intros H. unfold nextPage, previousPage.
    destruct (Z.ltb_spec currentPage
                (getTotalPages transactions transactionLimit)),
      (Z.ltb_spec 1 currentPage); lia.
Qed.

(** X17: on an existing page, goToPage with the number of an existing page
    goes there, and with any other number goes to the last page;
    nextPage stays put on the last page and previousPage on the first;
    elsewhere each undoes the other.  loadTransactions keeps the page
    when the list it has read still has it, and goes to the last page
    of that list otherwise. *)
Theorem page_navigation (transactions : list Transaction)
    (transactionLimit : positive) (currentPage : Z) :
  onPage transactions transactionLimit currentPage →
  let pages := getTotalPages transactions transactionLimit in
  (∀ page, onPage transactions transactionLimit page →
           goToPage transactions transactionLimit page currentPage = page)
  ∧ (∀ page, ¬ onPage transactions transactionLimit page →
             goToPage transactions transactionLimit page currentPage = pages)
  ∧ (currentPage < pages →
     previousPage (nextPage transactions transactionLimit currentPage)
     = currentPage)
  ∧ (1 < currentPage →
     nextPage transactions transactionLimit (previousPage currentPage)
     = currentPage)
  ∧ (currentPage = pages →
     nextPage transactions transactionLimit currentPage = currentPage)
  ∧ (currentPage = 1 → previousPage currentPage = currentPage)
  ∧ (∀ loaded,
       let pages' := getTotalPages loaded transactionLimit in
       loadTransactions_page loaded transactionLimit currentPage
       = Z.min currentPage pages').
Proof.
  intros H. cbv zeta. unfold onPage in *.
  pose proof (getTotalPages_spec transactions transactionLimit) as (H1 & _).
  split_and!.
  - intros page Hp. unfold goToPage.
    destruct (Z.leb_spec 1 page), (Z.leb_spec page
      (getTotalPages transactions transactionLimit)); simpl; lia.
  - intros page Hp. unfold goToPage.
    destruct (Z.leb_spec 1 page), (Z.leb_spec page
      (getTotalPages transactions transactionLimit)); simpl; try lia;
      destruct (Z.ltb_spec 0 (getTotalPages transactions transactionLimit));
      lia.
  - intros Hlt. unfold nextPage, previousPage.
    destruct (Z.ltb_spec currentPage
                (getTotalPages transactions transactionLimit)); [| lia].
    destruct (Z.ltb_spec 1 (currentPage + 1)); lia.
  - intros Hlt. unfold nextPage, previousPage.
    destruct (Z.ltb_spec 1 currentPage); [| lia].
    destruct (Z.ltb_spec (currentPage - 1)
                (getTotalPages transactions transactionLimit)); lia.
  - intros ->. unfold nextPage. by rewrite Z.ltb_irrefl.
  - by intros ->.
  - intros loaded. unfold loadTransactions_page.
    pose proof (getTotalPages_spec loaded transactionLimit) as (H2 & _).
    destruct (Z.ltb_spec (getTotalPages loaded transactionLimit) currentPage),
      (Z.ltb_spec 0 (getTotalPages loaded transactionLimit)); simpl; try lia;
      destruct (Z.ltb_spec currentPage 1); lia.
Qed.

(** X18: the strip of page numbers is a run of consecutive numbers of
    existing pages: all of them when there are at most 5, and otherwise
    exactly 5, the current page among them when it exists. *)
Theorem getPageNumbers_window (transactions : list Transaction)
    (transactionLimit : positive) (currentPage : Z) :
  let pages := getTotalPages transactions transactionLimit in
  let shown := Z.min pages 5 in
  ∃ first,
    getPageNumbers transactions transactionLimit currentPage
    = fromTo first (first + shown - 1)
    ∧ length (getPageNumbers transactions transactionLimit currentPage)
      = Z.to_nat shown
    ∧ 1 <= first ∧ first + shown - 1 <= pages
    ∧ (pages <= 5 → first = 1)
    ∧ (onPage transactions transactionLimit currentPage →
       currentPage ∈ getPageNumbers transactions transactionLimit currentPage).
Proof.
  intros pages shown. unfold getPageNumbers, onPage. fold pages.
  pose proof (getTotalPages_spec transactions transactionLimit) as (H1 & _).
  fold pages in H1.
  assert (Hin : ∀ a b x, a <= x <= b → x ∈ fromTo a b).
  { intros a b x Hx. unfold fromTo. apply elem_of_seqZ. lia. }
  assert (Hlen : ∀ a b, length (fromTo a b) = Z.to_nat (b - a + 1)).
  { intros a b. unfold fromTo. apply length_seqZ. }
  destruct (Z.leb_spec pages 5) as [Hp | Hp].
  - exists 1. replace (1 + shown - 1) with pages by lia.
    split_and!; try done; try lia.
    + rewrite Hlen. f_equal. lia.
    + intros Hc. by apply Hin.
  - set (start := Z.max 1 (currentPage - 2)).
    set (end_ := Z.min pages (start + 5 - 1)).
    destruct (Z.ltb_spec (end_ - start) (5 - 1)) as [Hs | Hs].
    + exists (Z.max 1 (end_ - 5 + 1)).
      replace (Z.max 1 (end_ - 5 + 1) + shown - 1) with end_ by lia.
      split_and!; try done; try lia.
      * rewrite Hlen. f_equal. lia.
      * intros Hc. apply Hin. lia.
    + exists start.
      replace (start + shown - 1) with end_ by lia.
      split_and!; try done; try lia.
      * rewrite Hlen. f_equal. lia.
      * intros Hc. apply Hin. lia.
Qed.

(** ** The theme *)

(** X19: loadTheme sets the flag from the saved text, dark exactly when the
    text is dark, and the class of the body from the flag.  A toggle
    flips the flag and the class together.  When the storage takes the
    write, the toggled theme is what loadTheme finds on the next
    start, and a second toggle brings the first theme back; when the
    storage refuses it, the toggle throws with the flag and the class
    already flipped, and the next start comes back to the theme saved
    before. *)
Theorem theme_saved_and_restored (themeAccepts : string → bool) (s : Theme) :
  let toggled := snd (toggleDarkMode themeAccepts s) in
  darkMode (loadTheme s) = bool_decide (savedTheme s = Some "dark")
  ∧ bodyDark (loadTheme s) = darkMode (loadTheme s)
  ∧ savedTheme (loadTheme s) = savedTheme s
  ∧ darkMode toggled = negb (darkMode s)
  ∧ bodyDark toggled = darkMode toggled
  ∧ ((∀ text, themeAccepts text = true) →
     fst (toggleDarkMode themeAccepts s) = Return tt
     ∧ loadTheme toggled = toggled
     ∧ darkMode (snd (toggleDarkMode themeAccepts toggled)) = darkMode s)
  ∧ ((∀ text, themeAccepts text = false) →
     fst (toggleDarkMode themeAccepts s) = Throw quotaExceeded
     ∧ savedTheme toggled = savedTheme s
     ∧ loadTheme toggled = loadTheme s).
Proof.
  destruct s as [dark saved body]. cbv zeta.
  unfold toggleDarkMode, loadTheme, applyTheme. simpl.
  split_and!.
  - by case_bool_decide.
  - by case_bool_decide.
  - by case_bool_decide.
  - by destruct dark, (themeAccepts _).
  - destruct dark; simpl; by destruct (themeAccepts _).
  - intros H. destruct dark; simpl; rewrite !H; simpl; rewrite ?H; done.
  - intros H. destruct dark; simpl; rewrite !H; simpl;
      by repeat case_bool_decide.
Qed.


(** ** The start of the component *)

(** X20: ngOnInit loads the theme whatever the slot holds.  On a slot
    that can be read it shows the stored list and sets both form dates
    to the date part of the ISO string of the clock reading, a text
    that the form handlers parse back to the start of that day; the
    amounts and descriptions of the forms are left alone.  On a slot
    that cannot be read it throws the error of the read, and the form
    dates are not set. *)
Theorem ngOnInit_outcomes (now : Z) (theme : Theme) (c : Component)
    (st : Storage) :
  validTime now →
  fst (ngOnInit now theme c st) = loadTheme theme
  ∧ (∀ l, fst (getTransactions st) = Return l →
          snd (ngOnInit now theme c st)
          = (Return {| savingsAmount := savingsAmount c;
                       savingsDescription := savingsDescription c;
                       savingsDate := isoDate now;
                       spendAmount := spendAmount c;
                       spendDescription := spendDescription c;
                       spendDate := isoDate now;
                       transactions := l |}, st))
  ∧ (∀ e, fst (getTransactions st) = Throw e →
          snd (ngOnInit now theme c st) = (Throw e, st))
  ∧ Date_parse (isoDate now) = Some (Day now * msPerDay).
Proof.
  intros Hv. unfold ngOnInit, loadTransactions, bind. cbn [fst snd].
  rewrite isoString_date_part. split_and!.
  - done.
  - intros l El. by rewrite getTransactions_eta, El.
  - intros e Ee. by rewrite getTransactions_eta, Ee.
  - by apply Date_parse_isoDate.
Qed.

End Service.

(** ** The date of an appended transaction *)

(** C1: at a form that supplies the date 2024-01-15, with the clock at
    1718000000000, [addSavings] hands the parsed date to the service as
    a fourth argument, but the stored transaction is dated by the
    clock, not by the supplied date: [addTransaction] has no date
    parameter. *)
Theorem addSavings_date_argument_dropped :
  Date_parse isoOnly (savingsDate filledForm) = Some 1705276800000
  ∧ fst (getTransactions isoOnly
           (snd (addSavings isoOnly unlimited 1718000000000 1718000000000
                            1718000000000 filledForm None)))
    = Return [ {| id := "1718000000000";
                  date := Some 1718000000000;
                  amount := Some (Finite false "1" 3);
                  type := savings;
                  description := Some "June bonus" |} ].
Proof. split; vm_compute; reflexivity. Qed.

(** ** The rows that an import skips *)

(** A data row is skipped exactly when it has fewer than 3 parsed
    columns, or its date column does not parse to a valid date, or its
    amount column parses to NaN, or its type column, lower-cased and
    trimmed, is neither savings nor spend.  A skipped row leaves the
    accepted rows and the id set as they were and the loop goes on
    with the next row.  The sample of five data rows, two with an
    unparseable amount and one of type transfer, imports exactly 2
    transactions with success. *)
Lemma skipped_rows (hostDateParse : string → option Z) (i : nat)
    (line : string) :
  (rowTransaction hostDateParse i line = None
   ↔ (length (parseCSVLine line) < 3)%nat
     ∨ Date_parse hostDateParse (default "" (parseCSVLine line !! 0%nat))
       = None
     ∨ parseFloat (default "" (parseCSVLine line !! 1%nat)) = NaN
     ∨ (trim (toLowerCase (default "" (parseCSVLine line !! 2%nat)))
          ≠ "savings"
        ∧ trim (toLowerCase (default "" (parseCSVLine line !! 2%nat)))
          ≠ "spend"))
  ∧ (∀ dataLine rest accepted ids,
       trim dataLine = line →
       rowTransaction hostDateParse i line = None →
       importRows hostDateParse i (dataLine :: rest) accepted ids
       = importRows hostDateParse (S i) rest accepted ids)
  ∧ fst (importFromCSV isoOnly unlimited fiveRows None)
    = Return (imported 2).
Proof.
  split_and!.
  - apply rowTransaction_None.
  - intros dataLine rest accepted ids <- H. by apply importRows_step_skip.
  - vm_compute. reflexivity.
Qed.

(** ** Amounts that are not finite *)

(** C2: the import checks the amount with isNaN only.  The row with the
    amount Infinity is admitted, the record read back from the store
    has the amount null, which is not a finite number, and the export
    of that store throws on it. *)
Theorem infinite_amount_stored :
  parseFloat "Infinity" = Infinity false
  ∧ fst (importFromCSV isoOnly unlimited infiniteRow None)
    = Return (imported 1)
  ∧ fst (getTransactions isoOnly
           (snd (importFromCSV isoOnly unlimited infiniteRow None)))
    = Return [ {| id := "1705276800000-0";
                  date := Some 1705276800000;
                  amount := None;
                  type := savings;
                  description := Some "Windfall" |} ]
  ∧ fst (exportToCSV isoOnly
           (snd (importFromCSV isoOnly unlimited infiniteRow None)))
    = Throw (TypeError "Cannot read properties of null (reading 'toString')").
Proof. split_and!; vm_compute; reflexivity. Qed.

(** C7: the row whose amount column parses to an infinity, which is
    not a finite number, is not skipped: it is accepted and counted. *)
Theorem infinite_amount_row_accepted :
  is_finite (parseFloat "Infinity") = false
  ∧ rowTransaction isoOnly 0 "2024-01-15,Infinity,savings,Windfall"
    = Some {| id := "1705276800000-0";
              date := Some 1705276800000;
              amount := Some (Infinity false);
              type := savings;
              description := Some "Windfall" |}
  ∧ fst (importFromCSV isoOnly unlimited infiniteRow None)
    = Return (imported 1).
Proof. split_and!; vm_compute; reflexivity. Qed.

(** A storage that refuses the write: the import reports the error and
    the slot stays empty. *)
Example import_refused_write :
  importFromCSV isoOnly (λ _, false) fiveRows None
  = (Return (importError quotaExceeded), None).
Proof. vm_compute. reflexivity. Qed.

(** ** Counterexamples *)

(** C4: two appends at the same clock reading store two records with
    the same id. *)
Lemma same_clock_same_id :
  let st1 :=
    snd (addTransaction isoOnly unlimited 1718000000000 1718000000000
                        (Finite false "5" 1) spend None None) in
  let st2 :=
    snd (addTransaction isoOnly unlimited 1718000000000 1718000000000
                        (Finite false "7" 1) savings None st1) in
  storedIds isoOnly st2 = ["1718000000000"; "1718000000000"]
  ∧ ¬ NoDup (storedIds isoOnly st2).
Proof.
  split; [vm_compute; reflexivity |].
  intros H. vm_compute in H. apply NoDup_cons in H as [H _].
  apply H. by left.
Qed.

(** C5: the store holds the record imported from the row of another
    text, whose id is formed from the same date and the same row
    index as the first row of this text.  Of the two valid rows of
    the text, both with finite amounts, the first import counts one. *)
Lemma taken_id_row_not_counted :
  let afterCoffee :=
    snd (importFromCSV isoOnly unlimited (lines coffeeText) None) in
  throws (fst (getTransactions isoOnly afterCoffee)) = false
  ∧ length (validRows isoOnly teaRows) = 2%nat
  ∧ Forall finiteOrNull (validRows isoOnly teaRows)
  ∧ fst (importFromCSV isoOnly unlimited teaRows afterCoffee)
    = Return (imported 1).
Proof.
  split_and!; try (vm_compute; reflexivity).
  vm_compute. by repeat constructor.
Qed.

(** C6: exporting the empty list gives the header alone, and importing
    it fails for want of a data row; and a stored list with a null
    amount, here the one left by the import of the Infinity row,
    cannot be exported at all. *)
Lemma empty_list_import_fails :
  fst (exportToCSV isoOnly None) = Return "Date,Amount,Type,Description"
  ∧ fst (importFromCSV isoOnly unlimited "Date,Amount,Type,Description" None)
    = Return tooFewLines
  ∧ success tooFewLines = false
  ∧ throws (fst (exportToCSV isoOnly
                   (snd (importFromCSV isoOnly unlimited infiniteRow None))))
    = true.
Proof. split_and!; vm_compute; reflexivity. Qed.


(** ** Instances

    Each theorem above that has premises, applied to a concrete input
    on which its premises hold. *)

(** C4 at an append, at a later clock reading, to the store left by the
    import of the two early rows. *)
Lemma unique_ids_preserved_witness :
  let afterEarlyRows :=
    snd (importFromCSV isoOnly unlimited earlyRows None) in
  NoDup (storedIds isoOnly afterEarlyRows)
  ∧ (show_Z 1718000000000 ∉ storedIds isoOnly afterEarlyRows)
  ∧ NoDup (storedIds isoOnly
             (snd (addTransaction isoOnly unlimited 1718000000000
                     1718000000000 (Finite false "5" 1) spend None
                     afterEarlyRows))).
Proof.
  intros afterEarlyRows.
  assert (H1 : NoDup (storedIds isoOnly afterEarlyRows)).
  { apply (bool_decide_unpack _). vm_compute. exact I. }
  assert (H2 : show_Z 1718000000000 ∉ storedIds isoOnly afterEarlyRows).
  { apply (bool_decide_unpack _). vm_compute. exact I. }
  split_and!; [exact H1 | exact H2 |].
  by apply (unique_ids_preserved isoOnly unlimited _ H1).
Defined.

(** C5 at the two rows of tea and bread and the store left by the
    import of the row of coffee, which holds the id of the first of
    them. *)
Lemma import_twice_witness :
  let afterCoffee :=
    snd (importFromCSV isoOnly unlimited (lines coffeeText) None) in
  (∀ p, unlimited p = true)
  ∧ throws (fst (getTransactions isoOnly afterCoffee)) = false
  ∧ validRows isoOnly teaRows ≠ []
  ∧ Forall finiteOrNull (validRows isoOnly teaRows)
  ∧ ∃ r1 r2 st1,
      importFromCSV isoOnly unlimited teaRows afterCoffee = (Return r1, st1)
      ∧ count r1
        = length (filter (λ t, id t ∉ storedIds isoOnly afterCoffee)
                    (validRows isoOnly teaRows))
      ∧ importFromCSV isoOnly unlimited teaRows st1 = (Return r2, st1)
      ∧ r2 = noValidRows.
Proof.
  intros afterCoffee.
  assert (H0 : ∀ p, unlimited p = true) by reflexivity.
  assert (H1 : throws (fst (getTransactions isoOnly afterCoffee)) = false)
    by (vm_compute; reflexivity).
  assert (H2 : validRows isoOnly teaRows ≠ []) by (vm_compute; discriminate).
  assert (H3 : Forall finiteOrNull (validRows isoOnly teaRows))
    by (vm_compute; by repeat constructor).
  split_and!; [exact H0 | exact H1 | exact H2 | exact H3 |].
  destruct (import_twice isoOnly unlimited teaRows afterCoffee H0 H1 H2 H3)
    as (r1 & r2 & st1 & Hfirst & Hcount & _ & _ & Hsecond & Hr2 & _).
  exists r1, r2, st1.
  split_and!; [exact Hfirst | exact Hcount | exact Hsecond | exact Hr2].
Defined.

(** C8 at the import of the two early rows into the store left by one
    append: the two rows, dated 2023, come before the appended
    transaction, dated 2024. *)
Lemma import_merges_sorted_witness :
  let afterAppend :=
    snd (addTransaction isoOnly unlimited 1718000000000 1718000000000
                        (Finite false "5" 1) spend None None) in
  reachable isoOnly unlimited afterAppend
  ∧ fst (importFromCSV isoOnly unlimited earlyRows afterAppend)
    = Return (imported 2)
  ∧ success (imported 2) = true
  ∧ ∃ existing,
      getTransactions isoOnly afterAppend = (Return existing, afterAppend)
      ∧ count (imported 2)
        = length (acceptedRows isoOnly earlyRows existing)
      ∧ getTransactions isoOnly
          (snd (importFromCSV isoOnly unlimited earlyRows afterAppend))
        = (Return
             (persisted isoOnly
                <$> (sortByDate
                       (existing
                          ++ acceptedRows isoOnly earlyRows existing))),
           snd (importFromCSV isoOnly unlimited earlyRows afterAppend)).
Proof.
  intros afterAppend.
  assert (H1 : reachable isoOnly unlimited afterAppend).
  { by apply reach_append; [apply reach_empty |]. }
  assert (H2 : fst (importFromCSV isoOnly unlimited earlyRows afterAppend)
               = Return (imported 2)) by (vm_compute; reflexivity).
  assert (H3 : success (imported 2) = true) by reflexivity.
  split_and!; [exact H1 | exact H2 | exact H3 |].
  destruct (import_merges_sorted isoOnly unlimited _ _ _ H1 H2 H3)
    as (existing & Hread & _ & Hcount & _ & _ & _ & Hlist & _).
  exists existing. split_and!; [exact Hread | exact Hcount | exact Hlist].
Defined.

(** C10 at an import into a slot whose read throws. *)
Lemma import_failure_keeps_storage_witness :
  let brokenStore := Some (Malformed "Unexpected token") in
  fst (importFromCSV isoOnly unlimited fiveRows brokenStore)
  = Return (importError (SyntaxError "Unexpected token"))
  ∧ success (importError (SyntaxError "Unexpected token")) = false
  ∧ snd (importFromCSV isoOnly unlimited fiveRows brokenStore) = brokenStore.
Proof.
  intros brokenStore.
  assert (H1 : fst (importFromCSV isoOnly unlimited fiveRows brokenStore)
               = Return (importError (SyntaxError "Unexpected token")))
    by (vm_compute; reflexivity).
  assert (H2 : success (importError (SyntaxError "Unexpected token")) = false)
    by reflexivity.
  split_and!; [exact H1 | exact H2 |].
  exact (import_failure_keeps_storage isoOnly unlimited _ _ _ H1 H2).
Defined.

(** C6 at a stored list of two transactions. *)
Lemma export_import_round_trip_witness :
  (∀ p, unlimited p = true)
  ∧ fst (getTransactions isoOnly (Some (JSON_stringify twoTransactions)))
    = Return twoTransactions
  ∧ twoTransactions ≠ []
  ∧ Forall (λ t, exportable t = true) twoTransactions
  ∧ ∃ csv stored,
      exportToCSV isoOnly (Some (JSON_stringify twoTransactions))
      = (Return csv, Some (JSON_stringify twoTransactions))
      ∧ fst (importFromCSV isoOnly unlimited csv None)
        = Return (imported (length twoTransactions))
      ∧ fst (getTransactions isoOnly
               (snd (importFromCSV isoOnly unlimited csv None)))
        = Return stored
      ∧ length stored = length twoTransactions
      ∧ core <$> stored = core <$> sortByDate (startOfDay <$> twoTransactions)
      ∧ core <$> stored ≡ₚ core <$> (startOfDay <$> twoTransactions).
Proof.
  assert (H0 : ∀ p, unlimited p = true) by reflexivity.
  assert (H1 : fst (getTransactions isoOnly
                      (Some (JSON_stringify twoTransactions)))
               = Return twoTransactions) by (vm_compute; reflexivity).
  assert (H2 : twoTransactions ≠ []) by discriminate.
  assert (H3 : Forall (λ t, exportable t = true) twoTransactions)
    by (repeat constructor).
  split_and!; [exact H0 | exact H1 | exact H2 | exact H3 |].
  exact (export_import_round_trip isoOnly unlimited _ _ H0 H1 H2 H3).
Defined.

(** X2 at a row with a comma in its last cell. *)
Lemma parseCSVLine_escaped_row_witness :
  ["2024-01-15"; "12.5"; "spend"; "Tea, milk"] ≠ []
  ∧ parseCSVLine
      (join "," (escapeCell <$> ["2024-01-15"; "12.5"; "spend"; "Tea, milk"]))
    = ["2024-01-15"; "12.5"; "spend"; "Tea, milk"].
Proof.
  assert (H : ["2024-01-15"; "12.5"; "spend"; "Tea, milk"] ≠ [])
    by discriminate.
  split; [exact H |].
  apply (parseCSVLine_escaped_row _ H). by repeat constructor.
Defined.

(** X4 at a second append, to the store left by a first one. *)
Lemma addTransaction_then_read_witness :
  let first :=
    {| id := "1718000000000";
       date := Some 1718000000000;
       amount := Some (Finite false "5" 1);
       type := spend;
       description := None |} in
  let afterAppend :=
    snd (addTransaction isoOnly unlimited 1718000000000 1718000000000
                        (Finite false "5" 1) spend None None) in
  let afterSecond :=
    snd (addTransaction isoOnly unlimited 1718000060000 1718000060001
                        (Finite false "125" 2) savings (Some " Refund ")
                        afterAppend) in
  reachable isoOnly unlimited afterAppend
  ∧ (∀ p, unlimited p = true)
  ∧ fst (getTransactions isoOnly afterAppend) = Return [first]
  ∧ validTime 1718000060001
  ∧ is_finite (Finite false "125" 2) = true
  ∧ getTransactions isoOnly afterSecond
    = (Return ([first]
               ++ [ {| id := show_Z 1718000060000;
                       date := Some 1718000060001;
                       amount := Some (Finite false "125" 2);
                       type := savings;
                       description :=
                         trimmedOrUndefined (Some " Refund ") |} ]),
       afterSecond).
Proof.
  intros first afterAppend afterSecond.
  assert (H1 : reachable isoOnly unlimited afterAppend).
  { by apply reach_append; [apply reach_empty |]. }
  assert (H2 : ∀ p, unlimited p = true) by reflexivity.
  assert (H3 : fst (getTransactions isoOnly afterAppend) = Return [first])
    by (vm_compute; reflexivity).
  assert (H4 : validTime 1718000060001) by (by vm_compute).
  assert (H5 : is_finite (Finite false "125" 2) = true) by reflexivity.
  split_and!; [exact H1 | exact H2 | exact H3 | exact H4 | exact H5 |].
  exact (proj2 (addTransaction_then_read isoOnly unlimited afterAppend
                  [first] 1718000060000 1718000060001 (Finite false "125" 2)
                  savings (Some " Refund ") H1 H2 H3 H4 H5)).
Defined.

(** X5 at a slot that holds a text that is not JSON. *)
Lemma unreadable_store_witness :
  let brokenStore := Some (Malformed "Unexpected token") in
  fst (getTransactions isoOnly brokenStore)
  = Throw (SyntaxError "Unexpected token")
  ∧ exportToCSV isoOnly brokenStore
    = (Throw (SyntaxError "Unexpected token"), brokenStore)
  ∧ getTransactions isoOnly (snd (clearTransactions brokenStore))
    = (Return [], None).
Proof.
  intros brokenStore.
  assert (H : fst (getTransactions isoOnly brokenStore)
              = Throw (SyntaxError "Unexpected token")) by reflexivity.
  destruct (unreadable_store isoOnly unlimited brokenStore _ H)
    as (_ & Hexport & _ & _ & _ & Hclear & _).
  split_and!; [exact H | exact Hexport | exact Hclear].
Defined.

(** X6 at a stored list of two transactions. *)
Lemma exportToCSV_outcomes_witness :
  let st := Some (JSON_stringify twoTransactions) in
  fst (getTransactions isoOnly st) = Return twoTransactions
  ∧ snd (exportToCSV isoOnly st) = st
  ∧ (throws (fst (exportToCSV isoOnly st)) = true
     ↔ Exists (λ t, date t = None ∨ amount t = None) twoTransactions).
Proof.
  intros st.
  assert (H : fst (getTransactions isoOnly st) = Return twoTransactions)
    by (vm_compute; reflexivity).
  destruct (exportToCSV_outcomes isoOnly st twoTransactions H)
    as (Hst & Hthrows & _).
  split_and!; [exact H | exact Hst | exact Hthrows].
Defined.

(** X8 at a text whose first line is a data row: the row is taken
    for the header. *)
Lemma header_line_not_read_witness :
  textLine "Date,Amount,Type,Description"
  ∧ textLine "2024-01-10,5,spend,Taken for the header"
  ∧ importFromCSV isoOnly unlimited
      ("Date,Amount,Type,Description"
       +:+ String newline "2023-03-02,7,spend,Coffee") None
    = importFromCSV isoOnly unlimited
        ("2024-01-10,5,spend,Taken for the header"
         +:+ String newline "2023-03-02,7,spend,Coffee") None.
Proof.
  assert (H1 : textLine "Date,Amount,Type,Description")
    by (split; reflexivity).
  assert (H2 : textLine "2024-01-10,5,spend,Taken for the header")
    by (split; reflexivity).
  split_and!; [exact H1 | exact H2 |].
  exact (header_line_not_read isoOnly unlimited _ _ _ None H1 H2).
Defined.

(** X9 at the header and one row. *)
Lemma carriage_returns_dropped_witness :
  Forall (λ s, includes newline s = false) coffeeText
  ∧ importFromCSV isoOnly unlimited
      (lines ((λ s, s +:+ String "013" "") <$> coffeeText)) None
    = importFromCSV isoOnly unlimited (lines coffeeText) None.
Proof.
  assert (H : Forall (λ s, includes newline s = false) coffeeText)
    by (by repeat constructor).
  split; [exact H |].
  exact (carriage_returns_dropped isoOnly unlimited coffeeText None H).
Defined.

(** X10 at a line of two spaces between the header and the row. *)
Lemma blank_lines_dropped_witness :
  Forall (λ s, includes newline s = false)
    (["Date,Amount,Type,Description"] ++ "  " :: ["2023-03-02,7,spend,Coffee"])
  ∧ truthy_string (trim "  ") = false
  ∧ importFromCSV isoOnly unlimited
      (lines (["Date,Amount,Type,Description"]
              ++ "  " :: ["2023-03-02,7,spend,Coffee"])) None
    = importFromCSV isoOnly unlimited
        (lines (["Date,Amount,Type,Description"]
                ++ ["2023-03-02,7,spend,Coffee"])) None.
Proof.
  assert (H1 : Forall (λ s, includes newline s = false)
                 (["Date,Amount,Type,Description"]
                  ++ "  " :: ["2023-03-02,7,spend,Coffee"]))
    by (by repeat constructor).
  assert (H2 : truthy_string (trim "  ") = false) by reflexivity.
  split_and!; [exact H1 | exact H2 |].
  exact (blank_lines_dropped isoOnly unlimited _ _ _ None H1 H2).
Defined.

(** X11 at a stored list of two transactions. *)
Lemma reimport_of_own_export_witness :
  let st := Some (JSON_stringify twoTransactions) in
  (∀ p, unlimited p = true)
  ∧ fst (getTransactions isoOnly st) = Return twoTransactions
  ∧ twoTransactions ≠ []
  ∧ Forall (λ t, exportable t = true) twoTransactions
  ∧ Forall (λ t, all_digits (id t) = true) twoTransactions
  ∧ ∃ csv,
      exportToCSV isoOnly st = (Return csv, st)
      ∧ fst (importFromCSV isoOnly unlimited csv st)
        = Return (imported (length twoTransactions))
      ∧ length (storedIds isoOnly (snd (importFromCSV isoOnly unlimited csv st)))
        = (2 * length twoTransactions)%nat.
Proof.
  intros st.
  assert (H0 : ∀ p, unlimited p = true) by reflexivity.
  assert (H1 : fst (getTransactions isoOnly st) = Return twoTransactions)
    by (vm_compute; reflexivity).
  assert (H2 : twoTransactions ≠ []) by discriminate.
  assert (H3 : Forall (λ t, exportable t = true) twoTransactions)
    by (repeat constructor).
  assert (H4 : Forall (λ t, all_digits (id t) = true) twoTransactions)
    by (repeat constructor).
  split_and!; [exact H0 | exact H1 | exact H2 | exact H3 | exact H4 |].
  exact (reimport_of_own_export isoOnly unlimited st _ H0 H1 H2 H3 H4).
Defined.

(** X12 at the spend form submitted on an empty store: the form
    says 2024-01-15, the record is dated by the clock. *)
Lemma addSpend_outcomes_witness :
  reachable isoOnly unlimited None
  ∧ (∀ p, unlimited p = true)
  ∧ fst (getTransactions isoOnly None) = Return []
  ∧ validTime 1718000000000
  ∧ spendAmount spendForm = Some (Finite false "5" 1)
  ∧ is_finite (Finite false "5" 1) = true
  ∧ Finite false "5" 1 ≠ Zero
  ∧ ∃ st',
      addSpend isoOnly unlimited 1718000000000 1718000000000 1718000000000
               spendForm None
      = (Return {| savingsAmount := None;
                   savingsDescription := "";
                   savingsDate := "2024-06-10";
                   spendAmount := Some Zero;
                   spendDescription := "";
                   spendDate := "2024-01-15";
                   transactions :=
                     [ {| id := "1718000000000";
                          date := Some 1718000000000;
                          amount := Some (Finite false "5" 1);
                          type := spend;
                          description := Some "Bus pass" |} ] |}, st').
Proof.
  assert (H1 : reachable isoOnly unlimited None) by apply reach_empty.
  assert (H2 : ∀ p, unlimited p = true) by reflexivity.
  assert (H3 : fst (getTransactions isoOnly None) = Return []) by reflexivity.
  assert (H4 : validTime 1718000000000) by (by vm_compute).
  assert (H5 : spendAmount spendForm = Some (Finite false "5" 1))
    by reflexivity.
  assert (H6 : is_finite (Finite false "5" 1) = true) by reflexivity.
  assert (H7 : Finite false "5" 1 ≠ Zero) by discriminate.
  split_and!;
    [exact H1 | exact H2 | exact H3 | exact H4 | exact H5 | exact H6
     | exact H7 |].
  destruct (addSpend_outcomes isoOnly unlimited 1718000000000 1718000000000
              1718000000000 spendForm None _ [] H1 H2 H3 H4 H5 H6 H7)
    as [(st' & Hadd & _) _].
  exists st'. exact Hadd.
Defined.

(** X13 at the five rows read from a file, on an empty store. *)
Lemma onFileSelected_outcomes_witness :
  reachable isoOnly unlimited None
  ∧ ∃ r st' c',
      importFromCSV isoOnly unlimited fiveRows None = (Return r, st')
      ∧ onFileSelected isoOnly unlimited fiveRows spendForm None
        = (Return (message r, c'), st').
Proof.
  assert (H : reachable isoOnly unlimited None) by apply reach_empty.
  split; [exact H |].
  destruct (onFileSelected_outcomes isoOnly unlimited fiveRows spendForm
              None H) as (r & st' & c' & Himport & Hshown & _).
  exists r, st', c'. split; [exact Himport | exact Hshown].
Defined.

(** X17 on page 2 of the three pages of twelve
    transactions. *)
Lemma page_navigation_witness :
  onPage twelveTransactions 5 2
  ∧ getTotalPages twelveTransactions 5 = 3
  ∧ previousPage (nextPage twelveTransactions 5 2) = 2
  ∧ goToPage twelveTransactions 5 7 2 = 3
  ∧ loadTransactions_page twoTransactions 5 2 = 1.
Proof.
  assert (H : onPage twelveTransactions 5 2) by (by vm_compute).
  destruct (page_navigation twelveTransactions 5 2 H)
    as (_ & Hgo & Hback & _ & _ & _ & Hload).
  split_and!; [exact H | reflexivity | | |].
  - apply Hback. by vm_compute.
  - apply (Hgo 7). intros [_ H7]. by vm_compute in H7.
  - exact (Hload twoTransactions).
Defined.

(** X20 at a start on the empty slot, on 2024-06-10. *)
Lemma ngOnInit_outcomes_witness :
  validTime 1718000000000
  ∧ snd (ngOnInit isoOnly 1718000000000
           {| darkMode := false; savedTheme := Some "dark"; bodyDark := false |}
           spendForm None)
    = (Return {| savingsAmount := None;
                 savingsDescription := "";
                 savingsDate := "2024-06-10";
                 spendAmount := Some (Finite false "5" 1);
                 spendDescription := "Bus pass ";
                 spendDate := "2024-06-10";
                 transactions := [] |}, None)
  ∧ Date_parse isoOnly "2024-06-10" = Some 1717977600000.
Proof.
  assert (H : validTime 1718000000000) by (by vm_compute).
  destruct (ngOnInit_outcomes isoOnly 1718000000000
              {| darkMode := false; savedTheme := Some "dark";
                 bodyDark := false |} spendForm None H)
    as (_ & Hshown & _ & Hdate).
  split_and!; [exact H | exact (Hshown [] eq_refl) | exact Hdate].
Defined.
